(** * Bridgy Fed: identifier translation, redirect endpoint, receive and send
    pipelines.

    A shallow embedding of the parts of [ids.py], [common.py], [redirect.py]
    and [protocol.py] that the specification's testable properties are about,
    with the properties stated and proved (or refuted) against it; and of
    the code around them: protocol resolution, [load], [handle_follow],
    [deliver] and [handle_bare_object], with what the code itself guarantees.

    Conventions.
    - Python [str] is [string]; [s1 + s2] and f-strings are [+:+].
    - A Python value used as a condition is truthy; for a string that means
      non-empty ([truthy]).
    - A function that can raise returns a [result]: [Ret v] or [Raise e].
    - A protocol class ([Web], [ActivityPub], ...) is a record of its class
      constants and class methods.  Classes are compared by [LABEL], which is
      the lower-cased class name and the key of the [PROTOCOLS] registry.
    - Functions of libraries outside the repository (webutil's [util.is_web],
      granary's [as1.get_owner], ...) are section variables. *)

From Stdlib Require Import String Ascii List Bool Lia.
From stdpp Require Import base option list strings gmap.

Local Open Scope string_scope.

(** ** Python values *)

Inductive exn : Type :=
| AssertionError
| ValueError
| KeyError
| IndexError
| AttributeError.

Inductive result (A : Type) : Type :=
| Ret (a : A)
| Raise (e : exn).
Arguments Ret {A} a.
Arguments Raise {A} e.

Definition truthy (s : string) : bool := negb (String.eqb s "").

Lemma truthy_true (s : string) : truthy s = true ↔ s ≠ "".
Proof.
  unfold truthy. rewrite negb_true_iff. split.
  - intros H ->. discriminate.
  - intros H. apply String.eqb_neq. exact H.
Qed.

Lemma truthy_false (s : string) : truthy s = false ↔ s = "".
Proof.
  unfold truthy. rewrite negb_false_iff. apply String.eqb_eq.
Qed.

(** [x is False] for a value that is [True], [False] or [None]. *)
Definition is_Some_false (o : option bool) : bool :=
  match o with Some false => true | _ => false end.

Lemma is_Some_false_no (o : option bool) :
  o ≠ Some false → is_Some_false o = false.
Proof. destruct o as [[]|]; simpl; congruence. Qed.

Definition is_Some_bool {A} (o : option A) : bool :=
  match o with Some _ => true | None => false end.

(** [str.startswith] and [str.removeprefix]. *)
Fixpoint startswith (p s : string) : bool :=
  match p, s with
  | EmptyString, _ => true
  | String a p', String b s' => Ascii.eqb a b && startswith p' s'
  | String _ _, EmptyString => false
  end.

Fixpoint removeprefix (p s : string) : string :=
  match p, s with
  | EmptyString, _ => s
  | String a p', String b s' =>
      if startswith p s then removeprefix p' s' else s
  | String _ _, EmptyString => s
  end.

(** [str.lstrip(c)] for a one-character argument. *)
Fixpoint lstrip (c : ascii) (s : string) : string :=
  match s with
  | String a s' => if Ascii.eqb a c then lstrip c s' else s
  | EmptyString => EmptyString
  end.

(** [str.replace(c, d)] for one-character arguments. *)
Fixpoint replace (c d : ascii) (s : string) : string :=
  match s with
  | String a s' => String (if Ascii.eqb a c then d else a) (replace c d s')
  | EmptyString => EmptyString
  end.

(** [str.split(c)] for a one-character separator: the pieces between the
    separators, empty pieces included; never the empty list. *)
Fixpoint split_on (c : ascii) (s : string) : list string :=
  match s with
  | EmptyString => [EmptyString]
  | String a s' =>
      if Ascii.eqb a c then EmptyString :: split_on c s'
      else match split_on c s' with
           | piece :: rest => String a piece :: rest
           | [] => [String a EmptyString]
           end
  end.

Lemma append_assoc (a b c : string) : (a +:+ b) +:+ c = a +:+ (b +:+ c).
Proof.
  induction a as [|x a IH]; [reflexivity|].
  change (String x ((a +:+ b) +:+ c) = String x (a +:+ (b +:+ c))).
  by rewrite IH.
Qed.

Lemma startswith_app (p s : string) : startswith p (p +:+ s) = true.
Proof.
  induction p as [|a p IH]; simpl; [done|].
  rewrite Ascii.eqb_refl. exact IH.
Qed.

Lemma removeprefix_app (p s : string) : removeprefix p (p +:+ s) = s.
Proof.
  induction p as [|a p IH]; simpl; [done|].
  rewrite Ascii.eqb_refl, startswith_app. exact IH.
Qed.

(** ** common.py: constants *)

Module Common.

Definition PRIMARY_DOMAIN : string := "fed.brid.gy".
Definition SUPERDOMAIN : string := ".brid.gy".

Definition OTHER_DOMAINS : list string :=
  [ "ap.brid.gy"; "atp.brid.gy"; "atproto.brid.gy"; "bluesky.brid.gy";
    "bsky.brid.gy"; "bridgy-federated.appspot.com";
    "bridgy-federated.uc.r.appspot.com"; "fa.brid.gy"; "nostr.brid.gy";
    "web.brid.gy" ].

Definition LOCAL_DOMAINS : list string :=
  [ "localhost"; "localhost:8080"; "my.dev.com:8080" ].

Definition DOMAINS : list string :=
  [PRIMARY_DOMAIN] ++ OTHER_DOMAINS ++ LOCAL_DOMAINS.

(** [add(seq, val)]: append [val] unless [seq] already contains it. *)
Definition add {A} `{EqDecision A} (seq : list A) (val : A) : list A :=
  if bool_decide (val ∈ seq) then seq else seq ++ [val].

End Common.

(** ** models.py: the entities the pipelines read and write *)

Module Models.
Import Common.

(** [Target]: a protocol label and a URI; equality is field-wise. *)
Record Target : Type := {
  protocol : string;
  uri : string;
}.

#[global] Instance Target_eq_dec : EqDecision Target.
Proof. solve_decision. Defined.

Inductive Status : Type :=
| StNew | StInProgress | StComplete | StFailed | StIgnored.

(** The fields of an AS1 activity that the code under study reads with
    [.get(...)]; [content] stands for the rest of the payload. *)
Record AS1 : Type := {
  as1_id : option string;
  objectType : option string;
  verb : option string;
  actor : option string;
  url : option string;
  content : string;
}.

Record Object : Type := {
  key : option string;
  as1 : option AS1;
  source_protocol : option string;
  status : option Status;
  undelivered : list Target;
  delivered : list Target;
  failed : list Target;
  copies : list Target;
  deleted : bool;
  new : option bool;
  changed : option bool;
}.

Definition set_undelivered (l : list Target) (o : Object) : Object :=
  {| key := key o; as1 := as1 o; source_protocol := source_protocol o;
     status := status o; undelivered := l; delivered := delivered o;
     failed := failed o; copies := copies o; deleted := deleted o;
     new := new o; changed := changed o |}.

Definition set_delivered (l : list Target) (o : Object) : Object :=
  {| key := key o; as1 := as1 o; source_protocol := source_protocol o;
     status := status o; undelivered := undelivered o; delivered := l;
     failed := failed o; copies := copies o; deleted := deleted o;
     new := new o; changed := changed o |}.

Definition set_failed (l : list Target) (o : Object) : Object :=
  {| key := key o; as1 := as1 o; source_protocol := source_protocol o;
     status := status o; undelivered := undelivered o; delivered := delivered o;
     failed := l; copies := copies o; deleted := deleted o;
     new := new o; changed := changed o |}.

Definition set_status (s : option Status) (o : Object) : Object :=
  {| key := key o; as1 := as1 o; source_protocol := source_protocol o;
     status := s; undelivered := undelivered o; delivered := delivered o;
     failed := failed o; copies := copies o; deleted := deleted o;
     new := new o; changed := changed o |}.

(** Python's [list.remove(x)]: drops the first occurrence of [x];
    [ValueError] when there is none. *)
Fixpoint list_remove {A} `{EqDecision A} (x : A) (l : list A) : result (list A) :=
  match l with
  | [] => Raise ValueError
  | y :: l' =>
      if decide (x = y) then Ret l'
      else match list_remove x l' with
           | Ret r => Ret (y :: r)
           | Raise e => Raise e
           end
  end.

(** Modelled from the spec: [Object.add] and [Object.remove] are methods of
    [models.py], which is not at hand.  The send handler's step 3 has them add
    a target to, and remove a target from, the named list of the Object; [add]
    goes through [common.add] (append unless present) and [remove] through the
    list's own [remove]. *)
Definition Object_add_failed (t : Target) (o : Object) : Object :=
  set_failed (add (failed o) t) o.

Definition Object_add_delivered (t : Target) (o : Object) : Object :=
  set_delivered (add (delivered o) t) o.

Definition Object_remove_undelivered (t : Target) (o : Object) : result Object :=
  match list_remove t (undelivered o) with
  | Ret l => Ret (set_undelivered l o)
  | Raise e => Raise e
  end.

Definition Object_remove_failed (t : Target) (o : Object) : result Object :=
  match list_remove t (failed o) with
  | Ret l => Ret (set_failed l o)
  | Raise e => Raise e
  end.

(** Python's truthiness of a list. *)
Definition nonempty {A} (l : list A) : bool :=
  match l with [] => false | _ => true end.

(** A [User] entity: its key id, the label of its protocol class, the copy
    in ATProto if any, the protocols it has enabled, and its profile Object. *)
Record User : Type := {
  key_id : string;
  user_label : string;
  atproto_did : option string;
  enabled_protocols : list string;
  user_obj : option Object;
}.

(** A protocol class: its constants and the class methods that the code under
    study calls.  [get_by_id] and [get_for_copy] read the datastore;
    [is_blocklisted url allow_internal] and [target_for obj shared] are the
    methods of the same names. *)
Record Protocol : Type := {
  LABEL : string;
  ABBREV : string;
  HAS_COPIES : bool;
  owns_id : string → option bool;
  owns_handle : string → option bool;
  get_by_id : string → option User;
  get_for_copy : string → option User;
  is_blocklisted : string → bool → bool;
  target_for : Object → bool → option string;
}.

(** [p == q] on classes. *)
Definition same_protocol (p q : Protocol) : bool :=
  String.eqb (LABEL p) (LABEL q).

(** The protocol classes the tests use, with the constants their expected
    values show ([web.brid.gy], [ap.brid.gy], [bsky.brid.gy], [fa.brid.gy]).
    [owns] is the class's [owns_id]/[owns_handle]; the datastore is empty. *)
Definition mk_protocol (label abbrev : string) (copies : bool) : Protocol :=
  {| LABEL := label; ABBREV := abbrev; HAS_COPIES := copies;
     owns_id := fun _ => None; owns_handle := fun _ => None;
     get_by_id := fun _ => None; get_for_copy := fun _ => None;
     is_blocklisted := fun _ _ => false; target_for := fun _ _ => None |}.

Definition Web : Protocol := mk_protocol "web" "web" false.
Definition ActivityPub : Protocol := mk_protocol "activitypub" "ap" false.
Definition ATProto : Protocol := mk_protocol "atproto" "bsky" true.
Definition Fake : Protocol := mk_protocol "fake" "fa" false.

End Models.


(** ** Stand-ins for webutil *)

(** The functions of webutil are variables of the sections below.  To run
    the code on an input they are given these stand-ins: a web URL starts
    with [http://] or [https://]; the domain of a link is what follows the
    scheme up to the next slash, less a leading [www.] when minimized; a
    domain is looked up in a list as it is, its parents are not. *)
Module Webutil.

Definition is_web_prefix (s : string) : bool :=
  startswith "http://" s || startswith "https://" s.

Fixpoint until_slash (s : string) : string :=
  match s with
  | EmptyString => EmptyString
  | String c rest =>
      if Ascii.eqb c "/" then EmptyString else String c (until_slash rest)
  end.

Definition host_of (u : string) : string :=
  if startswith "https://" u then until_slash (removeprefix "https://" u)
  else if startswith "http://" u then until_slash (removeprefix "http://" u)
  else until_slash u.

Definition domain_of (u : string) (minimize : bool) : option string :=
  let h := host_of u in
  Some (if minimize && startswith "www." h then removeprefix "www." h else h).

Definition domain_in (d : string) (domains : list string) : bool :=
  bool_decide (d ∈ domains).

End Webutil.

(** ** ids.py *)

Module Ids.
Import Common Models.

(** Modelled from the spec: [common.subdomain_wrap], which [ids.py] imports
    but the [common.py] at hand does not define.  The spec gives the default
    wrapping rule as [https://<origin-abbrev>.<super-domain>/<dest-abbrev>/<id>];
    the caller passes the path [/<dest-abbrev>/<id>]. *)
Definition subdomain_wrap (proto : Protocol) (path : string) : string :=
  "https://" +:+ ABBREV proto +:+ SUPERDOMAIN +:+ path.

Definition translate_user_id (id : string) (from_proto to_proto : Protocol)
  : result (option string) :=
  if negb (truthy id) then Raise AssertionError
  else if is_Some_false (owns_id from_proto id) then Raise AssertionError
  else if same_protocol from_proto to_proto then Ret (Some id)
  else if String.eqb (LABEL to_proto) "atproto" then
    Ret (match get_by_id from_proto id with
         | Some user => atproto_did user
         | None => None
         end)
  else if String.eqb (LABEL from_proto) "atproto" then
    Ret (match get_for_copy from_proto id with
         | Some user => Some (key_id user)
         | None => None
         end)
  else if String.eqb (LABEL to_proto) "activitypub" then
    Ret (Some (subdomain_wrap from_proto ("/ap/" +:+ id)))
  else if String.eqb (LABEL from_proto) "activitypub"
          && String.eqb (LABEL to_proto) "web" then
    Ret (Some id)
  else if String.eqb (LABEL to_proto) "fake" then
    Ret (Some ("fake:" +:+ id))
  else if String.eqb (LABEL from_proto) "fake" then
    Ret (Some id)
  else Raise AssertionError.

Definition translate_handle (handle : string) (from_proto to_proto : Protocol)
  : result string :=
  if negb (truthy handle) then Raise AssertionError
  else if is_Some_false (owns_handle from_proto handle) then Raise AssertionError
  else if same_protocol from_proto to_proto then Ret handle
  else if String.eqb (LABEL to_proto) "activitypub" then
    Ret ("@" +:+ handle +:+ "@" +:+ ABBREV from_proto +:+ SUPERDOMAIN)
  else if String.eqb (LABEL to_proto) "atproto"
          || String.eqb (LABEL to_proto) "nostr" then
    let handle := replace "@" "." (lstrip "@" handle) in
    Ret (handle +:+ "." +:+ ABBREV from_proto +:+ SUPERDOMAIN)
  else if String.eqb (LABEL from_proto) "activitypub"
          && String.eqb (LABEL to_proto) "web" then
    match split_on "@" (lstrip "@" handle) with
    | [user; instance] => Ret "instance/@user"
    | _ => Raise ValueError
    end
  else if String.eqb (LABEL to_proto) "web" then Ret handle
  else if String.eqb (LABEL to_proto) "fake" then
    Ret ("fake:handle:" +:+ handle)
  else Raise AssertionError.

(** The default rule as the specification words it. *)
Definition default_wrap (id : string) (from_proto to_proto : Protocol) : string :=
  "https://" +:+ ABBREV from_proto +:+ SUPERDOMAIN +:+ "/"
    +:+ ABBREV to_proto +:+ "/" +:+ id.

(** *** Properties of [translate_user_id] and [translate_handle] *)

Lemma same_protocol_false (p q : Protocol) :
  LABEL p ≠ LABEL q → same_protocol p q = false.
Proof. intros H. unfold same_protocol. by apply String.eqb_neq. Qed.

(** After the two assertions and the same-protocol shortcut, a pair with no
    [atproto] side reaches the four non-copy cases of the [match]. *)
Lemma translate_user_id_non_copy_cases (id : string) (from_proto to_proto : Protocol) :
  id ≠ "" →
  owns_id from_proto id ≠ Some false →
  LABEL from_proto ≠ LABEL to_proto →
  LABEL from_proto ≠ "atproto" →
  LABEL to_proto ≠ "atproto" →
  translate_user_id id from_proto to_proto =
    if String.eqb (LABEL to_proto) "activitypub" then
      Ret (Some (subdomain_wrap from_proto ("/ap/" +:+ id)))
    else if String.eqb (LABEL from_proto) "activitypub"
            && String.eqb (LABEL to_proto) "web" then Ret (Some id)
    else if String.eqb (LABEL to_proto) "fake" then Ret (Some ("fake:" +:+ id))
    else if String.eqb (LABEL from_proto) "fake" then Ret (Some id)
    else Raise AssertionError.
Proof.
  intros Hid Howns Hne Hfrom Hto. unfold translate_user_id.
  apply truthy_true in Hid. rewrite Hid. simpl.
  rewrite (is_Some_false_no _ Howns), (same_protocol_false _ _ Hne).
  apply String.eqb_neq in Hfrom, Hto. by rewrite Hfrom, Hto.
Qed.

(** C6, as amended.  For an id the origin accepts and two distinct protocols,
    the origin not [atproto] (the one protocol that goes through copies) and
    the destination [activitypub]: the result is the wrapped URL
    [https://<origin-abbrev>.brid.gy/ap/<id>], and the call does not fail.
    That is the default rule of the specification whenever the
    destination's abbreviation is [ap]. *)
Theorem translate_user_id_without_copies (id : string) (from_proto to_proto : Protocol) :
  id ≠ "" →
  owns_id from_proto id ≠ Some false →
  LABEL from_proto ≠ LABEL to_proto →
  LABEL from_proto ≠ "atproto" →
  LABEL to_proto = "activitypub" →
  translate_user_id id from_proto to_proto
  = Ret (Some ("https://" +:+ ABBREV from_proto +:+ SUPERDOMAIN +:+ "/ap/" +:+ id))
  ∧ (ABBREV to_proto = "ap" →
     translate_user_id id from_proto to_proto
     = Ret (Some (default_wrap id from_proto to_proto))).
Proof.
  intros Hid Howns Hne Hfrom Hto.
  assert (LABEL to_proto ≠ "atproto") as Hto' by (rewrite Hto; discriminate).
  rewrite (translate_user_id_non_copy_cases id from_proto to_proto) by done.
  rewrite Hto. simpl. split; [done|].
  intros Habbrev. unfold default_wrap, subdomain_wrap. by rewrite Habbrev.
Qed.

Lemma translate_user_id_without_copies_witness :
  translate_user_id "fake:user" Fake ActivityPub
    = Ret (Some "https://fa.brid.gy/ap/fake:user")
  ∧ translate_user_id "fake:user" Fake ActivityPub
    = Ret (Some (default_wrap "fake:user" Fake ActivityPub)).
Proof.
  destruct (translate_user_id_without_copies "fake:user" Fake ActivityPub)
    as [Hwrapped Hdefault]; [by vm_compute..|].
  split; [exact Hwrapped|]. by apply Hdefault.
Defined.

(** C6, as stated, fails: from [activitypub] to [web], two distinct protocols
    without copies, an accepted id is returned as it is and not wrapped. *)
Lemma translate_user_id_ap_to_web_not_wrapped :
  owns_id ActivityPub "https://inst/user" ≠ Some false
  ∧ LABEL ActivityPub ≠ LABEL Web
  ∧ HAS_COPIES ActivityPub = false ∧ HAS_COPIES Web = false
  ∧ translate_user_id "https://inst/user" ActivityPub Web
    = Ret (Some "https://inst/user")
  ∧ translate_user_id "https://inst/user" ActivityPub Web
    ≠ Ret (Some (default_wrap "https://inst/user" ActivityPub Web)).
Proof. by vm_compute. Qed.

(** C7.  From [activitypub] to [web] the handle's two parts are split off and
    then not used: whatever the user and the instance are, the result is the
    fixed text [instance/@user], not [https://<instance>/@<user>]. *)
Theorem translate_handle_ap_to_web_ignores_parts :
  translate_handle "@alice@example.com" ActivityPub Web = Ret "instance/@user"
  ∧ translate_handle "@bob@social.example" ActivityPub Web = Ret "instance/@user"
  ∧ translate_handle "@alice@example.com" ActivityPub Web
    ≠ Ret "https://example.com/@alice".
Proof. by vm_compute. Qed.

(** *** Copies, and the shape of translated handles *)

(** [c in s], and [s.count(c)], for a character. *)
Fixpoint contains (c : ascii) (s : string) : bool :=
  match s with
  | EmptyString => false
  | String a s' => Ascii.eqb a c || contains c s'
  end.

Fixpoint count_char (c : ascii) (s : string) : nat :=
  match s with
  | EmptyString => 0
  | String a s' => (if Ascii.eqb a c then 1 else 0) + count_char c s'
  end.

Lemma contains_app (c : ascii) (a b : string) :
  contains c (a +:+ b) = contains c a || contains c b.
Proof.
  induction a as [|x a IH]; [reflexivity|].
  change (Ascii.eqb x c || contains c (a +:+ b)
          = (Ascii.eqb x c || contains c a) || contains c b).
  rewrite IH. by rewrite orb_assoc.
Qed.

Lemma contains_replace (c d : ascii) (s : string) :
  c ≠ d → contains c (replace c d s) = false.
Proof.
  intros Hne. induction s as [|a s IH]; simpl; [done|].
  rewrite IH, orb_false_r.
  destruct (Ascii.eqb_spec a c) as [->|Hac].
  - apply Ascii.eqb_neq. congruence.
  - by apply Ascii.eqb_neq.
Qed.

Lemma split_on_length (c : ascii) (s : string) :
  length (split_on c s) = S (count_char c s).
Proof.
  induction s as [|a s IH]; simpl; [done|].
  destruct (Ascii.eqb a c); simpl.
  - by rewrite IH.
  - destruct (split_on c s); simpl in *; congruence.
Qed.

(** A user with a copy in ATProto translates to the copy and back: the id of
    a user whose stored entity carries the DID [did] goes to [did], and [did]
    comes back to the id when the lookup by copy finds the same user. *)
Theorem translate_user_id_copy_round_trip (id did : string)
    (from_proto atproto : Protocol) (u : User) :
  id ≠ "" → did ≠ "" →
  owns_id from_proto id ≠ Some false →
  owns_id atproto did ≠ Some false →
  LABEL atproto = "atproto" →
  LABEL from_proto ≠ "atproto" →
  get_by_id from_proto id = Some u →
  atproto_did u = Some did →
  get_for_copy atproto did = Some u →
  key_id u = id →
  translate_user_id id from_proto atproto = Ret (Some did)
  ∧ translate_user_id did atproto from_proto = Ret (Some id).
Proof.
  intros Hid Hdid Howns Howns' Hat Hfrom Hget Hcopy Hback Hkey.
  apply truthy_true in Hid, Hdid.
  assert (same_protocol from_proto atproto = false) as Hne
    by (apply same_protocol_false; congruence).
  assert (same_protocol atproto from_proto = false) as Hne'
    by (apply same_protocol_false; congruence).
  apply String.eqb_neq in Hfrom.
  unfold translate_user_id.
  rewrite Hid, Hdid, (is_Some_false_no _ Howns), (is_Some_false_no _ Howns').
  rewrite Hne, Hne', Hat, Hfrom, Hget, Hback. simpl.
  by rewrite Hcopy, Hkey.
Qed.

Definition alice_did : string := "did:plc:123".

Definition alice : User :=
  {| key_id := "user.com"; user_label := "web";
     atproto_did := Some alice_did; enabled_protocols := ["atproto"];
     user_obj := None |}.

Definition Web_with_alice : Protocol :=
  {| LABEL := "web"; ABBREV := "web"; HAS_COPIES := false;
     owns_id := λ _, None; owns_handle := λ _, None;
     get_by_id := λ id, if String.eqb id "user.com" then Some alice else None;
     get_for_copy := λ _, None;
     is_blocklisted := λ _ _, false; target_for := λ _ _, None |}.

Definition ATProto_with_alice : Protocol :=
  {| LABEL := "atproto"; ABBREV := "bsky"; HAS_COPIES := true;
     owns_id := λ _, None; owns_handle := λ _, None;
     get_by_id := λ _, None;
     get_for_copy := λ id, if String.eqb id alice_did then Some alice else None;
     is_blocklisted := λ _ _, false; target_for := λ _ _, None |}.

Lemma translate_user_id_copy_round_trip_witness :
  translate_user_id "user.com" Web_with_alice ATProto_with_alice
    = Ret (Some "did:plc:123")
  ∧ translate_user_id "did:plc:123" ATProto_with_alice Web_with_alice
    = Ret (Some "user.com").
Proof.
  apply (translate_user_id_copy_round_trip "user.com" "did:plc:123"
           Web_with_alice ATProto_with_alice alice); by vm_compute.
Defined.

(** Towards ATProto nothing is wrapped: a user who is not stored, or is
    stored without a DID, translates to [None]. *)
Theorem translate_user_id_no_copy (id : string) (from_proto to_proto : Protocol) :
  id ≠ "" →
  owns_id from_proto id ≠ Some false →
  LABEL to_proto = "atproto" →
  LABEL from_proto ≠ "atproto" →
  (get_by_id from_proto id = None
   ∨ ∃ u, get_by_id from_proto id = Some u ∧ atproto_did u = None) →
  translate_user_id id from_proto to_proto = Ret None.
Proof.
  intros Hid Howns Hto Hfrom Hnone.
  apply truthy_true in Hid.
  assert (same_protocol from_proto to_proto = false) as Hne
    by (apply same_protocol_false; congruence).
  unfold translate_user_id.
  rewrite Hid, (is_Some_false_no _ Howns), Hne, Hto. simpl.
  destruct Hnone as [->|(u & -> & ->)]; done.
Qed.

Lemma translate_user_id_no_copy_witness :
  translate_user_id "other.com" Web_with_alice ATProto_with_alice = Ret None.
Proof.
  apply (translate_user_id_no_copy "other.com" Web_with_alice
           ATProto_with_alice); try by vm_compute.
  left. reflexivity.
Defined.

(** A handle translated for ATProto or Nostr is a domain under the origin's
    subdomain: the handle less its leading [@]s, with a dot for every [@]
    left, followed by [.<origin-abbrev>.brid.gy].  It holds no [@], whatever
    the handle was, as long as the origin's abbreviation holds none. *)
Theorem translate_handle_to_domain_has_no_at (handle : string)
    (from_proto to_proto : Protocol) :
  handle ≠ "" →
  owns_handle from_proto handle ≠ Some false →
  LABEL from_proto ≠ LABEL to_proto →
  LABEL to_proto = "atproto" ∨ LABEL to_proto = "nostr" →
  translate_handle handle from_proto to_proto
  = Ret (replace "@" "." (lstrip "@" handle)
         +:+ "." +:+ ABBREV from_proto +:+ SUPERDOMAIN)
  ∧ (contains "@" (ABBREV from_proto) = false →
     contains "@" (replace "@" "." (lstrip "@" handle)
                   +:+ "." +:+ ABBREV from_proto +:+ SUPERDOMAIN) = false).
Proof.
  intros Hhandle Howns Hne Hto.
  apply truthy_true in Hhandle. split.
  - unfold translate_handle.
    rewrite Hhandle, (is_Some_false_no _ Howns), (same_protocol_false _ _ Hne).
    simpl. destruct Hto as [-> | ->]; reflexivity.
  - intros Habbrev.
    rewrite !contains_app, Habbrev, contains_replace by discriminate.
    reflexivity.
Qed.

Lemma translate_handle_to_domain_has_no_at_witness :
  translate_handle "@user@instance" ActivityPub ATProto
  = Ret "user.instance.ap.brid.gy"
  ∧ contains "@" "user.instance.ap.brid.gy" = false.
Proof.
  destruct (translate_handle_to_domain_has_no_at "@user@instance" ActivityPub
              ATProto) as [Hresult Hno_at];
    [by vm_compute|by vm_compute|by vm_compute|by left|].
  split; [exact Hresult|]. by apply Hno_at.
Defined.

(** From ActivityPub to Web the handle, less its leading [@]s, has to have
    exactly one [@] left: then a value is returned; any other handle, such as
    [@user] or [@a@b@c], ends in a [ValueError] from the unpacking of the
    split. *)
Theorem translate_handle_ap_to_web_parts (handle : string)
    (from_proto to_proto : Protocol) :
  handle ≠ "" →
  owns_handle from_proto handle ≠ Some false →
  LABEL from_proto = "activitypub" →
  LABEL to_proto = "web" →
  (count_char "@" (lstrip "@" handle) = 1 →
   ∃ r, translate_handle handle from_proto to_proto = Ret r)
  ∧ (count_char "@" (lstrip "@" handle) ≠ 1 →
     translate_handle handle from_proto to_proto = Raise ValueError).
Proof.
  intros Hhandle Howns Hfrom Hto.
  apply truthy_true in Hhandle.
  assert (same_protocol from_proto to_proto = false) as Hne
    by (apply same_protocol_false; congruence).
  unfold translate_handle.
  rewrite Hhandle, (is_Some_false_no _ Howns), Hne, Hfrom, Hto. simpl.
  pose proof (split_on_length "@" (lstrip "@" handle)) as Hlen.
  destruct (split_on "@" (lstrip "@" handle)) as [|user [|instance [|? ?]]];
    simpl in Hlen; split; intros Hcount; try lia; try done; by eexists.
Qed.

Lemma translate_handle_ap_to_web_parts_witness :
  (∃ r, translate_handle "@user@instance" ActivityPub Web = Ret r)
  ∧ translate_handle "@user" ActivityPub Web = Raise ValueError
  ∧ translate_handle "@a@b@c" ActivityPub Web = Raise ValueError.
Proof.
  split_and!.
  - refine (proj1 (translate_handle_ap_to_web_parts "@user@instance"
                     ActivityPub Web _ _ _ _) _); by vm_compute.
  - refine (proj2 (translate_handle_ap_to_web_parts "@user"
                     ActivityPub Web _ _ _ _) _); by vm_compute.
  - refine (proj2 (translate_handle_ap_to_web_parts "@a@b@c"
                     ActivityPub Web _ _ _ _) _); by vm_compute.
Defined.

End Ids.

(** ** protocol.py: the [send] task *)

Module SendTask.
Import Common Models.

(** [update_object], the transactional closure of [send_task].  [sent] is
    [None] when the plugin's [send] raised, [Some true] when it returned a
    truthy value and [Some false] when it refused. *)
Definition update_object (target : Target) (sent : option bool) (obj : Object)
  : result Object :=
  match (if bool_decide (target ∈ undelivered obj)
         then Object_remove_undelivered target obj else Ret obj) with
  | Raise e => Raise e
  | Ret obj1 =>
      match (match sent with
             | None => Ret (Object_add_failed target obj1)
             | Some ok =>
                 match (if bool_decide (target ∈ failed obj1)
                        then Object_remove_failed target obj1 else Ret obj1) with
                 | Raise e => Raise e
                 | Ret obj2 =>
                     Ret (if ok then Object_add_delivered target obj2 else obj2)
                 end
             end) with
      | Raise e => Raise e
      | Ret obj3 =>
          Ret (if nonempty (undelivered obj3) then obj3
               else set_status
                      (Some (if nonempty (delivered obj3) then StComplete
                             else if nonempty (failed obj3) then StFailed
                             else StIgnored)) obj3)
      end
  end.

(** What [Protocol.deliver] writes before it enqueues the send tasks: the
    targets, which are the keys of a dict, as [undelivered]. *)
Definition populate_for_delivery (targets : list Target) (o : Object) : Object :=
  set_status (Some StInProgress)
    (set_undelivered targets (set_failed [] (set_delivered [] o))).

(** The delivery lists behave as sets, and nothing still to deliver is
    recorded as delivered or failed. *)
Definition delivery_wf (o : Object) : Prop :=
  NoDup (undelivered o) ∧ NoDup (failed o)
  ∧ (∀ t, t ∈ undelivered o → t ∉ delivered o)
  ∧ (∀ t, t ∈ undelivered o → t ∉ failed o).

(** The form of a [send] task and the outcome of a plugin's [send]. *)
Record SendForm : Type := {
  form_url : option string;
  form_protocol : option string;
  form_obj : option string;
  form_orig_obj : option string;
  form_user : option string;
  force : bool;
}.

Inductive SendOutcome : Type :=
| Returned (ok : bool)
| Raised.

Record SendCall : Type := {
  call_protocol : string;
  call_obj : Object;
  call_url : string;
  call_from_user : option string;
  call_orig_obj : option Object;
}.

(** The datastore's Objects by key, and the plugin sends made so far. *)
Record World : Type := {
  objects : gmap string Object;
  sends : list SendCall;
}.

Definition present (o : option string) : option string :=
  match o with
  | Some s => if truthy s then Some s else None
  | None => None
  end.

Section send_task.
(** [PROTOCOLS[protocol].send], an unknown label's [KeyError] included:
    both end up in the handler's [except BaseException].  The sending user
    is passed as its key. *)
Variable plugin_send :
  string → Object → string → option string → option Object → SendOutcome.

Definition send_task (form : SendForm) (w : World) : result nat * World :=
  match present (form_url form), present (form_protocol form) with
  | Some url, Some protocol =>
      let target := {| uri := url; protocol := protocol |} in
      match form_obj form with
      | None => (Raise KeyError, w)
      | Some obj_key =>
          match objects w !! obj_key with
          | None => (Raise AttributeError, w)
          | Some obj =>
              if negb (bool_decide (target ∈ undelivered obj))
                 && negb (bool_decide (target ∈ failed obj))
                 && negb (force form)
              then (Ret 204, w)
              else
                let user := present (form_user form) in
                let orig_obj :=
                  match present (form_orig_obj form) with
                  | Some k => objects w !! k
                  | None => None
                  end in
                let sent :=
                  match plugin_send protocol obj url user orig_obj with
                  | Returned ok => Some ok
                  | Raised => None
                  end in
                let w1 :=
                  {| objects := objects w;
                     sends := sends w ++
                       [{| call_protocol := protocol; call_obj := obj;
                           call_url := url; call_from_user := user;
                           call_orig_obj := orig_obj |}] |} in
                match objects w1 !! obj_key with
                | None => (Raise AttributeError, w1)
                | Some stored =>
                    match update_object target sent stored with
                    | Raise e => (Raise e, w1)
                    | Ret updated =>
                        (Ret (match sent with
                              | Some true => 200
                              | Some false => 204
                              | None => 304
                              end),
                         {| objects := <[obj_key := updated]> (objects w1);
                            sends := sends w1 |})
                    end
                end
          end
      end
  | _, _ => (Ret 204, w)
  end.
End send_task.

(** *** Lists used as sets *)

Section list_lemmas.
Context {A : Type} `{EqDecision A}.
Implicit Types (x y : A) (l : list A).

Lemma list_remove_present x l : x ∈ l → ∃ l', list_remove x l = Ret l'.
Proof.
  induction l as [|y l IH]; intros Hin.
  - by apply not_elem_of_nil in Hin.
  - simpl. destruct (decide (x = y)) as [->|Hne]; [by eexists|].
    apply elem_of_cons in Hin as [->|Hin]; [done|].
    destruct (IH Hin) as [l' ->]. by eexists.
Qed.

Lemma list_remove_subset x l l' y :
  list_remove x l = Ret l' → y ∈ l' → y ∈ l.
Proof.
  revert l'. induction l as [|z l IH]; intros l' Hrem Hy; simpl in Hrem.
  - discriminate.
  - destruct (decide (x = z)) as [->|Hne].
    + injection Hrem as <-. by apply elem_of_cons; right.
    + destruct (list_remove x l) as [r|e] eqn:Hr; [|discriminate].
      injection Hrem as <-.
      apply elem_of_cons in Hy as [->|Hy]; [by apply elem_of_cons; left|].
      apply elem_of_cons; right. by apply (IH r).
Qed.

Lemma list_remove_NoDup x l l' :
  list_remove x l = Ret l' → NoDup l → NoDup l' ∧ x ∉ l'.
Proof.
  revert l'. induction l as [|z l IH]; intros l' Hrem Hnd; simpl in Hrem.
  - discriminate.
  - apply NoDup_cons in Hnd as [Hz Hnd].
    destruct (decide (x = z)) as [->|Hne].
    + injection Hrem as <-. done.
    + destruct (list_remove x l) as [r|e] eqn:Hr; [|discriminate].
      injection Hrem as <-. destruct (IH r eq_refl Hnd) as [Hndr Hxr].
      split.
      * apply NoDup_cons. split; [|done].
        intros Hzr. apply Hz. by apply (list_remove_subset x l r).
      * intros Hx. apply elem_of_cons in Hx as [->|Hx]; done.
Qed.

Lemma filter_ne_absent x l : x ∉ l → filter (λ y, y ≠ x) l = l.
Proof.
  induction l as [|z l IH]; intros Hx; [done|].
  apply not_elem_of_cons in Hx as [Hxz Hx].
  rewrite filter_cons_True by congruence. by rewrite IH.
Qed.

Lemma list_remove_filter x l :
  NoDup l → x ∈ l → list_remove x l = Ret (filter (λ y, y ≠ x) l).
Proof.
  induction l as [|z l IH]; intros Hnd Hx.
  - by apply not_elem_of_nil in Hx.
  - apply NoDup_cons in Hnd as [Hz Hnd]. simpl.
    destruct (decide (x = z)) as [->|Hne].
    + rewrite filter_cons_False by (intros H; by apply H).
      by rewrite filter_ne_absent.
    + apply elem_of_cons in Hx as [?|Hx]; [done|].
      rewrite (IH Hnd Hx). rewrite filter_cons_True by congruence. done.
Qed.

Lemma elem_of_add l x y : y ∈ add l x ↔ y ∈ l ∨ y = x.
Proof.
  unfold add. case_bool_decide as Hin.
  - split; [by left|]. intros [?| ->]; done.
  - rewrite elem_of_app, list_elem_of_singleton. done.
Qed.

Lemma NoDup_add l x : NoDup l → NoDup (add l x).
Proof.
  intros Hnd. unfold add. case_bool_decide as Hin; [done|].
  apply NoDup_app. split_and!; [done| |apply NoDup_singleton].
  intros y Hy Hy'. apply list_elem_of_singleton in Hy' as ->. done.
Qed.
End list_lemmas.

(** *** The transactional update *)

Lemma nonempty_false {A} (l : list A) : nonempty l = false ↔ l = [].
Proof. destruct l; simpl; split; congruence. Qed.

(** Step one of [update_object]: one occurrence of the target leaves
    [undelivered]; the guard keeps [remove] from raising. *)
Lemma clear_undelivered (target : Target) (obj : Object) :
  ∃ l, ((if bool_decide (target ∈ undelivered obj)
         then Object_remove_undelivered target obj else Ret obj)
        = Ret (set_undelivered l obj))
       ∧ (∀ t, t ∈ l → t ∈ undelivered obj)
       ∧ (NoDup (undelivered obj) → NoDup l ∧ target ∉ l).
Proof.
  case_bool_decide as Hin.
  - destruct (list_remove_present _ _ Hin) as [l Hl].
    exists l. unfold Object_remove_undelivered. rewrite Hl.
    split_and!; [done| |].
    + intros t. by apply (list_remove_subset target _ l).
    + intros Hnd. by apply (list_remove_NoDup target (undelivered obj)).
  - exists (undelivered obj). by destruct obj.
Qed.

(** The [else] branch's first step: the same for [failed]. *)
Lemma clear_failed (target : Target) (obj : Object) :
  ∃ l, ((if bool_decide (target ∈ failed obj)
         then Object_remove_failed target obj else Ret obj)
        = Ret (set_failed l obj))
       ∧ (∀ t, t ∈ l → t ∈ failed obj)
       ∧ (NoDup (failed obj) → NoDup l ∧ target ∉ l).
Proof.
  case_bool_decide as Hin.
  - destruct (list_remove_present _ _ Hin) as [l Hl].
    exists l. unfold Object_remove_failed. rewrite Hl.
    split_and!; [done| |].
    + intros t. by apply (list_remove_subset target _ l).
    + intros Hnd. by apply (list_remove_NoDup target (failed obj)).
  - exists (failed obj). by destruct obj.
Qed.

Definition status_rule (o : Object) : Status :=
  if nonempty (delivered o) then StComplete
  else if nonempty (failed o) then StFailed
  else StIgnored.

(** The last step of [update_object] touches [status] only. *)
Definition finish (o : Object) : Object :=
  if nonempty (undelivered o) then o
  else set_status (Some (status_rule o)) o.

Lemma finish_lists (o : Object) :
  undelivered (finish o) = undelivered o
  ∧ delivered (finish o) = delivered o
  ∧ failed (finish o) = failed o.
Proof. unfold finish. by destruct (nonempty (undelivered o)). Qed.

Lemma finish_status (o : Object) :
  undelivered (finish o) = [] → status (finish o) = Some (status_rule (finish o)).
Proof.
  unfold finish. destruct (nonempty (undelivered o)) eqn:Hne.
  - intros Hnil. rewrite Hnil in Hne. discriminate.
  - done.
Qed.

Definition update_object_ok (target : Target) (sent : option bool) (o : Object)
  : option Object :=
  match update_object target sent o with
  | Ret o' => Some o'
  | Raise _ => None
  end.

(** C1, as amended.  On an Object whose delivery lists are well formed (no
    target twice in [undelivered] or in [failed], nothing undelivered also
    delivered or failed), the transactional update of the send task, for any
    target and any outcome of the send, does not raise, and afterwards:
    - the target is out of [undelivered], and every other target is in it
      as before;
    - if the send raised, the target is added to [failed]; otherwise it is
      out of [failed]; every other target is in [failed] as before;
    - if the send returned sent, the target is added to [delivered];
      otherwise [delivered] is as before;
    - if [undelivered] is now empty, [status] is complete when [delivered] is
      non-empty, else failed when [failed] is non-empty, else ignored;
      otherwise [status] is as before;
    - nothing else of the Object changes, and the lists are well formed
      again: nothing undelivered is delivered or failed. *)
Theorem update_object_spec (target : Target) (sent : option bool) (o : Object) :
  delivery_wf o →
  ∃ o', update_object target sent o = Ret o'
    ∧ undelivered o' = filter (λ t, t ≠ target) (undelivered o)
    ∧ failed o' = match sent with
                  | None => add (failed o) target
                  | Some _ => filter (λ t, t ≠ target) (failed o)
                  end
    ∧ delivered o' = match sent with
                     | Some true => add (delivered o) target
                     | _ => delivered o
                     end
    ∧ status o' = (if nonempty (undelivered o') then status o
                   else Some (if nonempty (delivered o') then StComplete
                              else if nonempty (failed o') then StFailed
                              else StIgnored))
    ∧ (key o' = key o ∧ as1 o' = as1 o
       ∧ source_protocol o' = source_protocol o ∧ copies o' = copies o
       ∧ deleted o' = deleted o ∧ new o' = new o ∧ changed o' = changed o)
    ∧ (target ∉ undelivered o')
    ∧ (sent = None → target ∈ failed o')
    ∧ (sent = Some true → target ∈ delivered o' ∧ target ∉ failed o')
    ∧ delivery_wf o'.
Proof.
  intros (Hnd & Hndf & Hdel & Hfail).
  set (u := filter (λ t, t ≠ target) (undelivered o)).
  set (f := filter (λ t, t ≠ target) (failed o)).
  assert ((if bool_decide (target ∈ undelivered o)
           then Object_remove_undelivered target o else Ret o)
          = Ret (set_undelivered u o)) as Hstep1.
  { case_bool_decide as Hin.
    - unfold Object_remove_undelivered. by rewrite list_remove_filter.
    - unfold u. rewrite filter_ne_absent by done. by destruct o. }
  assert ((if bool_decide (target ∈ failed (set_undelivered u o))
           then Object_remove_failed target (set_undelivered u o)
           else Ret (set_undelivered u o))
          = Ret (set_failed f (set_undelivered u o))) as Hstep2.
  { unfold Object_remove_failed.
    change (failed (set_undelivered u o)) with (failed o).
    destruct (bool_decide (target ∈ failed o)) eqn:Hin.
    - apply bool_decide_eq_true in Hin. by rewrite list_remove_filter.
    - apply bool_decide_eq_false in Hin. unfold f. by rewrite filter_ne_absent. }
  assert (target ∉ u) as Htu.
  { unfold u. intros [Hne _]%list_elem_of_filter. done. }
  assert (target ∉ f) as Htf.
  { unfold f. intros [Hne _]%list_elem_of_filter. done. }
  assert (NoDup u) as Hndu by (by apply NoDup_filter).
  assert (∀ t, t ∈ u → t ∈ undelivered o ∧ t ≠ target) as Hu.
  { intros t [Hne Hin]%list_elem_of_filter. done. }
  assert (∀ t, t ∈ f → t ∈ failed o) as Hf.
  { intros t [Hne Hin]%list_elem_of_filter. done. }
  assert (∀ o3, status (finish o3)
                = (if nonempty (undelivered (finish o3)) then status o3
                   else Some (if nonempty (delivered (finish o3)) then StComplete
                              else if nonempty (failed (finish o3)) then StFailed
                              else StIgnored))
                ∧ key (finish o3) = key o3 ∧ as1 (finish o3) = as1 o3
                ∧ source_protocol (finish o3) = source_protocol o3
                ∧ copies (finish o3) = copies o3
                ∧ deleted (finish o3) = deleted o3
                ∧ new (finish o3) = new o3 ∧ changed (finish o3) = changed o3)
    as Hfinish.
  { intros o3. unfold finish. by destruct (nonempty (undelivered o3)) eqn:Hne;
      simpl; rewrite ?Hne. }
  unfold update_object. rewrite Hstep1.
  destruct sent as [ok|].
  - rewrite Hstep2.
    set (o3 := if ok
               then Object_add_delivered target (set_failed f (set_undelivered u o))
               else set_failed f (set_undelivered u o)).
    exists (finish o3). split; [done|].
    destruct (finish_lists o3) as (Hu3 & Hd3 & Hf3).
    destruct (Hfinish o3) as (Hst & Hk & Ha & Hsp & Hc & Hdl & Hn & Hch).
    assert (undelivered o3 = u) as Hou by (unfold o3; by destruct ok).
    assert (failed o3 = f) as Hof by (unfold o3; by destruct ok).
    assert (delivered o3 = if ok then add (delivered o) target else delivered o)
      as Hod by (unfold o3; by destruct ok).
    assert (status o3 = status o) as Hos by (unfold o3; by destruct ok).
    rewrite Hst, Hk, Ha, Hsp, Hc, Hdl, Hn, Hch, Hu3, Hd3, Hf3, Hou, Hof, Hod, Hos.
    split_and!; try done; try (unfold o3; by destruct ok).
    + intros [= ->]. split; [apply elem_of_add; by right|done].
    + unfold delivery_wf. rewrite Hu3, Hd3, Hf3, Hou, Hof, Hod.
      split_and!; [done|by apply NoDup_filter| |].
      * intros t Ht Htd. destruct (Hu t Ht) as [Hold Hneq].
        destruct ok; [|by apply (Hdel t)].
        apply elem_of_add in Htd as [Htd|?]; [by apply (Hdel t)|done].
      * intros t Ht Htf'. destruct (Hu t Ht) as [Hold Hneq].
        apply (Hfail t); [done|by apply Hf].
  - set (o3 := Object_add_failed target (set_undelivered u o)).
    exists (finish o3). split; [done|].
    destruct (finish_lists o3) as (Hu3 & Hd3 & Hf3).
    destruct (Hfinish o3) as (Hst & Hk & Ha & Hsp & Hc & Hdl & Hn & Hch).
    rewrite Hst, Hk, Ha, Hsp, Hc, Hdl, Hn, Hch, Hu3, Hd3, Hf3.
    split_and!; try done.
    + intros _. apply elem_of_add. by right.
    + unfold delivery_wf. rewrite Hu3, Hd3, Hf3. unfold o3. simpl.
      split_and!; [done|by apply NoDup_add| |].
      * intros t Ht. destruct (Hu t Ht) as [Hold Hneq]. by apply Hdel.
      * intros t Ht Htf'. destruct (Hu t Ht) as [Hold Hneq].
        apply elem_of_add in Htf' as [Htf'|?]; [by apply (Hfail t)|done].
Qed.

Lemma update_object_total (target : Target) (sent : option bool) (o : Object) :
  ∃ o', update_object target sent o = Ret o'.
Proof.
  destruct (clear_undelivered target o) as (u & Hstep1 & _).
  unfold update_object. rewrite Hstep1.
  destruct sent as [ok|]; [|by eexists].
  destruct (clear_failed target (set_undelivered u o)) as (f & Hstep2 & _).
  rewrite Hstep2. by eexists.
Qed.

(** What [deliver] writes is well formed when the targets are distinct, as the
    keys of a dict are. *)
Lemma populate_for_delivery_wf (targets : list Target) (o : Object) :
  NoDup targets → delivery_wf (populate_for_delivery targets o).
Proof.
  intros Hnd. unfold delivery_wf. simpl. split_and!; try done.
  - apply NoDup_nil_2.
  - intros t _. apply not_elem_of_nil.
  - intros t _. apply not_elem_of_nil.
Qed.

(** An Object on its way to two targets, as [deliver] leaves it. *)
Definition blank_object : Object :=
  {| key := Some "https://user.com/post"; as1 := None;
     source_protocol := Some "web"; status := None;
     undelivered := []; delivered := []; failed := []; copies := [];
     deleted := false; new := None; changed := None |}.

Definition inbox_a : Target :=
  {| protocol := "activitypub"; uri := "https://inst/inbox" |}.
Definition inbox_b : Target :=
  {| protocol := "activitypub"; uri := "https://other/inbox" |}.

Definition in_flight : Object :=
  populate_for_delivery [inbox_a; inbox_b] blank_object.

Lemma in_flight_wf : delivery_wf in_flight.
Proof.
  apply populate_for_delivery_wf.
  apply NoDup_cons. split; [|apply NoDup_singleton].
  intros Hin. apply list_elem_of_singleton in Hin. discriminate.
Qed.

Lemma update_object_spec_witness :
  ∃ o', update_object inbox_a (Some true) in_flight = Ret o'
    ∧ undelivered o' = [inbox_b]
    ∧ failed o' = []
    ∧ delivered o' = [inbox_a]
    ∧ status o' = Some StInProgress
    ∧ delivery_wf o'.
Proof.
  destruct (update_object_spec inbox_a (Some true) in_flight in_flight_wf)
    as (o' & Hrun & Hund & Hfailed & Hdelivered & Hstatus & _ & _ & _ & _ & Hwf).
  exists o'. split_and!; [exact Hrun| | | | |exact Hwf].
  - rewrite Hund. by vm_compute.
  - rewrite Hfailed. by vm_compute.
  - rewrite Hdelivered. by vm_compute.
  - rewrite Hstatus, Hund. by vm_compute.
Defined.

(** C1, as stated, fails on an Object whose lists are not well formed.  With
    [inbox_b] both undelivered and delivered beforehand, it is still both
    after the update for [inbox_a]; a target that is twice in [undelivered]
    is still in it after its send was delivered; and a target that is twice
    in [failed] is still in it after its send was delivered. *)
Lemma update_object_ill_formed :
  (undelivered <$> update_object_ok inbox_a (Some true)
                     (set_delivered [inbox_b] in_flight)) = Some [inbox_b]
  ∧ (delivered <$> update_object_ok inbox_a (Some true)
                     (set_delivered [inbox_b] in_flight))
    = Some [inbox_b; inbox_a]
  ∧ (undelivered <$> update_object_ok inbox_a (Some true)
                       (populate_for_delivery [inbox_a; inbox_a] blank_object))
    = Some [inbox_a]
  ∧ (delivered <$> update_object_ok inbox_a (Some true)
                     (populate_for_delivery [inbox_a; inbox_a] blank_object))
    = Some [inbox_a]
  ∧ (failed <$> update_object_ok inbox_a (Some true)
                  (set_failed [inbox_a; inbox_a]
                     (populate_for_delivery [inbox_b] blank_object)))
    = Some [inbox_a]
  ∧ (delivered <$> update_object_ok inbox_a (Some true)
                     (set_failed [inbox_a; inbox_a]
                        (populate_for_delivery [inbox_b] blank_object)))
    = Some [inbox_a].
Proof. by vm_compute. Qed.

(** The three outcomes on the last outstanding target. *)
Example update_object_last_target :
  let o := populate_for_delivery [inbox_a] blank_object in
  (status <$> update_object_ok inbox_a (Some true) o) = Some (Some StComplete)
  ∧ (status <$> update_object_ok inbox_a None o) = Some (Some StFailed)
  ∧ (status <$> update_object_ok inbox_a (Some false) o) = Some (Some StIgnored).
Proof. by vm_compute. Qed.

(** *** The handler *)

(** C2.  A send task whose target is in neither [undelivered] nor [failed] of
    its Object, and whose request has no force flag, answers 204 and leaves
    the world as it was: the Object's delivery state is unchanged and no
    plugin send is made. *)
Theorem send_task_already_delivered
    (plugin_send : string → Object → string → option string → option Object
                   → SendOutcome)
    (form : SendForm) (w : World) (target_url target_protocol obj_key : string)
    (obj : Object) :
  form_url form = Some target_url →
  form_protocol form = Some target_protocol →
  form_obj form = Some obj_key →
  objects w !! obj_key = Some obj →
  {| protocol := target_protocol; uri := target_url |} ∉ undelivered obj →
  {| protocol := target_protocol; uri := target_url |} ∉ failed obj →
  force form = false →
  send_task plugin_send form w = (Ret 204, w)
  ∧ objects (send_task plugin_send form w).2 !! obj_key = Some obj
  ∧ sends (send_task plugin_send form w).2 = sends w.
Proof.
  intros Hurl Hproto Hobj Hget Hund Hfail Hforce.
  assert (send_task plugin_send form w = (Ret 204, w)) as Hrun.
  { unfold send_task. rewrite Hurl, Hproto. simpl.
    destruct (truthy target_url); [|done].
    destruct (truthy target_protocol); [|done].
    rewrite Hobj, Hget, Hforce.
    rewrite (bool_decide_eq_false_2 _ Hund), (bool_decide_eq_false_2 _ Hfail).
    done. }
  rewrite Hrun. done.
Qed.

(** Otherwise the plugin is called, once, with the Object, the URL, the user
    and the original Object that the form names; the answer is 200, 204 or
    304 as the send returned sent, returned [False] or raised; and the Object
    is stored as [update_object] leaves it for that outcome. *)
Lemma send_task_outstanding
    (plugin_send : string → Object → string → option string → option Object
                   → SendOutcome)
    (form : SendForm) (w : World) (target_url target_protocol obj_key : string)
    (obj : Object) :
  present (form_url form) = Some target_url →
  present (form_protocol form) = Some target_protocol →
  form_obj form = Some obj_key →
  objects w !! obj_key = Some obj →
  {| protocol := target_protocol; uri := target_url |} ∈ undelivered obj →
  let user := present (form_user form) in
  let orig_obj := match present (form_orig_obj form) with
                  | Some k => objects w !! k
                  | None => None
                  end in
  let sent := match plugin_send target_protocol obj target_url user orig_obj with
              | Returned ok => Some ok
              | Raised => None
              end in
  ∃ updated,
    update_object {| protocol := target_protocol; uri := target_url |} sent obj
      = Ret updated
    ∧ send_task plugin_send form w
      = (Ret (match sent with
              | Some true => 200
              | Some false => 204
              | None => 304
              end),
         {| objects := <[obj_key := updated]> (objects w);
            sends := sends w ++
              [{| call_protocol := target_protocol; call_obj := obj;
                  call_url := target_url; call_from_user := user;
                  call_orig_obj := orig_obj |}] |}).
Proof.
  intros Hurl Hproto Hobj Hget Hund user orig_obj sent.
  destruct (update_object_total
              {| protocol := target_protocol; uri := target_url |} sent obj)
    as [updated Hupd].
  exists updated. split; [exact Hupd|].
  unfold send_task. rewrite Hurl, Hproto, Hobj, Hget.
  rewrite (bool_decide_eq_true_2 _ Hund). simpl. rewrite Hget.
  fold user orig_obj sent. by rewrite Hupd.
Qed.

Definition example_world : World :=
  {| objects := {[ "key-1" :=
       set_delivered [inbox_a]
         (set_status (Some StComplete) blank_object) ]};
     sends := [] |}.

Definition example_form : SendForm :=
  {| form_url := Some "https://inst/inbox";
     form_protocol := Some "activitypub";
     form_obj := Some "key-1"; form_orig_obj := None; form_user := None;
     force := false |}.

Definition outstanding_world : World :=
  {| objects := {[ "key-1" := in_flight ]}; sends := [] |}.

Lemma send_task_outstanding_witness :
  ∃ updated,
    update_object {| protocol := "activitypub"; uri := "https://inst/inbox" |}
      (Some true) in_flight = Ret updated
    ∧ send_task (fun _ _ _ _ _ => Returned true) example_form outstanding_world
      = (Ret 200,
         {| objects := <["key-1" := updated]> (objects outstanding_world);
            sends := sends outstanding_world ++
              [{| call_protocol := "activitypub"; call_obj := in_flight;
                  call_url := "https://inst/inbox"; call_from_user := None;
                  call_orig_obj := None |}] |}).
Proof.
  apply (send_task_outstanding (fun _ _ _ _ _ => Returned true) example_form
           outstanding_world "https://inst/inbox" "activitypub" "key-1"
           in_flight); try reflexivity.
  apply list_elem_of_here.
Defined.

Lemma send_task_already_delivered_witness :
  send_task (fun _ _ _ _ _ => Returned true) example_form example_world
    = (Ret 204, example_world)
  ∧ objects (send_task (fun _ _ _ _ _ => Returned true)
               example_form example_world).2 !! "key-1"
    = Some (set_delivered [inbox_a] (set_status (Some StComplete) blank_object))
  ∧ sends (send_task (fun _ _ _ _ _ => Returned true)
             example_form example_world).2 = sends example_world.
Proof.
  apply (send_task_already_delivered (fun _ _ _ _ _ => Returned true)
           example_form example_world "https://inst/inbox" "activitypub"
           "key-1"
           (set_delivered [inbox_a] (set_status (Some StComplete) blank_object)));
    try reflexivity.
  - simpl. apply not_elem_of_nil.
  - simpl. apply not_elem_of_nil.
Defined.

(** *** What one update changes, and what a series of them leaves *)

Lemma list_remove_other {A} `{EqDecision A} (x y : A) (l l' : list A) :
  list_remove x l = Ret l' → y ≠ x → y ∈ l → y ∈ l'.
Proof.
  revert l'. induction l as [|z l IH]; intros l' Hrem Hne Hy; simpl in Hrem.
  - discriminate.
  - destruct (decide (x = z)) as [->|Hxz].
    + injection Hrem as <-. apply elem_of_cons in Hy as [->|Hy]; done.
    + destruct (list_remove x l) as [r|e] eqn:Hr; [|discriminate].
      injection Hrem as <-.
      apply elem_of_cons in Hy as [->|Hy]; [by apply elem_of_cons; left|].
      apply elem_of_cons; right. by apply (IH r).
Qed.

(** The three lists after [update_object], list by list. *)
Lemma update_object_lists (target : Target) (sent : option bool) (o : Object) :
  ∃ o' u f,
    update_object target sent o = Ret o'
    ∧ undelivered o' = u
    ∧ failed o' = match sent with None => add f target | Some _ => f end
    ∧ delivered o' = match sent with
                     | Some true => add (delivered o) target
                     | _ => delivered o
                     end
    ∧ status o' = (if nonempty u
                   then status o
                   else Some (if nonempty (delivered o') then StComplete
                              else if nonempty (failed o') then StFailed
                              else StIgnored))
    ∧ (∀ t, t ∈ u → t ∈ undelivered o)
    ∧ (∀ t, t ≠ target → t ∈ undelivered o → t ∈ u)
    ∧ (NoDup (undelivered o) → NoDup u ∧ target ∉ u)
    ∧ (∀ t, t ∈ f → t ∈ failed o)
    ∧ (∀ t, t ≠ target → t ∈ failed o → t ∈ f)
    ∧ (NoDup (failed o) → NoDup f ∧ (sent ≠ None → target ∉ f)).
Proof.
  assert (∃ u, ((if bool_decide (target ∈ undelivered o)
                 then Object_remove_undelivered target o else Ret o)
                = Ret (set_undelivered u o))
               ∧ (∀ t, t ∈ u → t ∈ undelivered o)
               ∧ (∀ t, t ≠ target → t ∈ undelivered o → t ∈ u)
               ∧ (NoDup (undelivered o) → NoDup u ∧ target ∉ u))
    as (u & Hstep1 & Hu1 & Hu2 & Hu3).
  { case_bool_decide as Hin.
    - destruct (list_remove_present _ _ Hin) as [l Hl].
      exists l. unfold Object_remove_undelivered. rewrite Hl.
      split_and!; [done| | |].
      + intros t. by apply (list_remove_subset target _ l).
      + intros t Hne Ht. by apply (list_remove_other target t (undelivered o) l).
      + intros Hnd. by apply (list_remove_NoDup target (undelivered o)).
    - exists (undelivered o). split_and!; try done. by destruct o. }
  unfold update_object. rewrite Hstep1.
  destruct sent as [ok|].
  - assert (∃ f, ((if bool_decide (target ∈ failed (set_undelivered u o))
                   then Object_remove_failed target (set_undelivered u o)
                   else Ret (set_undelivered u o))
                  = Ret (set_failed f (set_undelivered u o)))
                 ∧ (∀ t, t ∈ f → t ∈ failed o)
                 ∧ (∀ t, t ≠ target → t ∈ failed o → t ∈ f)
                 ∧ (NoDup (failed o) → NoDup f ∧ target ∉ f))
      as (f & Hstep2 & Hf1 & Hf2 & Hf3).
    { clear Hstep1. simpl. case_bool_decide as Hin.
      - destruct (list_remove_present _ _ Hin) as [l Hl].
        exists l. unfold Object_remove_failed. simpl. rewrite Hl.
        split_and!; [done| | |].
        + intros t. by apply (list_remove_subset target _ l).
        + intros t Hne Ht. by apply (list_remove_other target t (failed o) l).
        + intros Hnd. by apply (list_remove_NoDup target (failed o)).
      - exists (failed o). split_and!; try done. }
    rewrite Hstep2. eexists _, u, f. split; [reflexivity|].
    destruct ok; simpl.
    + destruct (nonempty u) eqn:Hne; simpl;
        split_and!; try done; intros Hnd; destruct (Hf3 Hnd); done.
    + destruct (nonempty u) eqn:Hne; simpl;
        split_and!; try done; intros Hnd; destruct (Hf3 Hnd); done.
  - eexists _, u, (failed o). split; [reflexivity|]. simpl.
    destruct (nonempty u) eqn:Hne; simpl; split_and!; try done.
Qed.

(** [update_object] touches the target only: every other target is in a list
    afterwards exactly when it was before, and while something is still
    undelivered the status is not changed. *)
Theorem update_object_frame (target : Target) (sent : option bool) (o : Object) :
  ∃ o', update_object target sent o = Ret o'
    ∧ (∀ t, t ≠ target →
         (t ∈ undelivered o' ↔ t ∈ undelivered o)
         ∧ (t ∈ delivered o' ↔ t ∈ delivered o)
         ∧ (t ∈ failed o' ↔ t ∈ failed o))
    ∧ (undelivered o' ≠ [] → status o' = status o).
Proof.
  destruct (update_object_lists target sent o)
    as (o' & u & f & Hrun & Hu & Hf & Hd & Hst & Hu1 & Hu2 & _ & Hf1 & Hf2 & _).
  exists o'. split; [done|]. split.
  - intros t Hne. rewrite Hu, Hf, Hd. split_and!.
    + split; [apply Hu1|by apply Hu2].
    + destruct sent as [[]|]; [|done|done].
      rewrite elem_of_add. split; [intros [?|?]; done|by left].
    + destruct sent as [ok|].
      * split; [apply Hf1|by apply Hf2].
      * rewrite elem_of_add. split.
        -- intros [Ht|Ht]; [by apply Hf1|done].
        -- intros Ht. left. by apply Hf2.
  - intros Hne. rewrite Hst. rewrite Hu in Hne. by destruct u.
Qed.

(** The updates of a series of send tasks, one after the other. *)
Fixpoint run_updates (steps : list (Target * option bool)) (o : Object)
  : result Object :=
  match steps with
  | [] => Ret o
  | (target, sent) :: rest =>
      match update_object target sent o with
      | Ret o' => run_updates rest o'
      | Raise e => Raise e
      end
  end.

Lemma update_object_wf (target : Target) (sent : option bool) (o : Object) :
  delivery_wf o →
  ∃ o', update_object target sent o = Ret o'
    ∧ delivery_wf o'
    ∧ (∀ t, t ∈ undelivered o' → t ∈ undelivered o ∧ t ≠ target)
    ∧ (undelivered o' = [] →
       status o' = Some (if nonempty (delivered o') then StComplete
                         else if nonempty (failed o') then StFailed
                         else StIgnored))
    ∧ (target ∈ delivered o' ↔ sent = Some true ∨ target ∈ delivered o)
    ∧ (target ∈ failed o' ↔ sent = None).
Proof.
  intros (Hnd & Hndf & Hdel & Hfail).
  destruct (update_object_lists target sent o)
    as (o' & u & f & Hrun & Hu & Hf & Hd & Hst & Hu1 & Hu2 & Hu3 & Hf1 & Hf2
        & Hf3).
  destruct (Hu3 Hnd) as [Hndu Htu]. destruct (Hf3 Hndf) as [Hndf' Htf].
  exists o'. split; [done|]. split_and!.
  - unfold delivery_wf. rewrite Hu, Hf, Hd. split_and!; [done| | |].
    + destruct sent; [done|by apply NoDup_add].
    + intros t Ht Htd. destruct sent as [[]|]; try by apply (Hdel t); [apply Hu1|].
      apply elem_of_add in Htd as [Htd| ->]; [|done].
      by apply (Hdel t); [apply Hu1|].
    + intros t Ht Htf'. destruct sent as [ok|].
      * by apply (Hfail t); [apply Hu1|apply Hf1].
      * apply elem_of_add in Htf' as [Htf'| ->]; [|done].
        by apply (Hfail t); [apply Hu1|apply Hf1].
  - intros t Ht. rewrite Hu in Ht. split; [by apply Hu1|]. by intros ->.
  - intros Hnil. rewrite Hst. rewrite Hu in Hnil. by rewrite Hnil.
  - rewrite Hd. destruct sent as [[]|].
    + rewrite elem_of_add. split; intros _; [by left|by right].
    + split; [by right|intros [?|?]; done].
    + split; [by right|intros [?|?]; done].
  - rewrite Hf. destruct sent as [ok|].
    + split; [|done]. intros Ht. exfalso. by apply Htf.
    + rewrite elem_of_add. split; [done|by right].
Qed.

(** Once every target that [deliver] listed has had its send task, whatever
    the order and the outcomes, nothing is left undelivered and the status is
    final: complete as soon as one send was delivered, else failed as soon as
    one raised, else ignored. *)
Theorem run_updates_settles (steps : list (Target * option bool)) (o : Object) :
  delivery_wf o →
  undelivered o ≠ [] →
  (∀ t, t ∈ undelivered o → t ∈ steps.*1) →
  ∃ o', run_updates steps o = Ret o'
    ∧ undelivered o' = []
    ∧ status o' = Some (if nonempty (delivered o') then StComplete
                        else if nonempty (failed o') then StFailed
                        else StIgnored)
    ∧ delivery_wf o'.
Proof.
  revert o. induction steps as [|[target sent] rest IH]; intros o Hwf Hne Hcov.
  - destruct (undelivered o) as [|t ?]; [done|].
    specialize (Hcov t (list_elem_of_here _ _)). by apply not_elem_of_nil in Hcov.
  - simpl. destruct (update_object_wf target sent o Hwf)
      as (o1 & -> & Hwf1 & Hsub & Hstatus & _).
    destruct (undelivered o1) as [|t1 u1] eqn:Hu1.
    + clear IH. assert (∀ l o2, undelivered o2 = [] → delivery_wf o2 →
                status o2 = Some (if nonempty (delivered o2) then StComplete
                                  else if nonempty (failed o2) then StFailed
                                  else StIgnored) →
                ∃ o', run_updates l o2 = Ret o' ∧ undelivered o' = []
                  ∧ status o' = Some (if nonempty (delivered o') then StComplete
                                      else if nonempty (failed o') then StFailed
                                      else StIgnored)
                  ∧ delivery_wf o') as Hdone.
      { induction l as [|[t s] l IHl]; intros o2 Hnil Hwf2 Hst2; simpl.
        - by exists o2.
        - destruct (update_object_wf t s o2 Hwf2)
            as (o3 & -> & Hwf3 & Hsub3 & Hstatus3 & _).
          assert (undelivered o3 = []) as Hnil3.
          { destruct (undelivered o3) as [|x ?] eqn:Hx; [done|].
            destruct (Hsub3 x (list_elem_of_here _ _)) as [Hin _].
            rewrite Hnil in Hin. by apply not_elem_of_nil in Hin. }
          apply IHl; [done|done|by apply Hstatus3]. }
      apply Hdone; [done|done|by apply Hstatus].
    + apply IH; [done|by rewrite Hu1|].
      intros t Ht. rewrite Hu1 in Ht. destruct (Hsub t Ht) as [Hin Hneq].
      specialize (Hcov t Hin). simpl in Hcov.
      apply elem_of_cons in Hcov as [->|Hcov]; done.
Qed.

Lemma run_updates_settles_witness :
  ∃ o', run_updates [(inbox_b, None); (inbox_a, Some true)] in_flight = Ret o'
    ∧ undelivered o' = []
    ∧ status o' = Some (if nonempty (delivered o') then StComplete
                        else if nonempty (failed o') then StFailed
                        else StIgnored)
    ∧ delivery_wf o'.
Proof.
  apply (run_updates_settles [(inbox_b, None); (inbox_a, Some true)] in_flight).
  - exact in_flight_wf.
  - discriminate.
  - intros t Ht. simpl in *.
    apply elem_of_cons in Ht as [->|Ht];
      [by apply elem_of_cons; right; apply elem_of_cons; left|].
    apply list_elem_of_singleton in Ht as ->. by apply elem_of_cons; left.
Defined.

(** *** The handler under retry *)

Section send_task_retry.
Variable plugin_send :
  string → Object → string → option string → option Object → SendOutcome.

(** The arguments of the plugin call that a task makes in a world. *)
Definition task_orig_obj (form : SendForm) (w : World) : option Object :=
  match present (form_orig_obj form) with
  | Some k => objects w !! k
  | None => None
  end.

Definition task_outcome (form : SendForm) (w : World) (url protocol : string)
    (obj : Object) : SendOutcome :=
  plugin_send protocol obj url (present (form_user form)) (task_orig_obj form w).

Definition sent_of (outcome : SendOutcome) : option bool :=
  match outcome with
  | Returned ok => Some ok
  | Raised => None
  end.

Definition status_of (sent : option bool) : nat :=
  match sent with
  | Some true => 200
  | Some false => 204
  | None => 304
  end.

(** A task that gets past the gate: one plugin call, one update, one put. *)
Lemma send_task_runs (form : SendForm) (w : World)
    (url protocol obj_key : string) (obj : Object) :
  present (form_url form) = Some url →
  present (form_protocol form) = Some protocol →
  form_obj form = Some obj_key →
  objects w !! obj_key = Some obj →
  {| protocol := protocol; uri := url |} ∈ undelivered obj
  ∨ {| protocol := protocol; uri := url |} ∈ failed obj
  ∨ force form = true →
  ∃ updated call,
    update_object {| protocol := protocol; uri := url |}
      (sent_of (task_outcome form w url protocol obj)) obj = Ret updated
    ∧ send_task plugin_send form w
      = (Ret (status_of (sent_of (task_outcome form w url protocol obj))),
         {| objects := <[obj_key := updated]> (objects w);
            sends := sends w ++ [call] |}).
Proof.
  intros Hurl Hproto Hobj Hget Hgate.
  unfold send_task. rewrite Hurl, Hproto, Hobj, Hget.
  assert (negb (bool_decide ({| protocol := protocol; uri := url |}
                               ∈ undelivered obj))
          && negb (bool_decide ({| protocol := protocol; uri := url |}
                                  ∈ failed obj))
          && negb (force form) = false) as ->.
  { destruct Hgate as [H|[H|H]].
    - by rewrite (bool_decide_eq_true_2 _ H).
    - rewrite (bool_decide_eq_true_2 _ H). simpl. by rewrite andb_false_r.
    - rewrite H. simpl. by rewrite andb_false_r. }
  simpl. rewrite Hget.
  destruct (update_object_lists {| protocol := protocol; uri := url |}
              (sent_of (task_outcome form w url protocol obj)) obj)
    as (updated & _ & _ & Hupd & _).
  exists updated. eexists.
  split; [exact Hupd|].
  unfold task_outcome, task_orig_obj, sent_of in Hupd |- *.
  rewrite Hupd. unfold status_of.
  by destruct (plugin_send _ _ _ _ _) as [[]|].
Qed.

(** A task whose send returned, delivered or refused, is done for good: the
    answer is 200 or 204, and the same task dispatched again is answered 204
    without a second call of the plugin and without a write. *)
Theorem send_task_retry_is_noop (form : SendForm) (w : World)
    (url protocol obj_key : string) (obj : Object) (ok : bool) :
  present (form_url form) = Some url →
  present (form_protocol form) = Some protocol →
  form_obj form = Some obj_key →
  force form = false →
  objects w !! obj_key = Some obj →
  delivery_wf obj →
  {| protocol := protocol; uri := url |} ∈ undelivered obj →
  task_outcome form w url protocol obj = Returned ok →
  ∃ w1, send_task plugin_send form w = (Ret (if ok then 200 else 204), w1)
    ∧ length (sends w1) = S (length (sends w))
    ∧ send_task plugin_send form w1 = (Ret 204, w1).
Proof.
  intros Hurl Hproto Hobj Hforce Hget Hwf Hund Hout.
  destruct (send_task_runs form w url protocol obj_key obj Hurl Hproto Hobj
              Hget (or_introl Hund)) as (updated & call & Hupd & Hrun).
  rewrite Hout in Hupd, Hrun. simpl in Hupd, Hrun.
  eexists. split; [exact Hrun|]. split.
  { simpl. rewrite length_app. simpl. lia. }
  destruct (update_object_wf {| protocol := protocol; uri := url |}
              (Some ok) obj Hwf) as (o' & Hupd' & _ & Hsub & _ & _ & Hfailed).
  rewrite Hupd in Hupd'. injection Hupd' as <-.
  unfold send_task. rewrite Hurl, Hproto, Hobj. simpl.
  rewrite lookup_insert_eq, Hforce.
  rewrite bool_decide_eq_false_2, bool_decide_eq_false_2; [done| |].
  - intros Hin. by apply Hfailed in Hin.
  - intros Hin. by destruct (Hsub _ Hin).
Qed.

(** A task whose send raised is answered 304 and leaves its target in
    [failed], so the same task dispatched again calls the plugin again. *)
Theorem send_task_retry_after_failure (form : SendForm) (w : World)
    (url protocol obj_key : string) (obj : Object) :
  present (form_url form) = Some url →
  present (form_protocol form) = Some protocol →
  form_obj form = Some obj_key →
  objects w !! obj_key = Some obj →
  delivery_wf obj →
  {| protocol := protocol; uri := url |} ∈ undelivered obj →
  task_outcome form w url protocol obj = Raised →
  ∃ w1 stored r2 w2,
    send_task plugin_send form w = (Ret 304, w1)
    ∧ objects w1 !! obj_key = Some stored
    ∧ {| protocol := protocol; uri := url |} ∈ failed stored
    ∧ send_task plugin_send form w1 = (r2, w2)
    ∧ length (sends w2) = S (S (length (sends w))).
Proof.
  intros Hurl Hproto Hobj Hget Hwf Hund Hout.
  destruct (send_task_runs form w url protocol obj_key obj Hurl Hproto Hobj
              Hget (or_introl Hund)) as (updated & call & Hupd & Hrun).
  rewrite Hout in Hupd, Hrun. simpl in Hupd, Hrun.
  destruct (update_object_wf {| protocol := protocol; uri := url |}
              None obj Hwf) as (o' & Hupd' & _ & _ & _ & _ & Hfailed).
  rewrite Hupd in Hupd'. injection Hupd' as <-.
  assert ({| protocol := protocol; uri := url |} ∈ failed updated) as Hin
    by by apply Hfailed.
  set (w1 := {| objects := <[obj_key := updated]> (objects w);
                sends := sends w ++ [call] |}) in *.
  assert (objects w1 !! obj_key = Some updated) as Hget1
    by apply lookup_insert_eq.
  destruct (send_task_runs form w1 url protocol obj_key updated Hurl Hproto
              Hobj Hget1 (or_intror (or_introl Hin)))
    as (updated2 & call2 & _ & Hrun2).
  exists w1, updated. eexists _, _.
  split_and!; [exact Hrun|exact Hget1|exact Hin|exact Hrun2|].
  simpl. rewrite !length_app. simpl. lia.
Qed.

(** Whatever the form and the world: a send task writes no Object but the
    one its [obj] parameter names, and makes at most one plugin call. *)
Theorem send_task_footprint (form : SendForm) (w : World) :
  (∀ k, form_obj form ≠ Some k →
        objects (send_task plugin_send form w).2 !! k = objects w !! k)
  ∧ (sends (send_task plugin_send form w).2 = sends w
     ∨ ∃ call, sends (send_task plugin_send form w).2
                = (sends w ++ [call])%list).
Proof.
  unfold send_task.
  destruct (present (form_url form)) as [url|]; [|by split; [|left]].
  destruct (present (form_protocol form)) as [protocol|]; [|by split; [|left]].
  destruct (form_obj form) as [obj_key|]; [|by split; [|left]].
  destruct (objects w !! obj_key) as [obj|] eqn:Hget; [|by split; [|left]].
  destruct (_ && negb (force form)); [by split; [|left]|].
  simpl. rewrite Hget.
  destruct (update_object _ _ obj) as [updated|e]; simpl.
  - split; [|right; by eexists].
    intros k Hk. apply lookup_insert_ne. congruence.
  - split; [done|right; by eexists].
Qed.
End send_task_retry.

Definition raising_plugin : string → Object → string → option string
                            → option Object → SendOutcome :=
  λ _ _ _ _ _, Raised.

Lemma send_task_retry_is_noop_witness :
  ∃ w1, send_task (fun _ _ _ _ _ => Returned true) example_form
          outstanding_world = (Ret 200, w1)
    ∧ length (sends w1) = S (length (sends outstanding_world))
    ∧ send_task (fun _ _ _ _ _ => Returned true) example_form w1
      = (Ret 204, w1).
Proof.
  apply (send_task_retry_is_noop (fun _ _ _ _ _ => Returned true) example_form
           outstanding_world "https://inst/inbox" "activitypub" "key-1"
           in_flight true); try reflexivity.
  - exact in_flight_wf.
  - apply list_elem_of_here.
Defined.

Lemma send_task_retry_after_failure_witness :
  ∃ w1 stored r2 w2,
    send_task raising_plugin example_form outstanding_world = (Ret 304, w1)
    ∧ objects w1 !! "key-1" = Some stored
    ∧ inbox_a ∈ failed stored
    ∧ send_task raising_plugin example_form w1 = (r2, w2)
    ∧ length (sends w2) = S (S (length (sends outstanding_world))).
Proof.
  apply (send_task_retry_after_failure raising_plugin example_form
           outstanding_world "https://inst/inbox" "activitypub" "key-1"
           in_flight); try reflexivity.
  - exact in_flight_wf.
  - apply list_elem_of_here.
Defined.

End SendTask.

(** ** protocol.py: [Protocol.receive] up to the authorization check *)

Module Receive.
Import Common Models.

(** What a request handler hands back: a response it returned, an
    [HTTPException] raised through [error(msg, status)], or another
    exception. *)
Inductive outcome : Type :=
| Response (status : nat)
| HTTPError (status : nat)
| Crash (e : exn).

(** [seen_ids = LRUCache(100000)] of cachetools, every value of size one.
    The keys are kept least recently used first.  [key in cache] does not
    touch the order; [cache[key] = True] moves a key it holds to the end, and
    for a new key first evicts from the front until there is room. *)
Definition SEEN_IDS_MAXSIZE : N := 100000.

Definition lru_contains (k : string) (order : list string) : bool :=
  bool_decide (k ∈ order).

Definition lru_set (maxsize : N) (k : string) (order : list string) : list string :=
  if bool_decide (k ∈ order)
  then filter (λ x, x ≠ k) order ++ [k]
  else drop (N.to_nat (N.of_nat (length order) + 1 - maxsize)) order ++ [k].

Definition is_None_bool {A} (o : option A) : bool :=
  match o with None => true | Some _ => false end.

Definition is_activity (a : AS1) : bool :=
  match objectType a with
  | Some t => String.eqb t "activity"
  | None => false
  end.

Definition with_key (k : string) (o : Object) : Object :=
  {| key := Some k; as1 := as1 o; source_protocol := source_protocol o;
     status := status o; undelivered := undelivered o;
     delivered := delivered o; failed := failed o; copies := copies o;
     deleted := deleted o; new := new o; changed := changed o |}.

Section receive.
(** Everything outside the process that a request can change: the
    datastore's entities and the task queues. *)
Variable World : Type.
(** [Object.get_by_id]. *)
Variable Object_get_by_id : World → string → option Object.
(** granary's [as1.get_owner]. *)
Variable get_owner : AS1 → option string.
(** Modelled from the spec: [ids.normalize_user_id], which [protocol.py]
    imports but the [ids.py] at hand does not define; the canonical form of
    a user id in a protocol. *)
Variable normalize_user_id : string → Protocol → string.
(** The rest of [receive], from [obj.normalize_ids()] to the final
    [deliver]: [handle from_cls obj id actor authed_as world].  It works on
    the world; [seen_ids] is read and written in the dedup step only. *)
Variable handle :
  Protocol → Object → string → string → string → World → outcome * World.

(** The process's [seen_ids] cache and the world. *)
Record State : Type := {
  seen_ids : list string;
  world : World;
}.

(** [Protocol.load(id, remote=False)]: what the datastore holds, if
    anything; nothing is fetched or written. *)
Definition load_stored (w : World) (id : string) : option Object :=
  Object_get_by_id w id.

(** The id [receive] settles on: the key's, else the activity's. *)
Definition receive_id (obj : Object) (a : AS1) : string :=
  match key obj with
  | Some k => if truthy k then k else default "" (as1_id a)
  | None => default "" (as1_id a)
  end.

(** The condition of the short circuit, [already_seen] apart. *)
Definition known_unchanged (obj : Object) (id : string) (w : World) : bool :=
  (bool_decide (new obj = Some false) && bool_decide (changed obj = Some false))
  || (is_None_bool (new obj) && is_None_bool (changed obj)
      && negb (is_None_bool (load_stored w id))).

Definition receive (from_cls : Protocol) (obj : Object)
    (authed_as : option string) (internal force : bool) (st : State)
  : outcome * State :=
  match as1 obj with
  | None => (HTTPError 400, st)
  | Some a =>
      let id := receive_id obj a in
      if negb (truthy id) then (HTTPError 400, st)
      else if is_blocklisted from_cls id internal then (HTTPError 400, st)
      else
        let dedup := is_activity a && negb force in
        let already_seen := lru_contains id (seen_ids st) in
        let st1 :=
          if dedup
          then {| seen_ids := lru_set SEEN_IDS_MAXSIZE id (seen_ids st);
                  world := world st |}
          else st in
        if dedup && (already_seen || known_unchanged obj id (world st))
        then (Response 204, st1)
        else
          match get_owner a with
          | None => (HTTPError 400, st1)
          | Some actor =>
              if negb (truthy actor) then (HTTPError 400, st1)
              else if is_Some_false (owns_id from_cls actor)
              then (HTTPError 204, st1)
              else
                match authed_as with
                | None => (Crash AssertionError, st1)
                | Some authed =>
                    if negb (truthy authed) then (Crash AssertionError, st1)
                    else
                      let authed := normalize_user_id authed from_cls in
                      let actor := normalize_user_id actor from_cls in
                      if negb (String.eqb actor authed)
                      then (HTTPError 403, st1)
                      else
                        let '(r, w) :=
                          handle from_cls (with_key id obj) id actor authed
                                 (world st1) in
                        (r, {| seen_ids := seen_ids st1; world := w |})
                end
          end
  end.

(** A first receive counts as successful when it answers with a 2xx
    status. *)
Definition succeeded (r : outcome) : Prop :=
  match r with
  | Response s | HTTPError s => s < 300
  | Crash _ => False
  end.

(** *** The seen-ids cache *)

Lemma filter_ne_notin (k : string) (l : list string) :
  k ∉ filter (λ x, x ≠ k) l.
Proof. intros Hin. apply list_elem_of_filter in Hin as [Hne _]. done. Qed.

Lemma filter_ne_id (k : string) (l : list string) :
  k ∉ l → filter (λ x, x ≠ k) l = l.
Proof.
  induction l as [|x l IH]; intros Hnotin; [done|].
  apply not_elem_of_cons in Hnotin as [Hne Hnotin].
  rewrite filter_cons_True by done. by rewrite IH.
Qed.

Lemma lru_set_contains (m : N) (k : string) (l : list string) :
  k ∈ lru_set m k l.
Proof.
  unfold lru_set. case_bool_decide; apply elem_of_app; right;
    by apply list_elem_of_singleton.
Qed.

Lemma lru_set_idempotent (m : N) (k : string) (l : list string) :
  lru_set m k (lru_set m k l) = lru_set m k l.
Proof.
  unfold lru_set at 1.
  rewrite (bool_decide_eq_true_2 _ (lru_set_contains m k l)).
  unfold lru_set. case_bool_decide as Hin.
  - rewrite filter_app, (filter_ne_id k (filter _ l)) by apply filter_ne_notin.
    rewrite filter_cons_False by (intros H; by apply H).
    by rewrite filter_nil, app_nil_r.
  - rewrite filter_app, filter_ne_id.
    + rewrite filter_cons_False by (intros H; by apply H).
      by rewrite filter_nil, app_nil_r.
    + intros Hd. apply Hin. by apply (subseteq_drop _ l k Hd).
Qed.

(** *** Replay *)

(** Past the identity and blocklist gates, a receive of an activity without
    the force flag records the id, whatever happens next. *)
Lemma receive_records_id (from_cls : Protocol) (obj : Object) (a : AS1)
    (authed_as : option string) (internal : bool) (st st' : State)
    (r : outcome) :
  as1 obj = Some a →
  is_activity a = true →
  receive from_cls obj authed_as internal false st = (r, st') →
  succeeded r →
  truthy (receive_id obj a) = true
  ∧ is_blocklisted from_cls (receive_id obj a) internal = false
  ∧ seen_ids st' = lru_set SEEN_IDS_MAXSIZE (receive_id obj a) (seen_ids st).
Proof.
  intros Has1 Hact Hrun Hok. unfold receive in Hrun.
  rewrite Has1, Hact in Hrun. simpl in Hrun.
  destruct (truthy (receive_id obj a)) eqn:Hid; simpl in Hrun;
    [|injection Hrun as <- <-; simpl in Hok; lia].
  destruct (is_blocklisted from_cls (receive_id obj a) internal) eqn:Hblock;
    [injection Hrun as <- <-; simpl in Hok; lia|].
  split; [done|]. split; [done|].
  repeat match type of Hrun with
         | (if ?c then _ else _) = _ => destruct c
         | match ?o with Some _ => _ | None => _ end = _ => destruct o
         | (let '(_, _) := ?p in _) = _ => destruct p
         end;
    by injection Hrun as <- <-.
Qed.

(** C3.  After a first successful receive of an activity (object type
    activity, no force flag), a second receive of the same activity, with
    the same id and the same content, answers 204 and leaves the state as
    the first receive left it: the first recorded the id in the seen-ids
    cache, so the second returns before anything is written. *)
Theorem receive_replay_is_noop (from_cls : Protocol) (obj obj2 : Object)
    (a : AS1) (authed_as authed_as2 : option string) (internal : bool)
    (st st' : State) (r : outcome) :
  as1 obj = Some a →
  objectType a = Some "activity" →
  receive from_cls obj authed_as internal false st = (r, st') →
  succeeded r →
  key obj2 = key obj →
  as1 obj2 = as1 obj →
  receive from_cls obj2 authed_as2 internal false st' = (Response 204, st').
Proof.
  intros Has1 Htype Hrun Hok Hkey Hcontent.
  assert (is_activity a = true) as Hact by (unfold is_activity; by rewrite Htype).
  destruct (receive_records_id _ _ _ _ _ _ _ _ Has1 Hact Hrun Hok)
    as (Hid & Hblock & Hseen).
  assert (receive_id obj2 a = receive_id obj a) as Hid2
    by (unfold receive_id; by rewrite Hkey).
  unfold receive. rewrite Hcontent, Has1, Hid2, Hid, Hblock, Hact. simpl.
  assert (lru_contains (receive_id obj a) (seen_ids st') = true) as ->.
  { unfold lru_contains. apply bool_decide_eq_true_2. rewrite Hseen.
    apply lru_set_contains. }
  simpl. f_equal. rewrite Hseen, lru_set_idempotent, <- Hseen.
  by destruct st'.
Qed.

(** *** Authorization *)

(** C4, as amended.  An activity that gets as far as the authorization
    check (it has data and an id, the id is not blocklisted, the dedup step
    does not short-circuit it, it has an owner that the source protocol
    does not disown, and the request names an authenticated principal) and
    whose normalized owner differs from the normalized principal is answered
    with 403.  The world is left as it was: nothing is written to the
    datastore and nothing is dispatched or fanned out.  Only the seen-ids
    cache has taken the id, when the dedup step ran. *)
Theorem receive_unauthorized (from_cls : Protocol) (obj : Object) (a : AS1)
    (actor authed_as : string) (internal force : bool) (st : State) :
  as1 obj = Some a →
  receive_id obj a ≠ "" →
  is_blocklisted from_cls (receive_id obj a) internal = false →
  (is_activity a && negb force = true →
     lru_contains (receive_id obj a) (seen_ids st) = false
     ∧ known_unchanged obj (receive_id obj a) (world st) = false) →
  get_owner a = Some actor →
  actor ≠ "" →
  owns_id from_cls actor ≠ Some false →
  authed_as ≠ "" →
  normalize_user_id actor from_cls ≠ normalize_user_id authed_as from_cls →
  ∃ st', receive from_cls obj (Some authed_as) internal force st
         = (HTTPError 403, st')
    ∧ world st' = world st
    ∧ seen_ids st'
      = if is_activity a && negb force
        then lru_set SEEN_IDS_MAXSIZE (receive_id obj a) (seen_ids st)
        else seen_ids st.
Proof.
  intros Has1 Hid Hblock Hfresh Howner Hactor Howns Hauthed Hdiff.
  apply truthy_true in Hid, Hactor, Hauthed.
  apply String.eqb_neq in Hdiff.
  unfold receive. rewrite Has1, Hid, Hblock. simpl.
  destruct (is_activity a && negb force) eqn:Hdedup.
  - destruct (Hfresh eq_refl) as [-> ->]. simpl.
    rewrite Howner, Hactor, (is_Some_false_no _ Howns), Hauthed, Hdiff. simpl.
    by eexists.
  - simpl. rewrite Howner, Hactor, (is_Some_false_no _ Howns), Hauthed, Hdiff.
    simpl. by eexists.
Qed.

(** Whatever the earlier gates decide, a request whose normalized owner
    differs from the normalized principal never reaches [handle]: the
    world is left as it was. *)
Lemma receive_mismatch_keeps_world (from_cls : Protocol) (obj : Object)
    (authed_as : option string) (internal force : bool) (st : State) :
  (∀ a actor authed,
      as1 obj = Some a → get_owner a = Some actor → authed_as = Some authed →
      normalize_user_id actor from_cls ≠ normalize_user_id authed from_cls) →
  world (receive from_cls obj authed_as internal force st).2 = world st.
Proof.
  intros Hdiff. unfold receive.
  destruct (as1 obj) as [a|] eqn:Has1; [|done].
  destruct (negb (truthy (receive_id obj a))); [done|].
  destruct (is_blocklisted from_cls (receive_id obj a) internal); [done|].
  set (st1 := if is_activity a && negb force then _ else st).
  assert (world st1 = world st) as Hw
    by (unfold st1; by destruct (is_activity a && negb force)).
  destruct (_ && (_ || _)); [done|].
  destruct (get_owner a) as [actor|] eqn:Howner; [|done].
  destruct (negb (truthy actor)); [done|].
  destruct (is_Some_false (owns_id from_cls actor)); [done|].
  destruct authed_as as [authed|]; [|done].
  destruct (negb (truthy authed)); [done|].
  specialize (Hdiff a actor authed eq_refl Howner eq_refl).
  apply String.eqb_neq in Hdiff. rewrite Hdiff. done.
Qed.
(** *** The dedup step and the steps around it *)

(** Past the identity and blocklist gates, a receive of an activity without
    the force flag records the id, whatever it answers. *)
Lemma receive_seen_after (from_cls : Protocol) (obj : Object) (a : AS1)
    (authed_as : option string) (internal : bool) (st : State) :
  as1 obj = Some a →
  is_activity a = true →
  truthy (receive_id obj a) = true →
  is_blocklisted from_cls (receive_id obj a) internal = false →
  seen_ids (receive from_cls obj authed_as internal false st).2
  = lru_set SEEN_IDS_MAXSIZE (receive_id obj a) (seen_ids st).
Proof.
  intros Has1 Hact Hid Hblock. unfold receive.
  rewrite Has1, Hact, Hid, Hblock. simpl.
  repeat match goal with
         | |- context [if ?c then _ else _] => destruct c; simpl
         | |- context [match ?o with Some _ => _ | None => _ end] =>
             destruct o; simpl
         | |- context [let '(_, _) := ?p in _] => destruct p; simpl
         end; reflexivity.
Qed.

(** The id of an activity is recorded before its sender is checked.  Once an
    activity has got past the identity and blocklist gates, whatever the
    answer was (a 403 for a foreign actor included), every later receive of
    an activity with that id and data, from whomever, is answered 204 and
    changes nothing. *)
Theorem receive_id_taken_before_authorization (from_cls : Protocol)
    (obj obj2 : Object) (a : AS1) (authed_as authed_as2 : option string)
    (internal : bool) (st : State) :
  as1 obj = Some a →
  objectType a = Some "activity" →
  receive_id obj a ≠ "" →
  is_blocklisted from_cls (receive_id obj a) internal = false →
  key obj2 = key obj →
  as1 obj2 = as1 obj →
  receive from_cls obj2 authed_as2 internal false
    (receive from_cls obj authed_as internal false st).2
  = (Response 204, (receive from_cls obj authed_as internal false st).2).
Proof.
  intros Has1 Htype Hid Hblock Hkey Hcontent.
  assert (is_activity a = true) as Hact by (unfold is_activity; by rewrite Htype).
  apply truthy_true in Hid.
  pose proof (receive_seen_after from_cls obj a authed_as internal st
                Has1 Hact Hid Hblock) as Hseen.
  destruct (receive from_cls obj authed_as internal false st) as [r st'].
  simpl in *.
  assert (receive_id obj2 a = receive_id obj a) as Hid2
    by (unfold receive_id; by rewrite Hkey).
  unfold receive. rewrite Hcontent, Has1, Hid2, Hid, Hblock, Hact. simpl.
  assert (lru_contains (receive_id obj a) (seen_ids st') = true) as ->.
  { unfold lru_contains. apply bool_decide_eq_true_2. rewrite Hseen.
    apply lru_set_contains. }
  simpl. f_equal. rewrite Hseen, lru_set_idempotent, <- Hseen.
  by destruct st'.
Qed.

(** For an object that is not an activity, and for any request with the
    force flag, the seen-ids cache plays no part: the answer and the world
    afterwards are the same whatever the cache holds, and the cache is left
    as it was. *)
Theorem receive_without_dedup (from_cls : Protocol) (obj : Object)
    (authed_as : option string) (internal force : bool) (st : State)
    (seen : list string) :
  force = true ∨ (∀ a, as1 obj = Some a → is_activity a = false) →
  (receive from_cls obj authed_as internal force st).1
  = (receive from_cls obj authed_as internal force
       {| seen_ids := seen; world := world st |}).1
  ∧ world (receive from_cls obj authed_as internal force st).2
    = world (receive from_cls obj authed_as internal force
               {| seen_ids := seen; world := world st |}).2
  ∧ seen_ids (receive from_cls obj authed_as internal force st).2
    = seen_ids st.
Proof.
  intros Hskip. unfold receive.
  destruct (as1 obj) as [a|] eqn:Has1; [|done].
  assert (is_activity a && negb force = false) as ->.
  { destruct Hskip as [->|Hbare]; [by rewrite andb_false_r|].
    by rewrite (Hbare a eq_refl). }
  simpl.
  repeat match goal with
         | |- context [if ?c then _ else _] => destruct c; simpl
         | |- context [match ?o with Some _ => _ | None => _ end] =>
             destruct o; simpl
         | |- context [let '(_, _) := ?p in _] => destruct p; simpl
         end; done.
Qed.

(** *** [receive_task] *)

(** The registry, and [common.PROTOCOL_DOMAINS], which the [common.py] at
    hand does not define. *)
Variable PROTOCOLS : string → option Protocol.
Variable PROTOCOL_DOMAINS : list string.

Definition set_new (b : option bool) (o : Object) : Object :=
  {| key := key o; as1 := as1 o; source_protocol := source_protocol o;
     status := status o; undelivered := undelivered o;
     delivered := delivered o; failed := failed o; copies := copies o;
     deleted := deleted o; new := b; changed := changed o |}.

(** [receive_task]: the Object named by the form is read, marked new and
    handed to the [receive] of its source protocol; a [ValueError] becomes a
    304.  The key of an Object is its id. *)
Definition receive_task (form_obj form_authed_as : option string)
    (force : bool) (st : State) : outcome * State :=
  match form_obj with
  | None => (Crash KeyError, st)
  | Some obj_key =>
      match Object_get_by_id (world st) obj_key with
      | None => (Crash AssertionError, st)
      | Some stored =>
          let obj := set_new (Some true) stored in
          let internal :=
            match form_authed_as with
            | Some authed =>
                String.eqb authed PRIMARY_DOMAIN
                || bool_decide (authed ∈ PROTOCOL_DOMAINS)
            | None => false
            end in
          match source_protocol obj ≫= PROTOCOLS with
          | None => (Crash KeyError, st)
          | Some from_cls =>
              match receive from_cls obj form_authed_as internal force st with
              | (Crash ValueError, st') => (HTTPError 304, st')
              | answer => answer
              end
          end
      end
  end.

(** An Object that is read back from the datastore is processed only
    because [receive_task] marks it new.  Handed to [receive] as it is stored,
    with [new] and [changed] unset, it is answered 204 as already handled;
    through [receive_task] it gets past the dedup step whenever its id has
    not been seen, and the answer is that of the later steps. *)
Theorem receive_task_marks_new (from_cls : Protocol) (stored : Object)
    (a : AS1) (id label actor authed_as : string) (st : State) :
  Object_get_by_id (world st) id = Some stored →
  key stored = Some id →
  id ≠ "" →
  as1 stored = Some a →
  objectType a = Some "activity" →
  new stored = None → changed stored = None →
  source_protocol stored = Some label →
  PROTOCOLS label = Some from_cls →
  (∀ internal, is_blocklisted from_cls id internal = false) →
  lru_contains id (seen_ids st) = false →
  get_owner a = Some actor → actor ≠ "" →
  owns_id from_cls actor ≠ Some false →
  authed_as ≠ "" →
  normalize_user_id actor from_cls ≠ normalize_user_id authed_as from_cls →
  (∀ internal,
     (receive from_cls stored (Some authed_as) internal false st).1
     = Response 204)
  ∧ (receive_task (Some id) (Some authed_as) false st).1 = HTTPError 403.
Proof.
  intros Hget Hkey Hid Has1 Htype Hnew Hchanged Hlabel Hproto Hblock Hseen
    Howner Hactor Howns Hauthed Hdiff.
  apply truthy_true in Hid, Hactor, Hauthed.
  apply String.eqb_neq in Hdiff.
  assert (is_activity a = true) as Hact by (unfold is_activity; by rewrite Htype).
  assert (receive_id stored a = id) as Hrid
    by (unfold receive_id; by rewrite Hkey, Hid).
  assert (receive_id (set_new (Some true) stored) a = id) as Hrid'
    by (unfold receive_id; simpl; by rewrite Hkey, Hid).
  split.
  - intros internal. unfold receive.
    rewrite Has1, Hrid, Hid, Hblock, Hact, Hseen.
    unfold known_unchanged, load_stored. rewrite Hnew, Hchanged, Hget.
    reflexivity.
  - unfold receive_task. rewrite Hget.
    replace (source_protocol (set_new (Some true) stored) ≫= PROTOCOLS)
      with (Some from_cls) by (simpl; rewrite Hlabel; simpl; by rewrite Hproto).
    unfold receive.
    replace (as1 (set_new (Some true) stored)) with (Some a) by by simpl.
    rewrite Hrid', Hid, Hblock, Hact, Hseen.
    unfold known_unchanged.
    replace (new (set_new (Some true) stored)) with (Some true) by done.
    simpl.
    rewrite Howner, Hactor, (is_Some_false_no _ Howns), Hauthed, Hdiff.
    reflexivity.
Qed.

End receive.

(** *** A run: a follow from [https://inst/alice], received from ActivityPub *)

Definition follow_as1 : AS1 :=
  {| as1_id := Some "https://inst/follow/1"; objectType := Some "activity";
     verb := Some "follow"; actor := Some "https://inst/alice"; url := None;
     content := "" |}.

Definition follow_obj : Object :=
  {| key := None; as1 := Some follow_as1; source_protocol := Some "activitypub";
     status := None; undelivered := []; delivered := []; failed := [];
     copies := []; deleted := false; new := None; changed := None |}.

(** The datastore's Objects by id, a pipeline tail that stores the activity
    and answers 202, ids that are already canonical. *)
Definition store_get (w : gmap string Object) (id : string) : option Object :=
  w !! id.

Definition store_and_accept (from_cls : Protocol) (obj : Object)
    (id actor authed_as : string) (w : gmap string Object)
  : outcome * gmap string Object :=
  (Response 202, <[id := obj]> w).

Definition receive_example :=
  receive (gmap string Object) store_get actor (λ id _, id) store_and_accept
    ActivityPub.

Definition fresh_state : State (gmap string Object) :=
  {| seen_ids := []; world := ∅ |}.

Definition seen_state : State (gmap string Object) :=
  {| seen_ids := ["https://inst/follow/1"]; world := ∅ |}.

Lemma receive_replay_is_noop_witness :
  (receive_example follow_obj (Some "https://inst/alice") false false
     fresh_state).1 = Response 202
  ∧ receive_example follow_obj (Some "https://inst/alice") false false
      (receive_example follow_obj (Some "https://inst/alice") false false
         fresh_state).2
    = (Response 204,
       (receive_example follow_obj (Some "https://inst/alice") false false
          fresh_state).2).
Proof.
  split; [reflexivity|].
  apply (receive_replay_is_noop (gmap string Object) store_get actor
           (λ id _, id) store_and_accept ActivityPub follow_obj follow_obj
           follow_as1 (Some "https://inst/alice") (Some "https://inst/alice")
           false fresh_state _ (Response 202)).
  - reflexivity.
  - reflexivity.
  - reflexivity.
  - simpl. lia.
  - reflexivity.
  - reflexivity.
Defined.

Lemma receive_unauthorized_witness :
  ∃ st', receive_example follow_obj (Some "https://inst/mallory") false false
           fresh_state = (HTTPError 403, st')
    ∧ world _ st' = world _ fresh_state
    ∧ seen_ids _ st'
      = if is_activity follow_as1 && negb false
        then lru_set SEEN_IDS_MAXSIZE (receive_id follow_obj follow_as1)
               (seen_ids _ fresh_state)
        else seen_ids _ fresh_state.
Proof.
  apply (receive_unauthorized (gmap string Object) store_get actor
           (λ id _, id) store_and_accept ActivityPub follow_obj follow_as1
           "https://inst/alice" "https://inst/mallory" false false fresh_state).
  - reflexivity.
  - discriminate.
  - reflexivity.
  - intros _. split; reflexivity.
  - reflexivity.
  - discriminate.
  - discriminate.
  - discriminate.
  - discriminate.
Defined.

Lemma receive_mismatch_keeps_world_witness :
  world _ (receive_example follow_obj (Some "https://inst/mallory") false false
             seen_state).2 = world _ seen_state
  ∧ world _ (receive_example follow_obj (Some "https://inst/mallory") false false
               fresh_state).2 = world _ fresh_state.
Proof.
  split.
  - apply (receive_mismatch_keeps_world (gmap string Object) store_get actor
             (λ id _, id) store_and_accept ActivityPub follow_obj
             (Some "https://inst/mallory") false false seen_state).
    intros a who authed [= <-] [= <-] [= <-]. discriminate.
  - apply (receive_mismatch_keeps_world (gmap string Object) store_get actor
             (λ id _, id) store_and_accept ActivityPub follow_obj
             (Some "https://inst/mallory") false false fresh_state).
    intros a who authed [= <-] [= <-] [= <-]. discriminate.
Defined.

(** C4, as stated, fails.  An activity whose owner is not the authenticated
    principal is answered 204, not 403, when its id has been seen before; and
    on its first receive the 403 comes after the id has been put in the
    seen-ids cache, so that the state of the process is not what it was. *)
Lemma receive_unauthorized_replay_is_204 :
  actor follow_as1 = Some "https://inst/alice"
  ∧ "https://inst/alice" ≠ "https://inst/mallory"
  ∧ receive_example follow_obj (Some "https://inst/mallory") false false
      seen_state = (Response 204, seen_state)
  ∧ receive_example follow_obj (Some "https://inst/mallory") false false
      fresh_state = (HTTPError 403, seen_state)
  ∧ seen_state ≠ fresh_state.
Proof. split_and!; try reflexivity; discriminate. Qed.

Lemma receive_id_taken_before_authorization_witness :
  (receive_example follow_obj (Some "https://inst/mallory") false false
     fresh_state).1 = HTTPError 403
  ∧ receive_example follow_obj (Some "https://inst/alice") false false
      (receive_example follow_obj (Some "https://inst/mallory") false false
         fresh_state).2
    = (Response 204,
       (receive_example follow_obj (Some "https://inst/mallory") false false
          fresh_state).2).
Proof.
  split; [reflexivity|].
  apply (receive_id_taken_before_authorization (gmap string Object) store_get
           actor (λ id _, id) store_and_accept ActivityPub follow_obj
           follow_obj follow_as1 (Some "https://inst/mallory")
           (Some "https://inst/alice") false fresh_state);
    try reflexivity; discriminate.
Defined.

Definition note_obj : Object :=
  {| key := Some "https://inst/note/1";
     as1 := Some {| as1_id := Some "https://inst/note/1";
                    objectType := Some "note"; verb := None;
                    actor := Some "https://inst/alice"; url := None;
                    content := "hello" |};
     source_protocol := Some "activitypub"; status := None;
     undelivered := []; delivered := []; failed := []; copies := [];
     deleted := false; new := Some false; changed := Some true |}.

Lemma receive_without_dedup_witness :
  (receive_example note_obj (Some "https://inst/alice") false false
     fresh_state).1
  = (receive_example note_obj (Some "https://inst/alice") false false
       {| seen_ids := ["https://inst/note/1"]; world := world _ fresh_state |}).1
  ∧ (receive_example note_obj (Some "https://inst/alice") false false
       fresh_state).1 = Response 202
  ∧ seen_ids _ (receive_example note_obj (Some "https://inst/alice") false false
                  fresh_state).2 = [].
Proof.
  destruct (receive_without_dedup (gmap string Object) store_get actor
              (λ id _, id) store_and_accept ActivityPub note_obj
              (Some "https://inst/alice") false false fresh_state
              ["https://inst/note/1"]) as (Hanswer & _ & Hseen).
  - right. intros a [= <-]. reflexivity.
  - split; [exact Hanswer|]. split; [reflexivity|exact Hseen].
Defined.

Definition only_activitypub (label : string) : option Protocol :=
  if String.eqb label "activitypub" then Some ActivityPub else None.

Definition stored_follow : Object := with_key "https://inst/follow/1" follow_obj.

Definition stored_state : State (gmap string Object) :=
  {| seen_ids := [];
     world := {[ "https://inst/follow/1" := stored_follow ]} |}.

Lemma receive_task_marks_new_witness :
  (∀ internal,
     (receive_example stored_follow (Some "https://inst/mallory") internal
        false stored_state).1 = Response 204)
  ∧ (receive_task (gmap string Object) store_get actor (λ id _, id)
       store_and_accept only_activitypub []
       (Some "https://inst/follow/1") (Some "https://inst/mallory") false
       stored_state).1 = HTTPError 403.
Proof.
  apply (receive_task_marks_new (gmap string Object) store_get actor
           (λ id _, id) store_and_accept only_activitypub [] ActivityPub
           stored_follow follow_as1 "https://inst/follow/1" "activitypub"
           "https://inst/alice" "https://inst/mallory" stored_state);
    try reflexivity; discriminate.
Defined.

End Receive.

(** ** common.py: [redirect_wrap] and [redirect_unwrap] *)

Module Wrapping.
Import Common Webutil.

(** The scheme and the host of the request being served: Flask's
    [request.host_url] is [<scheme>://<host>/]. *)
Inductive Scheme : Type := http | https.

Definition scheme_name (s : Scheme) : string :=
  match s with http => "http" | https => "https" end.

Record Request : Type := {
  req_scheme : Scheme;
  req_host : string;
}.

(** A JSON-like value: what [redirect_unwrap] is called on. *)
#[local] Unset Elimination Schemes.
Inductive value : Type :=
| VNone
| VStr (s : string)
| VList (l : list value)
| VDict (items : list (string * value)).
#[local] Set Elimination Schemes.

Section wrapping.
(** webutil's [util.is_web], [util.domain_from_link] and
    [util.domain_or_parent_in]; [re.match(DOMAIN_RE, _)]; webutil's
    [appengine_info.DEBUG]. *)
Variable is_web : string → bool.
Variable domain_from_link : string → option string.
Variable domain_or_parent_in : string → list string → bool.
Variable matches_DOMAIN_RE : string → bool.
Variable DEBUG : bool.

(** [host_url('/r/')]: [urljoin] of the base, a URL with no path or the path
    [/], and the absolute path [/r/]. *)
Definition host_url_r (req : Request) : string :=
  let base :=
    if domain_or_parent_in (req_host req) OTHER_DOMAINS
       || (negb DEBUG && bool_decide (req_host req ∈ LOCAL_DOMAINS))
    then "https://" +:+ PRIMARY_DOMAIN
    else scheme_name (req_scheme req) +:+ "://" +:+ req_host req in
  base +:+ "/r/".

Definition in_DOMAINS (d : option string) : bool :=
  match d with
  | Some d => bool_decide (d ∈ DOMAINS)
  | None => false
  end.

(** An empty [url] is the empty string here; [None] takes the same branch. *)
Definition redirect_wrap (req : Request) (url : string) : string :=
  if negb (truthy url) || in_DOMAINS (domain_from_link url) then url
  else host_url_r req +:+ url.

(** One round of the two nested loops of [redirect_unwrap]: [Some] is a
    [return], [None] goes on to the next scheme or domain. *)
Definition unwrap_with (domain scheme val : string) : option string :=
  let base := scheme +:+ "://" +:+ domain +:+ "/" in
  let redirect_prefix := base +:+ "r/" in
  if startswith redirect_prefix val then
    let unwrapped := removeprefix redirect_prefix val in
    if is_web unwrapped then Some unwrapped else None
  else if startswith base val then
    let path := removeprefix base val in
    if matches_DOMAIN_RE path then Some ("https://" +:+ path +:+ "/") else None
  else None.

Fixpoint unwrap_loop (domains : list string) (val : string) : string :=
  match domains with
  | [] => val
  | domain :: rest =>
      match unwrap_with domain "http" val with
      | Some r => r
      | None =>
          match unwrap_with domain "https" val with
          | Some r => r
          | None => unwrap_loop rest val
          end
      end
  end.

Definition redirect_unwrap_str (val : string) : string :=
  unwrap_loop DOMAINS val.

Fixpoint redirect_unwrap (val : value) : value :=
  match val with
  | VDict items =>
      VDict (map (λ kv, let '(k, v) := kv in (k, redirect_unwrap v)) items)
  | VList l => VList (map redirect_unwrap l)
  | VStr s => VStr (redirect_unwrap_str s)
  | VNone => VNone
  end.

(** *** Round trip *)

(** A wrapped URL on one of our own hosts is unwrapped by the loop. *)
Lemma unwrap_loop_own_host (s : Scheme) (host u : string) :
  host ∈ DOMAINS →
  is_web u = true →
  unwrap_loop DOMAINS (scheme_name s +:+ "://" +:+ host +:+ "/r/" +:+ u) = u.
Proof.
  intros Hhost Hweb.
  unfold DOMAINS, PRIMARY_DOMAIN, OTHER_DOMAINS, LOCAL_DOMAINS in *.
  simpl in Hhost.
  repeat (apply elem_of_cons in Hhost as [->|Hhost]);
    try (by apply not_elem_of_nil in Hhost);
    destruct s; vm_compute; by rewrite Hweb.
Qed.

(** C9, as amended.  While a request on one of the bridge's own domains is
    served: for a web URL whose domain is not one of [DOMAINS], unwrapping
    the wrapped URL gives the URL back; and an empty URL, or one whose domain
    is in [DOMAINS], is returned by [redirect_wrap] as it is. *)
Theorem redirect_unwrap_wrap (req : Request) (u : string) :
  (req_host req ∈ DOMAINS →
   is_web u = true → in_DOMAINS (domain_from_link u) = false →
   redirect_unwrap (VStr (redirect_wrap req u)) = VStr u)
  ∧ (u = "" ∨ in_DOMAINS (domain_from_link u) = true →
     redirect_wrap req u = u).
Proof.
  split.
  - intros Hhost Hweb Hdom. simpl. f_equal. unfold redirect_unwrap_str, redirect_wrap.
    rewrite Hdom, orb_false_r.
    destruct (truthy u) eqn:Hu; simpl.
    + unfold host_url_r.
      destruct (_ || _).
      * etrans; [|apply (unwrap_loop_own_host https PRIMARY_DOMAIN u); [|done]].
        -- reflexivity.
        -- unfold DOMAINS. apply elem_of_app. left.
           by apply list_elem_of_singleton.
      * rewrite !append_assoc.
        by apply (unwrap_loop_own_host (req_scheme req) (req_host req) u).
    + apply truthy_false in Hu. subst u.
      vm_compute. reflexivity.
  - intros [-> | Hdom]; unfold redirect_wrap.
    + done.
    + by rewrite Hdom, orb_true_r.
Qed.
(** *** What [redirect_unwrap] leaves alone, and bare domains *)

Lemma startswith_app_l (p q s : string) :
  startswith (p +:+ q) s = true → startswith p s = true.
Proof.
  revert s. induction p as [|a p IH]; intros s; [done|].
  destruct s as [|b s]; [done|].
  change (Ascii.eqb a b && startswith (p +:+ q) s = true
          → Ascii.eqb a b && startswith p s = true).
  intros [Hab Hrest]%andb_true_iff. rewrite Hab. simpl. by apply IH.
Qed.

Lemma unwrap_with_not_on (domain scheme val : string) :
  startswith (scheme +:+ "://" +:+ domain +:+ "/") val = false →
  unwrap_with domain scheme val = None.
Proof.
  intros Hbase. unfold unwrap_with. rewrite Hbase.
  destruct (startswith ((scheme +:+ "://" +:+ domain +:+ "/") +:+ "r/") val)
    eqn:Hprefix; [|done].
  apply startswith_app_l in Hprefix. congruence.
Qed.

(** The strings of a value, at any depth. *)
Fixpoint strings_of (val : value) : list string :=
  match val with
  | VDict items => flat_map (λ kv, let '(_, v) := kv in strings_of v) items
  | VList l => flat_map strings_of l
  | VStr s => [s]
  | VNone => []
  end.

(** Whether [val] begins with [http://<domain>/] or [https://<domain>/] for
    one of our domains. *)
Definition on_our_domain (val : string) : bool :=
  existsb (λ domain,
             startswith ("http" +:+ "://" +:+ domain +:+ "/") val
             || startswith ("https" +:+ "://" +:+ domain +:+ "/") val)
          DOMAINS.

Lemma unwrap_loop_not_on (domains : list string) (val : string) :
  existsb (λ domain,
             startswith ("http" +:+ "://" +:+ domain +:+ "/") val
             || startswith ("https" +:+ "://" +:+ domain +:+ "/") val)
          domains = false →
  unwrap_loop domains val = val.
Proof.
  induction domains as [|domain rest IH]; intros Hnot; [done|].
  cbn [existsb] in Hnot.
  apply orb_false_iff in Hnot as [[Hhttp Hhttps]%orb_false_iff Hrest].
  cbn [unwrap_loop].
  rewrite (unwrap_with_not_on _ _ _ Hhttp), (unwrap_with_not_on _ _ _ Hhttps).
  by apply IH.
Qed.

(** Strings that are not on one of our domains are left as they are, at any
    depth of lists and dicts: a value all of whose strings are such is
    returned unchanged. *)
Theorem redirect_unwrap_not_ours (val : value) :
  (∀ s, s ∈ strings_of val → on_our_domain s = false) →
  redirect_unwrap val = val.
Proof.
  revert val. fix IH 1. intros [|s|l|items] Hnot; simpl.
  - done.
  - f_equal. apply unwrap_loop_not_on. apply Hnot. simpl. apply list_elem_of_here.
  - f_equal. simpl in Hnot.
    induction l as [|v rest IHl]; simpl; [done|].
    f_equal.
    + apply IH. intros s Hs. apply Hnot. simpl. apply elem_of_app. by left.
    + apply IHl. intros s Hs. apply Hnot. simpl. apply elem_of_app. by right.
  - f_equal. simpl in Hnot.
    induction items as [|[k v] rest IHl]; simpl; [done|].
    f_equal.
    + f_equal. apply IH. intros s Hs. apply Hnot. simpl. apply elem_of_app. by left.
    + apply IHl. intros s Hs. apply Hnot. simpl. apply elem_of_app. by right.
Qed.

(** A URL on one of our hosts whose path is a bare domain, as the pages of
    Web users are, is unwrapped to the home page of that domain. *)
Theorem redirect_unwrap_bare_domain (s : Scheme) (host path : string) :
  host ∈ DOMAINS →
  matches_DOMAIN_RE path = true →
  startswith "r/" path = false →
  redirect_unwrap (VStr (scheme_name s +:+ "://" +:+ host +:+ "/" +:+ path))
  = VStr ("https://" +:+ path +:+ "/").
Proof.
  intros Hhost Hre Hr. simpl. f_equal. unfold redirect_unwrap_str.
  unfold DOMAINS, PRIMARY_DOMAIN, OTHER_DOMAINS, LOCAL_DOMAINS in *.
  simpl in Hhost.
  repeat (apply elem_of_cons in Hhost as [->|Hhost]);
    try (by apply not_elem_of_nil in Hhost);
    destruct s; vm_compute in Hr |- *; by rewrite Hr, Hre.
Qed.

End wrapping.

(** *** Runs *)

Definition wrap_example (req : Request) (u : string) : string :=
  redirect_wrap (λ u, domain_of u true) domain_in false req u.

Definition unwrap_example (v : value) : value :=
  redirect_unwrap is_web_prefix (λ _, false) v.

Definition on_fed : Request := {| req_scheme := https; req_host := "fed.brid.gy" |}.

Definition on_loopback : Request :=
  {| req_scheme := http; req_host := "127.0.0.1:8080" |}.

Lemma redirect_unwrap_wrap_witness :
  wrap_example on_fed "https://user.com/post"
    = "https://fed.brid.gy/r/https://user.com/post"
  ∧ unwrap_example (VStr (wrap_example on_fed "https://user.com/post"))
    = VStr "https://user.com/post"
  ∧ wrap_example on_fed "https://web.brid.gy/user.com"
    = "https://web.brid.gy/user.com".
Proof.
  split; [reflexivity|].
  assert (req_host on_fed ∈ DOMAINS) as Hhost by apply list_elem_of_here.
  pose proof (redirect_unwrap_wrap is_web_prefix (λ u, domain_of u true)
                domain_in (λ _, false) false on_fed) as Hthm.
  split.
  - refine (proj1 (Hthm "https://user.com/post") Hhost _ _); by vm_compute.
  - refine (proj2 (Hthm "https://web.brid.gy/user.com") _).
    right. by vm_compute.
Defined.

(** C9, as stated, fails: when the request being served is on a host that is
    not one of [DOMAINS], the wrapped URL is on that host, and unwrapping
    leaves it as it is. *)
Lemma redirect_unwrap_wrap_foreign_host :
  is_web_prefix "https://user.com/post" = true
  ∧ in_DOMAINS (domain_of "https://user.com/post" true) = false
  ∧ wrap_example on_loopback "https://user.com/post"
    = "http://127.0.0.1:8080/r/https://user.com/post"
  ∧ unwrap_example (VStr (wrap_example on_loopback "https://user.com/post"))
    = VStr "http://127.0.0.1:8080/r/https://user.com/post"
  ∧ unwrap_example (VStr (wrap_example on_loopback "https://user.com/post"))
    ≠ VStr "https://user.com/post".
Proof. by vm_compute. Qed.

Lemma redirect_unwrap_not_ours_witness :
  unwrap_example
    (VDict [("id", VStr "https://user.com/post");
            ("to", VList [VStr "https://inst/users/bob"; VNone]);
            ("content", VStr "see fed.brid.gy/r/")])
  = VDict [("id", VStr "https://user.com/post");
           ("to", VList [VStr "https://inst/users/bob"; VNone]);
           ("content", VStr "see fed.brid.gy/r/")].
Proof.
  apply (redirect_unwrap_not_ours is_web_prefix (λ _, false)).
  intros s Hs. simpl in Hs.
  repeat (apply elem_of_cons in Hs as [->|Hs]); [by vm_compute..|].
  by apply not_elem_of_nil in Hs.
Defined.

(** A stand-in for [re.match(DOMAIN_RE, _)] in the runs below: a dot, and
    none of the characters the expression excludes. *)
Definition has_char (c : ascii) (s : string) : bool :=
  existsb (Ascii.eqb c) (list_ascii_of_string s).

Definition looks_like_domain (path : string) : bool :=
  has_char "." path
  && forallb (λ c, negb (has_char c path)) (list_ascii_of_string "/:;@?!'_").

Lemma redirect_unwrap_bare_domain_witness :
  redirect_unwrap is_web_prefix looks_like_domain (VStr "https://web.brid.gy/user.com")
  = VStr "https://user.com/"
  ∧ redirect_unwrap is_web_prefix looks_like_domain
      (VStr "http://localhost:8080/user.com")
    = VStr "https://user.com/".
Proof.
  split.
  - apply (redirect_unwrap_bare_domain is_web_prefix looks_like_domain
             https "web.brid.gy" "user.com"); [|done..].
    apply (bool_decide_unpack _). by vm_compute.
  - apply (redirect_unwrap_bare_domain is_web_prefix looks_like_domain
             http "localhost:8080" "user.com"); [|done..].
    apply (bool_decide_unpack _). by vm_compute.
Defined.

End Wrapping.

(** ** redirect.py: the [/r/<path:to>] endpoint *)

Module Redirect.
Import Common Models Webutil.

(** The content types the negotiator accepts, and the profile variant that
    is served for [application/ld+json]. *)
Inductive ContentType : Type :=
| CONTENT_TYPE_HTML
| AS2_CONTENT_TYPE
| AS2_CONTENT_TYPE_LD
| AS2_CONTENT_TYPE_LD_PROFILE.

(** What the body of a response is: the error page of [error(...)], one of
    the three 404 texts, the redirect page, or the converted object. *)
Inductive Body : Type :=
| ExpectedFullyQualifiedURL
| InvalidURL
| NoWebUserFound
| Redirecting
| CouldntDetermineProtocol
| ObjectNotFound
| Converted (as2 : string).

Record Response : Type := {
  status_code : nat;
  body : Body;
  Location : option string;
  Content_Type : option ContentType;
}.

(** What the handler does besides answering: datastore lookups, protocol
    resolution, loads (which may fetch), user creation, conversion. *)
Inductive Event : Type :=
| EvWebGetById (domain : string)
| EvForId (id : string)
| EvLoad (label id : string)
| EvWebGetOrCreate (domain : option string)
| EvConvert.

Definition DOMAIN_ALLOWLIST : list string := ["bsky.app"].

(** [re.sub(r'^(https?:/)([^/])', r'\1/\2', to)]. *)
Definition expand_after (scheme_slash to : string) : string :=
  match removeprefix scheme_slash to with
  | String c rest =>
      if Ascii.eqb c "/" then to else scheme_slash +:+ "/" +:+ String c rest
  | EmptyString => to
  end.

Definition expand_single_slash (to : string) : string :=
  if startswith "http:/" to then expand_after "http:/" to
  else if startswith "https:/" to then expand_after "https:/" to
  else to.

(** The 400 is not returned by the handler: webutil's [error(...)] ends the
    request with it.  The 404s and the 301 are returned as text with no
    [Content-Type] header of their own.  All of them go out with Flask's
    default type for text, which is [CONTENT_TYPE_HTML]. *)
Definition error_response (b : Body) : Response :=
  {| status_code := 400; body := b; Location := None;
     Content_Type := Some CONTENT_TYPE_HTML |}.

Definition not_found (b : Body) : Response :=
  {| status_code := 404; body := b; Location := None;
     Content_Type := Some CONTENT_TYPE_HTML |}.

Definition is_as2 (t : option ContentType) : bool :=
  match t with
  | Some AS2_CONTENT_TYPE | Some AS2_CONTENT_TYPE_LD => true
  | _ => false
  end.

Section redir.
(** webutil's [util.is_web] and [util.domain_from_link url minimize];
    [urllib.parse.urlencode] and [urlparse(to).hostname], which can raise
    [ValueError]; the negotiator, [None] when nothing acceptable is found or
    it raises [ValueError]; the order in which a Python [set] is iterated. *)
Variable is_web : string → bool.
Variable domain_from_link : string → bool → option string.
Variable urlencode : list (string * string) → string.
Variable hostname : string → result (option string).
Variable negotiate : string → option ContentType.
Variable set_order : list (option string) → list (option string).
(** The datastore and the protocols: [Web.get_by_id], [Protocol.for_id],
    [proto.load], [Web.get_or_create(domain, direct=False, obj=obj)],
    [ActivityPub.convert(obj, from_user=web_user)]. *)
Variable Web_get_by_id : string → option User.
Variable for_id : string → option Protocol.
Variable load : Protocol → string → option Object.
Variable Web_get_or_create : option string → Object → option User.
Variable convert : Object → option User → string.

(** The URL the handler works on: the query string put back, and a slash
    that a browser collapsed restored. *)
Definition requested_url (to : string) (args : list (string * string)) : string :=
  expand_single_slash
    (if nonempty args then to +:+ "?" +:+ urlencode args else to).

(** The [for ... else] over the domains: whether the loop ended in a
    [break], the Web user found if any, and the lookups made. *)
Fixpoint find_web_user (domains : list (option string))
  : bool * option User * list Event :=
  match domains with
  | [] => (false, None, [])
  | None :: rest => find_web_user rest
  | Some domain :: rest =>
      if negb (truthy domain) then find_web_user rest
      else if bool_decide (domain ∈ DOMAIN_ALLOWLIST) then (true, None, [])
      else
        match Web_get_by_id domain with
        | Some user => (true, Some user, [EvWebGetById domain])
        | None =>
            let '(found, user, evs) := find_web_user rest in
            (found, user, EvWebGetById domain :: evs)
        end
  end.

Definition served (accept_type : option ContentType) (as2 : string) : Response :=
  {| status_code := 200; body := Converted as2; Location := None;
     Content_Type :=
       match accept_type with
       | Some AS2_CONTENT_TYPE_LD => Some AS2_CONTENT_TYPE_LD_PROFILE
       | t => t
       end |}.

Definition redir (to : string) (args : list (string * string))
    (accept : option string) : Response * list Event :=
  let to := requested_url to args in
  if negb (is_web to) then (error_response ExpectedFullyQualifiedURL, [])
  else
    match hostname to with
    | Raise _ => (error_response InvalidURL, [])
    | Ret to_domain =>
        let accept_type :=
          match accept with
          | Some a => if truthy a then negotiate a else None
          | None => None
          end in
        let accept_as2 := is_as2 accept_type in
        let domains :=
          set_order [domain_from_link to true; domain_from_link to false;
                     to_domain] in
        let '(found, web_user, evs) := find_web_user domains in
        if negb found && negb accept_as2
        then (not_found NoWebUserFound, evs)
        else if negb accept_as2
        then ({| status_code := 301; body := Redirecting; Location := Some to;
                 Content_Type := Some CONTENT_TYPE_HTML |}, evs)
        else
          match for_id to with
          | None => (not_found CouldntDetermineProtocol, (evs ++ [EvForId to])%list)
          | Some proto =>
              match load proto to with
              | None =>
                  (not_found ObjectNotFound,
                   (evs ++ [EvForId to; EvLoad (LABEL proto) to])%list)
              | Some obj =>
                  if deleted obj
                  then (not_found ObjectNotFound,
                        (evs ++ [EvForId to; EvLoad (LABEL proto) to])%list)
                  else if String.eqb (LABEL proto) "web"
                          && negb (is_Some_bool web_user)
                  then
                    match Web_get_or_create (domain_from_link to true) obj with
                    | None =>
                        (not_found ObjectNotFound,
                         (evs ++ [EvForId to; EvLoad (LABEL proto) to;
                                 EvWebGetOrCreate (domain_from_link to true)])%list)
                    | Some user =>
                        (served accept_type (convert obj (Some user)),
                         (evs ++ [EvForId to; EvLoad (LABEL proto) to;
                                 EvWebGetOrCreate (domain_from_link to true);
                                 EvConvert])%list)
                    end
                  else
                    (served accept_type (convert obj web_user),
                     (evs ++ [EvForId to; EvLoad (LABEL proto) to; EvConvert])%list)
              end
          end
    end.

(** *** Not a web URL *)

(** C8, as amended.  When the URL the handler works on (the path with its
    query string put back, and a single slash after [http:] or [https:]
    expanded to two) is not a web URL, the answer is 400 and nothing else is
    done: no lookup, no redirect, no load and no conversion. *)
Theorem redir_rejects_non_web (to : string) (args : list (string * string))
    (accept : option string) :
  is_web (requested_url to args) = false →
  status_code (redir to args accept).1 = 400
  ∧ Location (redir to args accept).1 = None
  ∧ (redir to args accept).2 = [].
Proof.
  intros Hweb. unfold redir. rewrite Hweb. simpl. done.
Qed.

(** A path that does not begin with [http:/] or [https:/] is taken as it
    is. *)
Lemma expand_single_slash_other (to : string) :
  startswith "http:/" to = false →
  startswith "https:/" to = false →
  expand_single_slash to = to.
Proof. intros H1 H2. unfold expand_single_slash. by rewrite H1, H2. Qed.

(** *** AS2 requested *)

(** *** Redirects *)

(** The loop over the domains ends in a [break] exactly when one of them is
    non-empty and allowlisted or has a Web user. *)
Definition known_domain (domain : string) : Prop :=
  domain ≠ "" ∧ (domain ∈ DOMAIN_ALLOWLIST ∨ is_Some (Web_get_by_id domain)).

Lemma find_web_user_found (domains : list (option string)) :
  (find_web_user domains).1.1 = true ↔
  ∃ domain, Some domain ∈ domains ∧ known_domain domain.
Proof.
  induction domains as [|[domain|] rest IH]; simpl.
  - split; [done|]. intros (d & Hd & _). by apply not_elem_of_nil in Hd.
  - destruct (truthy domain) eqn:Htruthy; simpl.
    + apply truthy_true in Htruthy.
      case_bool_decide as Hallow; simpl.
      { split; [|done]. intros _. exists domain. split; [apply list_elem_of_here|].
        split; [done|by left]. }
      destruct (Web_get_by_id domain) as [user|] eqn:Huser; simpl.
      { split; [|done]. intros _. exists domain. split; [apply list_elem_of_here|].
        split; [done|]. right. by rewrite Huser. }
      destruct (find_web_user rest) as [[found user] evs]. simpl in *.
      rewrite IH. split.
      * intros (d & Hd & Hk). exists d. split; [by apply elem_of_cons; right|done].
      * intros (d & Hd & Hk). apply elem_of_cons in Hd as [[= ->]|Hd].
        -- destruct Hk as [_ [Hk|Hk]]; [done|]. rewrite Huser in Hk.
           by destruct Hk.
        -- by exists d.
    + apply truthy_false in Htruthy. rewrite IH. split.
      * intros (d & Hd & Hk). exists d. split; [by apply elem_of_cons; right|done].
      * intros (d & Hd & Hk). apply elem_of_cons in Hd as [[= ->]|Hd].
        -- by destruct Hk as [Hk _].
        -- by exists d.
  - rewrite IH. split.
    + intros (d & Hd & Hk). exists d. split; [by apply elem_of_cons; right|done].
    + intros (d & Hd & Hk). apply elem_of_cons in Hd as [[=]|Hd]. by exists d.
Qed.

(** The loop only looks users up. *)
Lemma find_web_user_events (domains : list (option string)) :
  Forall (λ e, ∃ domain, e = EvWebGetById domain) (find_web_user domains).2.
Proof.
  induction domains as [|[domain|] rest IH]; simpl; [done| |done].
  destruct (truthy domain); simpl; [|done].
  case_bool_decide; simpl; [done|].
  destruct (Web_get_by_id domain); simpl.
  - constructor; [by eexists|done].
  - destruct (find_web_user rest) as [[found user] evs]. simpl in *.
    constructor; [by eexists|done].
Qed.

(** The endpoint is not an open redirect.  When a Python [set] is iterated
    over its own elements, a request is answered 301 only if one of the
    three domains read off the URL is allowlisted or is the id of a Web
    user, and the request does not negotiate AS2; the [Location] is then the
    URL the handler works on.  Conversely, every such request for a web URL
    is answered 301. *)
Theorem redir_redirects_known_domains_only (to : string)
    (args : list (string * string)) (accept : option string) :
  (∀ l, set_order l ⊆ l) →
  (status_code (redir to args accept).1 = 301 →
   is_web (requested_url to args) = true
   ∧ Location (redir to args accept).1 = Some (requested_url to args)
   ∧ (∀ a, accept = Some a → is_as2 (negotiate a) = false ∨ a = "")
   ∧ ∃ to_domain domain,
       hostname (requested_url to args) = Ret to_domain
       ∧ Some domain ∈ [domain_from_link (requested_url to args) true;
                         domain_from_link (requested_url to args) false;
                         to_domain]
       ∧ known_domain domain)
  ∧ (∀ to_domain domain,
       is_web (requested_url to args) = true →
       hostname (requested_url to args) = Ret to_domain →
       (∀ a, accept = Some a → is_as2 (negotiate a) = false) →
       Some domain ∈ set_order [domain_from_link (requested_url to args) true;
                                 domain_from_link (requested_url to args) false;
                                 to_domain] →
       known_domain domain →
       status_code (redir to args accept).1 = 301).
Proof.
  intros Hsub. split.
  - unfold redir.
    destruct (is_web (requested_url to args)) eqn:Hweb; simpl; [|discriminate].
    destruct (hostname (requested_url to args)) as [to_domain|e] eqn:Hhost;
      simpl; [|discriminate].
    pose proof (find_web_user_found
                  (set_order [domain_from_link (requested_url to args) true;
                              domain_from_link (requested_url to args) false;
                              to_domain])) as Hfound.
    destruct (find_web_user _) as [[found web_user] evs]. simpl in Hfound.
    set (accept_type := match accept with
                        | Some a => if truthy a then negotiate a else None
                        | None => None
                        end).
    destruct (is_as2 accept_type) eqn:Has2; simpl.
    + rewrite andb_false_r.
      destruct (for_id _) as [proto|]; simpl; [|discriminate].
      destruct (load proto _) as [obj|]; simpl; [|discriminate].
      destruct (deleted obj); simpl; [discriminate|].
      destruct (_ && _); simpl; [|discriminate].
      destruct (Web_get_or_create _ obj); simpl; discriminate.
    + rewrite andb_true_r.
      destruct found; simpl; [|discriminate].
      intros _. split_and!; [done|done| |].
      * intros a ->. subst accept_type.
        destruct (truthy a) eqn:Ha; [by left|]. right. by apply truthy_false.
      * destruct (proj1 Hfound eq_refl) as (domain & Hin & Hknown).
        exists to_domain, domain. split_and!; [done| |done].
        by apply Hsub.
  - intros to_domain domain Hweb Hhost Haccept Hin Hknown.
    unfold redir. rewrite Hweb, Hhost. simpl.
    pose proof (find_web_user_found
                  (set_order [domain_from_link (requested_url to args) true;
                              domain_from_link (requested_url to args) false;
                              to_domain])) as Hfound.
    destruct (find_web_user _) as [[found web_user] evs]. simpl in Hfound.
    assert (found = true) as -> by (apply Hfound; by exists domain).
    assert (is_as2 match accept with
                   | Some a => if truthy a then negotiate a else None
                   | None => None
                   end = false) as ->.
    { destruct accept as [a|]; [|done]. destruct (truthy a); [|done]. by apply Haccept. }
    done.
Qed.

(** A request that does not negotiate AS2 only looks Web users up: the
    handler resolves no protocol, loads (and so fetches) nothing, creates no
    user and converts nothing; the request ends in the 400 of [error(...)],
    in a 404 or in the 301, and never in the converted object. *)
Theorem redir_without_as2_only_looks_up (to : string)
    (args : list (string * string)) (accept : option string) :
  (∀ a, accept = Some a → is_as2 (negotiate a) = false) →
  Forall (λ e, ∃ domain, e = EvWebGetById domain) (redir to args accept).2
  ∧ status_code (redir to args accept).1 ∈ [400; 404; 301]
  ∧ ∀ as2, body (redir to args accept).1 ≠ Converted as2.
Proof.
  intros Haccept. unfold redir.
  destruct (is_web (requested_url to args)); simpl.
  2: { split_and!; [done|by apply list_elem_of_here|done]. }
  destruct (hostname (requested_url to args)) as [to_domain|e]; simpl.
  2: { split_and!; [done|by apply list_elem_of_here|done]. }
  pose proof (find_web_user_events
                (set_order [domain_from_link (requested_url to args) true;
                            domain_from_link (requested_url to args) false;
                            to_domain])) as Hevs.
  destruct (find_web_user _) as [[found web_user] evs]. simpl in Hevs.
  assert (is_as2 match accept with
                 | Some a => if truthy a then negotiate a else None
                 | None => None
                 end = false) as ->.
  { destruct accept as [a|]; [|done]. destruct (truthy a); [|done]. by apply Haccept. }
  rewrite andb_true_r. destruct found; simpl.
  - split_and!; [done| |done]. do 2 apply list_elem_of_further. apply list_elem_of_here.
  - split_and!; [done| |done]. apply list_elem_of_further, list_elem_of_here.
Qed.

End redir.

(** *** Runs of the handler *)

Definition negotiate_exact (a : string) : option ContentType :=
  if String.eqb a "application/activity+json" then Some AS2_CONTENT_TYPE
  else if String.eqb a "application/ld+json" then Some AS2_CONTENT_TYPE_LD
  else if String.eqb a "text/html" then Some CONTENT_TYPE_HTML
  else None.

Definition foo_com : User :=
  {| key_id := "foo.com"; user_label := "web"; atproto_did := None;
     enabled_protocols := []; user_obj := None |}.

Definition only_foo_com (domain : string) : option User :=
  if String.eqb domain "foo.com" then Some foo_com else None.

Definition some_post (id : string) : Object :=
  {| key := Some id; as1 := None; source_protocol := Some "web";
     status := None; undelivered := []; delivered := []; failed := [];
     copies := []; deleted := false; new := None; changed := None |}.

(** A bridge that knows the Web user [foo.com], resolves every id to Web and
    loads every id; [create] is what [Web.get_or_create] gives. *)
Definition redir_example (create : option User) :=
  redir is_web_prefix domain_of (λ _, "") (λ u, Ret (Some (host_of u)))
    negotiate_exact remove_dups only_foo_com (λ _, Some Web)
    (λ _ id, Some (some_post id)) (λ _ _, create) (λ _ _, "{}").

Lemma redir_rejects_non_web_witness :
  status_code (redir_example None "foo.com" [] None).1 = 400
  ∧ Location (redir_example None "foo.com" [] None).1 = None
  ∧ (redir_example None "foo.com" [] None).2 = [].
Proof.
  apply (redir_rejects_non_web is_web_prefix domain_of (λ _, "")
           (λ u, Ret (Some (host_of u))) negotiate_exact remove_dups
           only_foo_com (λ _, Some Web) (λ _ id, Some (some_post id))
           (λ _ _, None) (λ _ _, "{}") "foo.com" [] None).
  reflexivity.
Defined.

(** C8, as stated, fails: the path [https:/foo.com/bar], with the single
    slash a browser leaves, is not a web URL, and the request is redirected
    to [https://foo.com/bar]. *)
Lemma redir_single_slash_is_redirected :
  is_web_prefix "https:/foo.com/bar" = false
  ∧ status_code (redir_example None "https:/foo.com/bar" [] None).1 = 301
  ∧ Location (redir_example None "https:/foo.com/bar" [] None).1
    = Some "https://foo.com/bar".
Proof. by vm_compute. Qed.




Lemma remove_dups_subseteq (l : list (option string)) : remove_dups l ⊆ l.
Proof. intros x Hx. by apply (elem_of_remove_dups l x). Qed.

Lemma redir_redirects_known_domains_only_witness :
  status_code (redir_example None "https://foo.com/bar" [] (Some "text/html")).1 = 301
  ∧ Location (redir_example None "https://foo.com/bar" [] (Some "text/html")).1
    = Some "https://foo.com/bar".
Proof.
  pose proof (redir_redirects_known_domains_only is_web_prefix domain_of (λ _, "")
                (λ u, Ret (Some (host_of u))) negotiate_exact remove_dups
                only_foo_com (λ _, Some Web) (λ _ id, Some (some_post id))
                (λ _ _, None) (λ _ _, "{}") "https://foo.com/bar" []
                (Some "text/html") remove_dups_subseteq) as [Honly Hknown].
  assert (status_code (redir_example None "https://foo.com/bar" []
                         (Some "text/html")).1 = 301) as Hstatus.
  { apply (Hknown (Some "foo.com") "foo.com"); try reflexivity.
    - by intros a [= <-].
    - apply (bool_decide_unpack _). by vm_compute.
    - split; [discriminate|]. right. by eexists. }
  split; [done|].
  by destruct (Honly Hstatus) as (_ & Hlocation & _).
Defined.

Lemma redir_without_as2_only_looks_up_witness :
  Forall (λ e, ∃ domain, e = EvWebGetById domain)
    (redir_example None "https://bar.com/baz" [] (Some "text/html")).2
  ∧ status_code (redir_example None "https://bar.com/baz" [] (Some "text/html")).1
    ∈ [400; 404; 301]
  ∧ ∀ as2, body (redir_example None "https://bar.com/baz" [] (Some "text/html")).1
           ≠ Converted as2.
Proof.
  apply (redir_without_as2_only_looks_up is_web_prefix domain_of (λ _, "")
           (λ u, Ret (Some (host_of u))) negotiate_exact remove_dups
           only_foo_com (λ _, Some Web) (λ _ id, Some (some_post id))
           (λ _ _, None) (λ _ _, "{}") "https://bar.com/baz" []
           (Some "text/html")).
  by intros a [= <-].
Defined.
End Redirect.

(** ** protocol.py: [Protocol.targets], the delivery planner *)

Module Targets.
Import Common Models.

(** A Python [dict] as the list of its items in insertion order.
    [d[k] = v] replaces the value of a key it holds and appends a new one;
    [d.setdefault(k, v)] only appends. *)
Fixpoint dict_set {K V} `{EqDecision K} (k : K) (v : V) (d : list (K * V))
  : list (K * V) :=
  match d with
  | [] => [(k, v)]
  | (k', v') :: d' =>
      if decide (k = k') then (k, v) :: d' else (k', v') :: dict_set k v d'
  end.

Fixpoint dict_get {K V} `{EqDecision K} (k : K) (d : list (K * V)) : option V :=
  match d with
  | [] => None
  | (k', v') :: d' => if decide (k = k') then Some v' else dict_get k d'
  end.

Definition dict_setdefault {K V} `{EqDecision K} (k : K) (v : V)
    (d : list (K * V)) : list (K * V) :=
  match dict_get k d with
  | Some _ => d
  | None => d ++ [(k, v)]
  end.

(** [sorted] on strings. *)
Fixpoint insert_sorted (x : string) (l : list string) : list string :=
  match l with
  | [] => [x]
  | y :: l' => if String.leb x y then x :: l else y :: insert_sorted x l'
  end.

Definition sorted (l : list string) : list string :=
  foldr insert_sorted [] l.

(** An ndb key: the kind of the entity and its id. *)
Record Key : Type := {
  kind : string;
  name : string;
}.

Definition opt_eqb (a b : option string) : bool :=
  bool_decide (a = b).

Definition type_in (t : option string) (types : list string) : bool :=
  match t with
  | Some t => bool_decide (t ∈ types)
  | None => false
  end.

Definition has_as1 (o : Object) : bool := is_Some_bool (as1 o).

Definition owner_of (get_owner : AS1 → option string) (o : Object)
  : option string :=
  match as1 o with
  | Some a => get_owner a
  | None => None
  end.

Section targets.
(** granary: [as1.targets], [as1.get_owner], the ids of the inner object's
    [inReplyTo], and [Object.type] (granary's [as1.object_type]). *)
Variable as1_targets : AS1 → list string.
Variable get_owner : AS1 → option string.
Variable in_reply_to_ids : AS1 → list string.
Variable obj_type : Object → option string.
(** The registry and the datastore: [PROTOCOLS[label]], [Protocol.for_id],
    [proto.load(id)], [proto._get_kind()], [proto.key_for(id)], the active
    [Follower]s of a user as the keys of their [from_] users,
    [Protocol.for_bridgy_subdomain], [ndb.get_multi] on one key, and
    [user.target_for(user.obj, shared=True)], the class method of the user's
    own protocol class. *)
Variable PROTOCOLS : string → option Protocol.
Variable for_id : string → option Protocol.
Variable load : Protocol → string → option Object.
Variable get_kind : Protocol → string.
Variable key_for : Protocol → string → option Key.
Variable active_followers : Key → list Key.
Variable for_bridgy_subdomain : string → option Protocol.
Variable User_get : Key → option User.
Variable user_target_for : User → Object → option string.
(** webutil and configuration: [util.is_web], [util.domain_from_link],
    [util.domain_or_parent_in], [util.dedupe_urls(_, trailing_slash=False)],
    [LIMITED_DOMAINS], [ATProto.PDS_URL]. *)
Variable is_web : string → bool.
Variable domain_from_link : string → option string.
Variable domain_or_parent_in : option string → list string → bool.
Variable dedupe_urls : list string → list string.
Variable LIMITED_DOMAINS : list string.
Variable PDS_URL : string.

(** The loop over [in_reply_tos]: the kinds of the protocols a reply goes
    to, and the owners of the posts replied to. *)
Fixpoint copies_kinds (cs : list Target) (kinds : list string)
  : result (list string) :=
  match cs with
  | [] => Ret kinds
  | c :: cs' =>
      match PROTOCOLS (protocol c) with
      | None => Raise KeyError
      | Some p => copies_kinds cs' (add kinds (get_kind p))
      end
  end.

Fixpoint in_reply_to_loop (source_protocol : option string)
    (ids : list string) (kinds owners : list string)
  : result (list string * list string) :=
  match ids with
  | [] => Ret (kinds, owners)
  | in_reply_to :: rest =>
      match for_id in_reply_to with
      | None => in_reply_to_loop source_protocol rest kinds owners
      | Some proto =>
          match load proto in_reply_to with
          | None => in_reply_to_loop source_protocol rest kinds owners
          | Some in_reply_to_obj =>
              match (if negb (opt_eqb (Some (LABEL proto)) source_protocol)
                     then Ret (add kinds (get_kind proto))
                     else copies_kinds (copies in_reply_to_obj) kinds) with
              | Raise e => Raise e
              | Ret kinds' =>
                  in_reply_to_loop source_protocol rest kinds'
                    (match owner_of get_owner in_reply_to_obj with
                     | Some reply_owner =>
                         if truthy reply_owner then owners ++ [reply_owner]
                         else owners
                     | None => owners
                     end)
              end
          end
      end
  end.

(** The state of the loop over the direct targets: the map so far, whether
    a self reply was seen, and [orig_obj], what the last load gave. *)
Record Direct : Type := {
  direct_targets : list (Target * option Object);
  is_self_reply : bool;
  orig_obj : option Object;
}.

Fixpoint direct_loop (cls : Protocol) (owner : option string)
    (in_reply_to_owners : list string) (ids : list string) (st : Direct)
  : Direct :=
  match ids with
  | [] => st
  | id :: rest =>
      let continue st' :=
        direct_loop cls owner in_reply_to_owners rest st' in
      match for_id id with
      | None => continue st
      | Some protocol =>
          if is_blocklisted protocol id false then continue st
          else
            let loaded := load protocol id in
            let st1 := {| direct_targets := direct_targets st;
                          is_self_reply := is_self_reply st;
                          orig_obj := loaded |} in
            match loaded with
            | None => continue st1
            | Some o =>
                if negb (has_as1 o) then continue st1
                else
                  let st2 :=
                    {| direct_targets := direct_targets st;
                       is_self_reply :=
                         is_self_reply st
                         || opt_eqb owner (owner_of get_owner o);
                       orig_obj := loaded |} in
                  if same_protocol protocol cls
                     && negb (String.eqb (LABEL cls) "fake")
                  then continue st2
                  else if bool_decide (id ∈ in_reply_to_owners)
                  then continue st2
                  else
                    match target_for protocol o false with
                    | None => continue st2
                    | Some target =>
                        if negb (truthy target) then continue st2
                        else
                          continue
                            {| direct_targets :=
                                 dict_set {| protocol := LABEL protocol;
                                             uri := target |}
                                   (Some o) (direct_targets st);
                               is_self_reply := is_self_reply st2;
                               orig_obj := loaded |}
                    end
            end
      end
  end.

(** The loop over the followers' users. *)
Fixpoint follower_loop (share_obj : option Object) (users : list User)
    (targets : list (Target * option Object))
  : result (list (Target * option Object)) :=
  match users with
  | [] => Ret targets
  | user :: rest =>
      match (match user_obj user with
             | Some o => user_target_for user o
             | None => None
             end) with
      | None => follower_loop share_obj rest targets
      | Some target =>
          if negb (truthy target) then follower_loop share_obj rest targets
          else
            match dedupe_urls [target] with
            | [] => Raise IndexError
            | target :: _ =>
                follower_loop share_obj rest
                  (dict_set {| protocol := user_label user; uri := target |}
                     share_obj targets)
            end
      end
  end.

(** The last stage: one target per URL, none on a domain of the source. *)
Definition candidates_of (targets : list (Target * option Object))
  : list (string * (Target * option Object)) :=
  foldl (λ d item, dict_set (uri item.1) item d) [] targets.

Fixpoint dedupe_loop (candidates : list (string * (Target * option Object)))
    (source_domains : list (option string)) (urls : list string)
    (targets : list (Target * option Object))
  : result (list (Target * option Object)) :=
  match urls with
  | [] => Ret targets
  | url :: rest =>
      if is_web url && bool_decide (domain_from_link url ∈ source_domains)
      then dedupe_loop candidates source_domains rest targets
      else
        match dict_get url candidates with
        | None => Raise KeyError
        | Some (target, obj) =>
            dedupe_loop candidates source_domains rest
              (dict_set target obj targets)
        end
  end.

(** [Protocol.targets]: the map from [Target] to the original Object, or
    [None].  The additions to [notify] and [feed] that the method makes on
    the way are not part of the map and are left out. *)
Definition targets (cls : Protocol) (obj : Object) (from_user : User)
  : result (list (Target * option Object)) :=
  match as1 obj with
  | None => Raise AttributeError
  | Some a =>
      let target_uris := sorted (remove_dups (as1_targets a)) in
      let owner := get_owner a in
      let in_reply_tos := in_reply_to_ids a in
      match in_reply_to_loop (source_protocol obj) in_reply_tos [] [] with
      | Raise e => Raise e
      | Ret (in_reply_to_protocols, in_reply_to_owners) =>
          let is_reply :=
            opt_eqb (obj_type obj) (Some "comment") || nonempty in_reply_tos in
          if is_reply && negb (nonempty in_reply_to_protocols) then Ret []
          else
            let direct :=
              direct_loop cls owner in_reply_to_owners (sorted target_uris)
                {| direct_targets := []; is_self_reply := false;
                   orig_obj := None |} in
            let targets := direct_targets direct in
            match (match owner with
                   | Some o => if truthy o then key_for cls o else None
                   | None => None
                   end) with
            | None => Ret targets
            | Some user_key =>
                match
                  (if type_in (obj_type obj) ["post"; "update"; "delete"; "share"]
                      && (negb is_reply
                          || (is_self_reply direct
                              && nonempty in_reply_to_protocols))
                   then
                     let followers :=
                       filter (λ k, for_bridgy_subdomain (name k) = None)
                         (active_followers user_key) in
                     let user_keys :=
                       if is_reply
                       then filter (λ k, kind k ∈ in_reply_to_protocols)
                              followers
                       else followers in
                     let users := omap User_get user_keys in
                     let targets :=
                       if bool_decide ("atproto" ∈ enabled_protocols from_user)
                       then
                         if negb (nonempty followers)
                            && (domain_or_parent_in
                                  (domain_from_link (key_id from_user))
                                  LIMITED_DOMAINS
                                || domain_or_parent_in
                                     (domain_from_link (default "" (key obj)))
                                     LIMITED_DOMAINS)
                         then targets
                         else if (is_reply
                                  || opt_eqb (obj_type obj) (Some "share"))
                                 && negb (nonempty targets)
                         then targets
                         else dict_setdefault
                                {| protocol := "atproto"; uri := PDS_URL |}
                                None targets
                       else targets in
                     follower_loop
                       (if opt_eqb (obj_type obj) (Some "share")
                        then orig_obj direct else None)
                       users targets
                   else Ret targets)
                with
                | Raise e => Raise e
                | Ret targets =>
                    let candidates := candidates_of targets in
                    let source_domains :=
                      omap (λ u, match u with
                                 | Some u =>
                                     if is_web u then Some (domain_from_link u)
                                     else None
                                 | None => None
                                 end)
                        [as1_id a; url a; get_owner a] in
                    dedupe_loop candidates source_domains
                      (sorted (dedupe_urls candidates.*1)) []
                end
            end
      end
  end.

(** *** No target on the sender's own protocol *)


Lemma elem_of_dict_set {K V} `{EqDecision K} (k : K) (v : V)
    (d : list (K * V)) (x : K * V) :
  x ∈ dict_set k v d → x = (k, v) ∨ x ∈ d.
Proof.
  induction d as [|[k' v'] d IH]; simpl; intros Hx.
  - apply list_elem_of_singleton in Hx. by left.
  - destruct (decide (k = k')) as [->|Hne].
    + apply elem_of_cons in Hx as [->|Hx]; [by left|].
      right. by apply elem_of_cons; right.
    + apply elem_of_cons in Hx as [->|Hx].
      * right. by apply elem_of_cons; left.
      * destruct (IH Hx) as [->|Hd]; [by left|].
        right. by apply elem_of_cons; right.
Qed.

Lemma dict_get_elem {K V} `{EqDecision K} (k : K) (v : V) (d : list (K * V)) :
  dict_get k d = Some v → (k, v) ∈ d.
Proof.
  induction d as [|[k' v'] d IH]; simpl; [discriminate|].
  destruct (decide (k = k')) as [->|Hne].
  - intros [= ->]. by apply elem_of_cons; left.
  - intros Hget. apply elem_of_cons; right. by apply IH.
Qed.








(** *** The map is a map, with one target per URL and none on the sender's
    own domains *)

Lemma dict_set_keys {K V} `{EqDecision K} (k : K) (v : V) (d : list (K * V)) :
  (dict_set k v d).*1 = if bool_decide (k ∈ d.*1) then d.*1 else (d.*1 ++ [k])%list.
Proof.
  induction d as [|[k' v'] d IH].
  - done.
  - change ((dict_set k v ((k', v') :: d)).*1
            = if bool_decide (k ∈ k' :: d.*1) then k' :: d.*1
              else (k' :: d.*1 ++ [k])%list).
    simpl. destruct (decide (k = k')) as [->|Hne].
    + rewrite bool_decide_eq_true_2; [done|apply list_elem_of_here].
    + change (k' :: (dict_set k v d).*1
              = if bool_decide (k ∈ k' :: d.*1) then k' :: d.*1
                else (k' :: d.*1 ++ [k])%list).
      rewrite IH. case_bool_decide as Hin.
      * rewrite bool_decide_eq_true_2; [done|by apply list_elem_of_further].
      * rewrite bool_decide_eq_false_2; [done|].
        intros [?|?]%elem_of_cons; done.
Qed.

Lemma NoDup_snoc {A} (l : list A) (x : A) : NoDup l → x ∉ l → NoDup (l ++ [x]).
Proof.
  intros Hl Hx. apply NoDup_app. split_and!; [done| |apply NoDup_singleton].
  intros y Hy Hy'%list_elem_of_singleton. by subst.
Qed.

Lemma dict_set_NoDup {K V} `{EqDecision K} (k : K) (v : V) (d : list (K * V)) :
  NoDup d.*1 → NoDup (dict_set k v d).*1.
Proof.
  intros Hd. rewrite dict_set_keys. case_bool_decide; [done|]. by apply NoDup_snoc.
Qed.

Lemma dict_get_None {K V} `{EqDecision K} (k : K) (d : list (K * V)) :
  dict_get k d = None → k ∉ d.*1.
Proof.
  induction d as [|[k' v'] d IH]; simpl; [intros _; apply not_elem_of_nil|].
  destruct (decide (k = k')) as [->|Hne]; [done|].
  intros H [?|?]%elem_of_cons; [done|]. by apply IH.
Qed.

Lemma dict_setdefault_NoDup {K V} `{EqDecision K} (k : K) (v : V)
    (d : list (K * V)) :
  NoDup d.*1 → NoDup (dict_setdefault k v d).*1.
Proof.
  intros Hd. unfold dict_setdefault.
  destruct (dict_get k d) eqn:Hget; [done|].
  rewrite fmap_app. simpl. apply NoDup_snoc; [done|]. by apply dict_get_None.
Qed.

Lemma direct_loop_NoDup (cls : Protocol) (owner : option string)
    (in_reply_to_owners ids : list string) (st : Direct) :
  NoDup (direct_targets st).*1 →
  NoDup (direct_targets (direct_loop cls owner in_reply_to_owners ids st)).*1.
Proof.
  revert st. induction ids as [|id rest IH]; intros st Hst; simpl; [done|].
  destruct (for_id id) as [proto|]; [|by apply IH].
  destruct (is_blocklisted proto id false); [by apply IH|].
  destruct (load proto id) as [o|]; [|by apply IH].
  destruct (negb (has_as1 o)); [by apply IH|].
  destruct (same_protocol proto cls && negb (String.eqb (LABEL cls) "fake"));
    [by apply IH|].
  destruct (bool_decide (id ∈ in_reply_to_owners)); [by apply IH|].
  destruct (target_for proto o false) as [target|]; [|by apply IH].
  destruct (negb (truthy target)); [by apply IH|].
  apply IH. simpl. by apply dict_set_NoDup.
Qed.

Lemma follower_loop_NoDup (share_obj : option Object) (users : list User)
    (d d' : list (Target * option Object)) :
  NoDup d.*1 → follower_loop share_obj users d = Ret d' → NoDup d'.*1.
Proof.
  revert d. induction users as [|user rest IH]; intros d Hd; simpl.
  - by intros [= <-].
  - destruct (match user_obj user with
              | Some o => user_target_for user o | None => None end)
      as [target|]; [|by apply IH].
    destruct (negb (truthy target)); [by apply IH|].
    destruct (dedupe_urls [target]) as [|target' ?]; [discriminate|].
    apply IH. by apply dict_set_NoDup.
Qed.

(** The candidates are keyed by the URIs of their targets. *)
Lemma candidates_of_keys (d : list (Target * option Object)) (u : string)
    (x : Target * option Object) :
  (u, x) ∈ candidates_of d → u = uri x.1.
Proof.
  unfold candidates_of.
  assert (∀ acc, (∀ u x, (u, x) ∈ acc → u = uri x.1) →
                 (u, x) ∈ foldl (λ c item, dict_set (uri item.1) item c) acc d →
                 u = uri x.1) as Hgen.
  { induction d as [|item d IH]; intros acc Hacc Hin; simpl in Hin;
      [by apply Hacc|].
    apply (IH (dict_set (uri item.1) item acc)); [|done].
    intros u' x' [[= -> ->]|Hold]%elem_of_dict_set; [done|by apply Hacc]. }
  apply Hgen. intros u' x' H'. by apply not_elem_of_nil in H'.
Qed.

(** What the last stage keeps: every target is a candidate, found under its
    own URI, that passed the same-domain check. *)
Definition picked (candidates : list (string * (Target * option Object)))
    (source_domains : list (option string)) (d : list (Target * option Object))
  : Prop :=
  NoDup d.*1
  ∧ ∀ t o, (t, o) ∈ d →
      (∃ o', dict_get (uri t) candidates = Some (t, o'))
      ∧ is_web (uri t) && bool_decide (domain_from_link (uri t) ∈ source_domains)
        = false.

Lemma dedupe_loop_picked
    (candidates : list (string * (Target * option Object)))
    (source_domains : list (option string)) (urls : list string)
    (d d' : list (Target * option Object)) :
  (∀ u x, (u, x) ∈ candidates → u = uri x.1) →
  picked candidates source_domains d →
  dedupe_loop candidates source_domains urls d = Ret d' →
  picked candidates source_domains d'.
Proof.
  intros Hkeys. revert d.
  induction urls as [|url rest IH]; intros d Hd; simpl.
  - by intros [= <-].
  - destruct (is_web url && _) eqn:Hcheck; [by apply IH|].
    destruct (dict_get url candidates) as [[t o]|] eqn:Hget; [|discriminate].
    apply IH. destruct Hd as [Hnd Hd]. split; [by apply dict_set_NoDup|].
    pose proof (Hkeys _ _ (dict_get_elem _ _ _ Hget)) as Huri. simpl in Huri.
    intros t' o' [[= -> ->]|Hin]%elem_of_dict_set; [|by apply (Hd t' o')].
    rewrite <- Huri. split; [by exists o|done].
Qed.

(** [targets] returns a dict: no [Target] is listed twice. *)
Lemma targets_keys_NoDup (cls : Protocol) (obj : Object) (from_user : User)
    (d : list (Target * option Object)) :
  targets cls obj from_user = Ret d → NoDup d.*1.
Proof.
  unfold targets.
  destruct (as1 obj) as [a|]; [|discriminate].
  destruct (in_reply_to_loop _ _ _ _) as [[kinds owners]|]; [|discriminate].
  destruct (_ && negb (nonempty kinds)).
  { intros [= <-]. apply NoDup_nil_2. }
  set (direct := direct_loop cls (get_owner a) owners _ _).
  assert (NoDup (direct_targets direct).*1) as Hdirect.
  { apply direct_loop_NoDup. apply NoDup_nil_2. }
  destruct (match get_owner a with
            | Some o => if truthy o then key_for cls o else None
            | None => None end) as [user_key|].
  2: { by intros [= <-]. }
  match goal with
  | |- match ?fanout with _ => _ end = _ → _ =>
      destruct fanout as [fanned|] eqn:Hfan; [|discriminate]
  end.
  intros Hdedupe.
  eapply (dedupe_loop_picked _ _ _ []); [|split|exact Hdedupe].
  - intros u x. apply candidates_of_keys.
  - apply NoDup_nil_2.
  - intros t o Hin. by apply not_elem_of_nil in Hin.
Qed.

(** When the owner of the activity has a user key, so that the planner runs
    to its end: no two targets share a URL, and no target is a web URL on
    the domain of the activity's id, of its [url] or of its owner. *)
Theorem targets_deduped (cls : Protocol) (obj : Object) (from_user : User)
    (a : AS1) (owner : string) (user_key : Key)
    (d : list (Target * option Object)) :
  as1 obj = Some a →
  get_owner a = Some owner →
  owner ≠ "" →
  key_for cls owner = Some user_key →
  targets cls obj from_user = Ret d →
  NoDup (uri <$> d.*1)
  ∧ ∀ t o u, (t, o) ∈ d →
      Some u ∈ [as1_id a; url a; get_owner a] →
      is_web u = true → is_web (uri t) = true →
      domain_from_link (uri t) ≠ domain_from_link u.
Proof.
  intros Has1 Howner Hne%truthy_true Hkey. unfold targets.
  rewrite Has1, Howner, Hne, Hkey.
  destruct (in_reply_to_loop _ _ _ _) as [[kinds owners]|]; [|discriminate].
  destruct (_ && negb (nonempty kinds)).
  { intros [= <-]. split; [apply NoDup_nil_2|].
    intros t o u Hin. by apply not_elem_of_nil in Hin. }
  match goal with
  | |- match ?fanout with _ => _ end = _ → _ =>
      destruct fanout as [fanned|] eqn:Hfan; [|discriminate]
  end.
  intros Hdedupe.
  assert (picked (candidates_of fanned)
            (omap (λ u, match u with
                        | Some u =>
                            if is_web u then Some (domain_from_link u) else None
                        | None => None
                        end) [as1_id a; url a; Some owner]) d)
    as [Hnd Hpicked].
  { eapply (dedupe_loop_picked _ _ _ []); [|split|exact Hdedupe].
    - intros u x. apply candidates_of_keys.
    - apply NoDup_nil_2.
    - intros t o Hin. by apply not_elem_of_nil in Hin. }
  split.
  - apply NoDup_fmap_2_strong; [|done].
    intros t1 t2 Ht1 Ht2 Huri.
    apply list_elem_of_fmap in Ht1 as ([? o1] & -> & Hin1).
    apply list_elem_of_fmap in Ht2 as ([? o2] & -> & Hin2).
    simpl in *.
    destruct (Hpicked _ _ Hin1) as [[o1' Hget1] _].
    destruct (Hpicked _ _ Hin2) as [[o2' Hget2] _].
    rewrite Huri in Hget1. rewrite Hget1 in Hget2. by injection Hget2.
  - intros t o u Hin Hu Hweb Hwebt Hsame.
    destruct (Hpicked _ _ Hin) as [_ Hcheck].
    rewrite Hwebt, andb_true_l in Hcheck.
    apply bool_decide_eq_false in Hcheck. apply Hcheck.
    apply list_elem_of_omap. exists (Some u).
    split; [done|]. by rewrite Hweb, Hsame.
Qed.

(** *** [Protocol.deliver] *)

(** [sorted(targets.items(), key=lambda t: t[0].uri)]. *)
Fixpoint insert_by_uri (item : Target * option Object)
    (l : list (Target * option Object)) : list (Target * option Object) :=
  match l with
  | [] => [item]
  | x :: rest =>
      if String.leb (uri item.1) (uri x.1) then item :: l
      else x :: insert_by_uri item rest
  end.

Definition sorted_by_uri (l : list (Target * option Object))
  : list (Target * option Object) :=
  foldr insert_by_uri [] l.

(** What [deliver] answers: 202, the 204 of [error], or what [targets]
    raised. *)
Inductive Answer : Type :=
| Accepted
| NothingToDo
| Failed (e : exn).

(** [obj.put()], in the datastore of the send handler; an Object that
    reaches [deliver] has a key. *)
Definition Object_put (obj : Object) (w : SendTask.World) : SendTask.World :=
  match key obj with
  | Some k => {| SendTask.objects := <[k := obj]> (SendTask.objects w);
                 SendTask.sends := SendTask.sends w |}
  | None => w
  end.

(** The parameters of one send task.  Keys stand for their urlsafe forms. *)
Definition send_form (obj : Object) (from_user : User)
    (item : Target * option Object) : SendTask.SendForm :=
  {| SendTask.form_url := Some (uri item.1);
     SendTask.form_protocol := Some (protocol item.1);
     SendTask.form_obj := key obj;
     SendTask.form_orig_obj :=
       Some (match item.2 with
             | Some orig_obj => default "" (key orig_obj)
             | None => ""
             end);
     SendTask.form_user := Some (key_id from_user);
     SendTask.force := false |}.

(** [deliver]: the answer, the datastore, and the send tasks created.  This
    is the Object under delivery and its tasks.  What [targets] does on the
    way besides computing the map (it puts the Object it adds to the
    followers' feeds, and [load] stores what it fetches, under other keys)
    is not in the model, and neither is the running of a task at once by
    [create_task] on a local server. *)
Definition deliver (from_cls : Protocol) (obj : Object) (from_user : User)
    (w : SendTask.World) : Answer * SendTask.World * list SendTask.SendForm :=
  match targets from_cls obj from_user with
  | Raise e => (Failed e, w, [])
  | Ret targets =>
      if negb (nonempty targets)
      then (NothingToDo, Object_put (set_status (Some StIgnored) obj) w, [])
      else
        let sorted_targets := sorted_by_uri targets in
        let obj := SendTask.populate_for_delivery sorted_targets.*1 obj in
        (Accepted, Object_put obj w, map (send_form obj from_user) sorted_targets)
  end.


Lemma insert_by_uri_perm (item : Target * option Object)
    (l : list (Target * option Object)) :
  insert_by_uri item l ≡ₚ item :: l.
Proof.
  induction l as [|x l IH]; simpl; [done|].
  destruct (String.leb _ _); [done|].
  rewrite IH. apply Permutation_swap.
Qed.

Lemma sorted_by_uri_perm (l : list (Target * option Object)) :
  sorted_by_uri l ≡ₚ l.
Proof.
  induction l as [|x l IH]; simpl; [done|].
  by rewrite insert_by_uri_perm, IH.
Qed.

(** What [deliver] leaves behind when it answers 202. *)
Lemma deliver_accepted (from_cls : Protocol) (obj : Object) (from_user : User)
    (w w' : SendTask.World) (forms : list SendTask.SendForm) (k : string) :
  key obj = Some k →
  deliver from_cls obj from_user w = (Accepted, w', forms) →
  ∃ d, targets from_cls obj from_user = Ret d
    ∧ d ≠ []
    ∧ NoDup (sorted_by_uri d).*1
    ∧ w' = {| SendTask.objects :=
                <[k := SendTask.populate_for_delivery (sorted_by_uri d).*1 obj]>
                  (SendTask.objects w);
              SendTask.sends := SendTask.sends w |}
    ∧ forms = map (send_form obj from_user) (sorted_by_uri d).
Proof.
  intros Hkey. unfold deliver.
  destruct (targets from_cls obj from_user) as [d|e] eqn:Htargets; [|done].
  destruct d as [|item d']; [done|]. simpl negb. cbv iota.
  intros [= <- <-]. exists (item :: d'). split_and!; [done|done| | |].
  - rewrite sorted_by_uri_perm. by apply (targets_keys_NoDup from_cls obj from_user).
  - unfold Object_put. simpl. by rewrite Hkey.
  - apply map_ext. intros [t o]. unfold send_form. simpl. done.
Qed.



(** What [deliver] writes and enqueues.  When it answers 202 for an Object
    with a key, the Object stored under that key is in progress, with nothing
    delivered or failed and a non-empty [undelivered] list without duplicates
    that holds exactly the targets the planner found; one send task is
    created per undelivered target, in the same order, each naming the
    Object and not forced. *)
Theorem deliver_plans_every_target (from_cls : Protocol) (obj : Object)
    (from_user : User) (w w' : SendTask.World)
    (forms : list SendTask.SendForm) (k : string) :
  key obj = Some k →
  deliver from_cls obj from_user w = (Accepted, w', forms) →
  ∃ stored d,
    SendTask.objects w' !! k = Some stored
    ∧ targets from_cls obj from_user = Ret d
    ∧ status stored = Some StInProgress
    ∧ delivered stored = [] ∧ failed stored = []
    ∧ undelivered stored ≠ []
    ∧ NoDup (undelivered stored)
    ∧ (∀ t, t ∈ undelivered stored ↔ t ∈ d.*1)
    ∧ (λ f, (SendTask.form_protocol f, SendTask.form_url f)) <$> forms
      = (λ t, (Some (protocol t), Some (uri t))) <$> undelivered stored
    ∧ (∀ f, f ∈ forms → SendTask.form_obj f = Some k ∧ SendTask.force f = false).
Proof.
  intros Hkey Hrun.
  destruct (deliver_accepted _ _ _ _ _ _ _ Hkey Hrun)
    as (d & Htargets & Hne & Hnd & -> & ->).
  exists (SendTask.populate_for_delivery (sorted_by_uri d).*1 obj), d.
  split_and!; try done.
  - apply lookup_insert_eq.
  - simpl. intros Hnil. apply Hne.
    apply fmap_nil_inv in Hnil.
    apply Permutation_nil_r. by rewrite <- Hnil, sorted_by_uri_perm.
  - intros t. simpl. by rewrite sorted_by_uri_perm.
  - simpl. rewrite <- !list_fmap_compose. by apply list_fmap_ext.
  - intros f (item & -> & _)%list_elem_of_fmap. done.
Qed.


End targets.

(** *** Runs of the planner *)

(** A bridge with three protocols.  An id is resolved by its shape; every id
    is stored, as an actor whose inbox is [<id>/inbox]; [user.com] has one
    active follower, [https://inst/carol] on ActivityPub. *)
Definition plugin (label abbrev : string) : Protocol :=
  {| LABEL := label; ABBREV := abbrev; HAS_COPIES := false;
     owns_id := λ _, None; owns_handle := λ _, None;
     get_by_id := λ _, None; get_for_copy := λ _, None;
     is_blocklisted := λ _ _, false;
     target_for := λ o _, (λ k, k +:+ "/inbox") <$> key o |}.

Definition registry (label : string) : option Protocol :=
  if String.eqb label "web" then Some (plugin "web" "web")
  else if String.eqb label "activitypub" then Some (plugin "activitypub" "ap")
  else if String.eqb label "fake" then Some (plugin "fake" "fa")
  else None.

Definition resolve (id : string) : option Protocol :=
  if startswith "fake:" id then registry "fake"
  else if startswith "https://inst/" id then registry "activitypub"
  else registry "web".

Definition actor_object (id : string) : Object :=
  {| key := Some id;
     as1 := Some {| as1_id := Some id; objectType := Some "person";
                    verb := None; actor := None; url := None; content := "" |};
     source_protocol := LABEL <$> resolve id; status := None;
     undelivered := []; delivered := []; failed := []; copies := [];
     deleted := false; new := None; changed := None |}.

Definition post_by (author id : string) : Object :=
  {| key := Some id;
     as1 := Some {| as1_id := Some id; objectType := Some "activity";
                    verb := Some "post"; actor := Some author; url := None;
                    content := "hello" |};
     source_protocol := LABEL <$> resolve author; status := None;
     undelivered := []; delivered := []; failed := []; copies := [];
     deleted := false; new := None; changed := None |}.

Definition user_of (k : Key) : User :=
  {| key_id := name k; user_label := kind k; atproto_did := None;
     enabled_protocols := []; user_obj := Some (actor_object (name k)) |}.

Definition followers_of (followee : Key) : list Key :=
  if String.eqb (name followee) "user.com"
  then [{| kind := "activitypub"; name := "https://inst/carol" |}]
  else [].

(** [mentioned] is what [as1.targets] finds in the activity. *)
Definition targets_example (mentioned : list string) :=
  targets (λ _, mentioned) actor (λ _, []) (λ o, as1 o ≫= verb)
    registry resolve (λ _ id, Some (actor_object id)) LABEL
    (λ p id, Some {| kind := LABEL p; name := id |})
    followers_of (λ _, None) (λ k, Some (user_of k))
    (λ u _, Some (key_id u +:+ "/inbox"))
    Webutil.is_web_prefix (λ u, Webutil.domain_of u true)
    (λ d l, match d with Some d => Webutil.domain_in d l | None => false end)
    remove_dups [] "https://atproto.brid.gy".

Definition on_activitypub (id : string) (o : option Object)
  : Target * option Object :=
  ({| protocol := "activitypub"; uri := id +:+ "/inbox" |}, o).







(** *** Runs of a delivery *)

Definition deliver_example (mentioned : list string) :=
  deliver (λ _, mentioned) actor (λ _, []) (λ o, as1 o ≫= verb)
    registry resolve (λ _ id, Some (actor_object id)) LABEL
    (λ p id, Some {| kind := LABEL p; name := id |})
    followers_of (λ _, None) (λ k, Some (user_of k))
    (λ u _, Some (key_id u +:+ "/inbox"))
    Webutil.is_web_prefix (λ u, Webutil.domain_of u true)
    (λ d l, match d with Some d => Webutil.domain_in d l | None => false end)
    remove_dups [] "https://atproto.brid.gy".

Definition nothing_yet : SendTask.World :=
  {| SendTask.objects := ∅; SendTask.sends := [] |}.


Definition bob_and_carol : list (Target * option Object) :=
  [on_activitypub "https://inst/bob" (Some (actor_object "https://inst/bob"));
   on_activitypub "https://inst/carol" None].

Lemma targets_example_bob_and_carol :
  targets_example ["https://inst/bob"; "https://user.com/about"]
    (plugin "web" "web") (post_by "user.com" "https://user.com/post")
    (user_of {| kind := "web"; name := "user.com" |})
  = Ret bob_and_carol.
Proof. by vm_compute. Qed.

Lemma targets_deduped_witness :
  NoDup (uri <$> bob_and_carol.*1)
  ∧ ∀ t o u, (t, o) ∈ bob_and_carol →
      Some u ∈ [Some "https://user.com/post"; None; Some "user.com"] →
      Webutil.is_web_prefix u = true → Webutil.is_web_prefix (uri t) = true →
      Webutil.domain_of (uri t) true ≠ Webutil.domain_of u true.
Proof.
  refine (targets_deduped _ _ _ _ _ _ _ _ _ _ _ _ _ _ _ _ _ _ _
            (plugin "web" "web") (post_by "user.com" "https://user.com/post")
            (user_of {| kind := "web"; name := "user.com" |})
            {| as1_id := Some "https://user.com/post";
               objectType := Some "activity"; verb := Some "post";
               actor := Some "user.com"; url := None; content := "hello" |}
            "user.com" {| kind := "web"; name := "user.com" |} bob_and_carol
            _ _ _ _ targets_example_bob_and_carol); try reflexivity.
  discriminate.
Defined.

Lemma deliver_plans_every_target_witness :
  ∃ stored d,
    SendTask.objects
      (deliver_example ["https://inst/bob"; "https://user.com/about"]
         (plugin "web" "web") (post_by "user.com" "https://user.com/post")
         (user_of {| kind := "web"; name := "user.com" |}) nothing_yet).1.2
      !! "https://user.com/post" = Some stored
    ∧ targets_example ["https://inst/bob"; "https://user.com/about"]
        (plugin "web" "web") (post_by "user.com" "https://user.com/post")
        (user_of {| kind := "web"; name := "user.com" |}) = Ret d
    ∧ status stored = Some StInProgress
    ∧ undelivered stored = bob_and_carol.*1.
Proof.
  set (run := deliver_example ["https://inst/bob"; "https://user.com/about"]
                (plugin "web" "web") (post_by "user.com" "https://user.com/post")
                (user_of {| kind := "web"; name := "user.com" |}) nothing_yet).
  assert (run = (Accepted, run.1.2, run.2)) as Hrun by (by vm_compute).
  destruct (deliver_plans_every_target _ _ _ _ _ _ _ _ _ _ _ _ _ _ _ _ _ _ _
              (plugin "web" "web") (post_by "user.com" "https://user.com/post")
              (user_of {| kind := "web"; name := "user.com" |}) nothing_yet
              run.1.2 run.2 "https://user.com/post" eq_refl Hrun)
    as (stored & d & Hget & Htargets & Hstatus & _).
  exists stored, d. split_and!; [exact Hget|exact Htargets|exact Hstatus|].
  vm_compute in Hget. by injection Hget as <-.
Defined.

End Targets.

(** ** protocol.py: [Protocol.load] *)

Module Load.
Import Common Models.

(** What a fetch, and so a load, can raise: a failed [assert], werkzeug's
    [BadGateway], another werkzeug [HTTPException], an exception that
    webutil's [interpret_http_exception] reads an HTTP code from, a
    [KeyError], and anything else. *)
Inductive error : Type :=
| Assertion
| BadGateway
| HTTPException
| HTTPCoded
| MissingKey
| Other.

Inductive loaded (A : Type) : Type :=
| Done (a : A)
| Failed (e : error).
Arguments Done {A} a.
Arguments Failed {A} e.

(** [cls.fetch(obj)] fills [obj] in and returns [True], returns [False], or
    raises. *)
Inductive fetched : Type :=
| Fetched (obj : Object)
| NotFetched
| FetchRaised (e : error).

Definition set_changed (b : option bool) (o : Object) : Object :=
  {| key := key o; as1 := as1 o; source_protocol := source_protocol o;
     status := status o; undelivered := undelivered o;
     delivered := delivered o; failed := failed o; copies := copies o;
     deleted := deleted o; new := new o; changed := b |}.

Definition set_source_protocol (label : option string) (o : Object) : Object :=
  {| key := key o; as1 := as1 o; source_protocol := label;
     status := status o; undelivered := undelivered o;
     delivered := delivered o; failed := failed o; copies := copies o;
     deleted := deleted o; new := new o; changed := changed o |}.

(** What the datastore keeps of an Object: [new] and [changed] are
    attributes of the instance in memory, set by [load] and carried over by
    hand in [receive]; they are not stored. *)
Definition persisted (obj : Object) : Object :=
  set_changed None (Receive.set_new None obj).

Section load.
(** The datastore: [Object.get_by_id] and [obj.put()]. *)
Variable World : Type.
Variable Object_get_by_id : World → string → option Object.
Variable Object_put : Object → World → World.
(** Of an Object: whether [raw] is set, whether [updated] is older than
    [OBJECT_REFRESH_AGE], [clear()], [Object(id=id)], whether the entity is
    over [MAX_ENTITY_SIZE], [resolve_ids()], [normalize_ids()] and
    [activity_changed(orig_as1)]. *)
Variable has_raw : Object → bool.
Variable is_stale : Object → bool.
Variable Object_clear : Object → Object.
Variable Object_new : string → Object.
Variable too_big : Object → bool.
Variable resolve_ids : Object → Object.
Variable normalize_ids : Object → Object.
Variable activity_changed : Object → option AS1 → bool.
(** The class's [fetch], which goes over the network. *)
Variable fetch : Protocol → Object → World → fetched * World.

(** The first step: the stored Object, marked not new when it holds data. *)
Definition load_local (id : string) (w : World) : option Object :=
  match Object_get_by_id w id with
  | Some obj =>
      if is_Some_bool (as1 obj) || has_raw obj || deleted obj
      then Some (Receive.set_new (Some false) obj)
      else Some obj
  | None => None
  end.

(** From [if obj:] on: fetch, check, normalize, store. *)
Definition fetch_and_store (cls : Protocol) (id : string) (local : bool)
    (obj : option Object) (w : World) : loaded (option Object) * World :=
  let '(obj, orig_as1) :=
    match obj with
    | Some obj => (Receive.set_new (Some false) (Object_clear obj), as1 obj)
    | None =>
        (if local
         then set_changed (Some false) (Receive.set_new (Some true) (Object_new id))
         else Object_new id, None)
    end in
  match fetch cls obj w with
  | (FetchRaised e, w) => (Failed e, w)
  | (NotFetched, w) => (Done None, w)
  | (Fetched obj, w) =>
      if too_big obj then (Done None, w)
      else
        let obj := normalize_ids (resolve_ids obj) in
        let obj :=
          if bool_decide (new obj = Some false)
          then set_changed (Some (activity_changed obj orig_as1)) obj
          else obj in
        let obj :=
          if bool_decide (source_protocol obj = Some (LABEL cls))
             || bool_decide (source_protocol obj = Some (ABBREV cls))
          then obj
          else set_source_protocol (Some (LABEL cls)) obj in
        (Done (Some obj), Object_put obj w)
  end.

(** [remote] is [None], [True] or [False]. *)
Definition load (cls : Protocol) (id : string) (remote : option bool)
    (local : bool) (w : World) : loaded (option Object) * World :=
  if negb (truthy id) then (Failed Assertion, w)
  else if negb (local || negb (bool_decide (remote = Some false)))
  then (Failed Assertion, w)
  else
    let obj := if local then load_local id w else None in
    match remote with
    | Some false => (Done obj, w)
    | Some true => fetch_and_store cls id local obj w
    | None =>
        match obj with
        | Some stored =>
            if is_stale stored then fetch_and_store cls id local obj w
            else (Done obj, w)
        | None => fetch_and_store cls id local obj w
        end
    end.

(** Where a loaded Object comes from. *)
Definition from_datastore (id : string) (w : World) (obj : Object) : Prop :=
  ∃ stored, Object_get_by_id w id = Some stored
    ∧ (obj = stored ∨ obj = Receive.set_new (Some false) stored).

Lemma load_local_from_datastore (id : string) (w : World) (obj : Object) :
  load_local id w = Some obj → from_datastore id w obj.
Proof.
  unfold load_local, from_datastore.
  destruct (Object_get_by_id w id) as [stored|]; [|done].
  destruct (_ || _); intros [= <-]; exists stored; auto.
Qed.

Lemma fetch_and_store_stored (cls : Protocol) (id : string) (local : bool)
    (obj : option Object) (w w' : World) (got : Object) :
  fetch_and_store cls id local obj w = (Done (Some got), w') →
  (source_protocol got = Some (LABEL cls)
   ∨ source_protocol got = Some (ABBREV cls))
  ∧ ∃ sent filled w1, fetch cls sent w = (Fetched filled, w1)
      ∧ too_big filled = false
      ∧ w' = Object_put got w1.
Proof.
  unfold fetch_and_store.
  destruct obj as [stored|].
  - destruct (fetch cls _ w) as [[filled| |e] w1] eqn:Hfetch; [|done..].
    destruct (too_big filled) eqn:Hbig; [done|].
    intros [= <- <-]. split.
    + repeat case_bool_decide; simpl; auto.
    + by eexists _, filled, w1.
  - destruct (fetch cls _ w) as [[filled| |e] w1] eqn:Hfetch; [|done..].
    destruct (too_big filled) eqn:Hbig; [done|].
    intros [= <- <-]. split.
    + repeat case_bool_decide; simpl; auto.
    + by eexists _, filled, w1.
Qed.


(** A second load finds what the first one stored.  When an Object that was
    not stored is loaded, which takes a fetch, and [get_by_id] then gives
    back what was put, less the transient [new] and [changed], and still
    fresh, later loads with [remote] left out or [False] return that stored
    Object, marked not new if it holds data, without a fetch or a write. *)
Theorem load_again_is_local (cls : Protocol) (id : string) (remote : option bool)
    (local : bool) (w w' : World) (got : Object) (again : option bool) :
  Object_get_by_id w id = None →
  load cls id remote local w = (Done (Some got), w') →
  (∀ w1, Object_get_by_id (Object_put got w1) id = Some (persisted got)) →
  is_stale (persisted got) = false →
  is_stale (Receive.set_new (Some false) (persisted got)) = false →
  again ≠ Some true →
  load cls id again true w'
  = (Done (Some (if is_Some_bool (as1 got) || has_raw (persisted got)
                    || deleted got
                 then Receive.set_new (Some false) (persisted got)
                 else persisted got)), w').
Proof.
  intros Hnone Hload Hput Hfresh Hfresh' Hagain.
  assert (truthy id = true) as Hid.
  { unfold load in Hload. by destruct (truthy id). }
  assert (∃ w1, w' = Object_put got w1) as [w1 ->].
  { unfold load in Hload. rewrite Hid in Hload. simpl in Hload.
    assert (load_local id w = None) as Hlocal
      by (unfold load_local; by rewrite Hnone).
    assert (∀ obj, fetch_and_store cls id local obj w = (Done (Some got), w') →
                   ∃ w1, w' = Object_put got w1) as Hfs.
    { intros obj H. apply fetch_and_store_stored in H as (_ & ? & ? & w1 & _ & _ & ->).
      by exists w1. }
    destruct remote as [[]|]; destruct local; rewrite ?Hlocal in Hload;
      simpl in Hload; try exact (Hfs _ Hload); done. }
  unfold load. rewrite Hid. simpl.
  unfold load_local. rewrite Hput.
  change (as1 (persisted got)) with (as1 got).
  change (deleted (persisted got)) with (deleted got).
  destruct (_ || _) eqn:Hdata.
  - destruct again as [[]|]; [done|done|]. by rewrite Hfresh'.
  - destruct again as [[]|]; [done|done|]. by rewrite Hfresh.
Qed.

End load.


(** *** A run: a datastore that is a map from ids to Objects, and a fetch
    that always succeeds *)

Definition store_put (obj : Object) (w : gmap string Object) : gmap string Object :=
  match key obj with
  | Some id => <[id := persisted obj]> w
  | None => w
  end.

Definition empty_object (id : string) : Object :=
  {| key := Some id; as1 := None; source_protocol := None; status := None;
     undelivered := []; delivered := []; failed := []; copies := [];
     deleted := false; new := None; changed := None |}.

Definition a_note : AS1 :=
  {| as1_id := None; objectType := Some "note"; verb := None; actor := None;
     url := None; content := "hello" |}.

Definition fetch_a_note (cls : Protocol) (obj : Object) (w : gmap string Object)
  : fetched * gmap string Object :=
  (Fetched {| key := key obj; as1 := Some a_note;
              source_protocol := source_protocol obj; status := status obj;
              undelivered := undelivered obj; delivered := delivered obj;
              failed := failed obj; copies := copies obj;
              deleted := deleted obj; new := new obj;
              changed := changed obj |}, w).

Definition load_example :=
  load (gmap string Object) (λ w id, w !! id) store_put (λ _, false) (λ _, false)
    (λ obj, empty_object (default "" (key obj))) empty_object (λ _, false)
    (λ obj, obj) (λ obj, obj) (λ _ _, true) fetch_a_note.

Definition fetched_post : Object :=
  {| key := Some "https://user.com/post"; as1 := Some a_note;
     source_protocol := Some "web"; status := None;
     undelivered := []; delivered := []; failed := []; copies := [];
     deleted := false; new := Some true; changed := Some false |}.

Lemma load_again_is_local_witness :
  load_example Web "https://user.com/post" None true ∅
  = (Done (Some fetched_post), store_put fetched_post ∅)
  ∧ load_example Web "https://user.com/post" (Some false) true
      (store_put fetched_post ∅)
    = (Done (Some (Receive.set_new (Some false) (persisted fetched_post))),
       store_put fetched_post ∅)
  ∧ new fetched_post = Some true ∧ changed fetched_post = Some false
  ∧ changed (Receive.set_new (Some false) (persisted fetched_post)) = None.
Proof.
  split; [reflexivity|]. split; [|done].
  apply (load_again_is_local (gmap string Object) (λ w id, w !! id) store_put
           (λ _, false) (λ _, false)
           (λ obj, empty_object (default "" (key obj))) empty_object (λ _, false)
           (λ obj, obj) (λ obj, obj) (λ _ _, true) fetch_a_note
           Web "https://user.com/post" None true ∅ (store_put fetched_post ∅)
           fetched_post (Some false)); try reflexivity.
  - intros w1. apply lookup_insert_eq.
  - discriminate.
Defined.

End Load.

(** ** protocol.py: handle_follow *)

Module Follow.
Import Common Models Targets Load.

#[local] Instance Key_eq_dec : EqDecision Key.
Proof. solve_decision. Defined.

(** Modelled from the spec: the Follower edge of [models.py], which is not
    at hand: a directed edge from one user to another, with the Follow
    activity it came from and a status.  [Follower.get_or_create] upserts the
    edge of an ordered pair of users, so that a pair has at most one: an
    edge that is there takes the new activity and status, otherwise a new
    edge is stored. *)
Record Follower : Type := {
  to : Key;
  from_ : Key;
  follow : option string;
  follower_status : string;
}.

Definition between (to_key from_key : Key) (f : Follower) : bool :=
  bool_decide (to f = to_key) && bool_decide (from_ f = from_key).

Definition Follower_get_or_create (to_key from_key : Key)
    (follow_key : option string) (st : string) (fs : list Follower)
  : list Follower :=
  let edge := {| to := to_key; from_ := from_key; follow := follow_key;
                 follower_status := st |} in
  if existsb (between to_key from_key) fs
  then map (λ f, if between to_key from_key f then edge else f) fs
  else fs ++ [edge].

(** How the handler ends: it returns, [error] ends the request with an
    HTTP status, or the load of a followee raises. *)
Inductive ended : Type :=
| Returned
| Error (status : nat)
| LoadRaised (e : error).

(** What the loop writes: the Follower edges of the datastore and the
    [notify] list of the Follow activity. *)
Record State : Type := {
  followers : list Follower;
  notify : list Key;
}.

Section handle_follow.
Variable for_id : string → option Protocol.
Variable key_for : Protocol → string → option Key.
(** [to_cls.load(to_id)]: the followee's Object, if any, or what the load
    raised. *)
Variable load : Protocol → string → loaded (option Object).
(** [maybe_accept_follow(follower, followee, follow)] returns, or ends the
    request through [error] when the follower has no delivery target. *)
Variable maybe_accept_follow : Key → Key → bool.

(** The loop over the followees of a Follow activity (lines 978-1012):
    [to_ids] are the [id]s of the activity's objects, [from_key] is the key
    of the follower and [follow_key] that of the activity.  What the loads
    of the followees store, and the followees' users that [get_or_create]
    makes, are not in the state. *)
Fixpoint store_followers (from_cls : Protocol) (from_key : Key)
    (follow_key : option string) (to_ids : list (option string)) (st : State)
  : ended * State :=
  match to_ids with
  | [] => (Returned, st)
  | to_id :: rest =>
      match to_id with
      | None => (Error 400, st)
      | Some to_id =>
          if negb (truthy to_id) then (Error 400, st)
          else
            match for_id to_id with
            | None => (Error 400, st)
            | Some to_cls =>
                if same_protocol from_cls to_cls
                   && negb (String.eqb (LABEL from_cls) "fake")
                then store_followers from_cls from_key follow_key rest st
                else
                  match load to_cls to_id with
                  | Failed e => (LoadRaised e, st)
                  | Done _ =>
                      match key_for to_cls to_id with
                      | None =>
                          store_followers from_cls from_key follow_key rest st
                      | Some to_key =>
                          let st' :=
                            {| followers :=
                                 Follower_get_or_create to_key from_key
                                   follow_key "active" (followers st);
                               notify := add (notify st) to_key |} in
                          if maybe_accept_follow from_key to_key
                          then store_followers from_cls from_key follow_key
                                 rest st'
                          else (Error 400, st')
                      end
                  end
            end
      end
  end.

Lemma Follower_get_or_create_elem (to_key from_key : Key)
    (follow_key : option string) (s : string) (fs : list Follower)
    (f : Follower) :
  f ∈ Follower_get_or_create to_key from_key follow_key s fs →
  f ∈ fs
  ∨ f = {| to := to_key; from_ := from_key; follow := follow_key;
           follower_status := s |}.
Proof.
  unfold Follower_get_or_create.
  destruct (existsb (between to_key from_key) fs).
  - intros (g & -> & Hg)%list_elem_of_fmap.
    destruct (between to_key from_key g); [by right|by left].
  - intros [?|Hf%list_elem_of_singleton]%elem_of_app; [by left|by right].
Qed.

(** Every edge the loop leaves in the datastore was there before, or is an
    active edge from the follower to a followee of the activity whose
    protocol is not the follower's, unless the follower's protocol is the
    test protocol [fake]; this holds also when the loop ends in an error. *)
Theorem handle_follow_stores_no_same_protocol_follower
    (from_cls : Protocol) (from_key : Key) (follow_key : option string)
    (to_ids : list (option string)) (st : State) (f : Follower) :
  f ∈ followers (store_followers from_cls from_key follow_key to_ids st).2 →
  f ∈ followers st
  ∨ ∃ to_id to_cls,
      Some to_id ∈ to_ids ∧ for_id to_id = Some to_cls
      ∧ key_for to_cls to_id = Some (to f)
      ∧ from_ f = from_key ∧ follower_status f = "active"
      ∧ (LABEL to_cls = LABEL from_cls → LABEL from_cls = "fake").
Proof.
  revert st. induction to_ids as [|to_id rest IH]; intros st; simpl.
  { by left. }
  assert (∀ st0,
    f ∈ followers (store_followers from_cls from_key follow_key rest st0).2 →
    f ∈ followers st0
    ∨ ∃ to_id0 to_cls,
        Some to_id0 ∈ to_id :: rest ∧ for_id to_id0 = Some to_cls
        ∧ key_for to_cls to_id0 = Some (to f)
        ∧ from_ f = from_key ∧ follower_status f = "active"
        ∧ (LABEL to_cls = LABEL from_cls → LABEL from_cls = "fake")) as IH'.
  { intros st0 [?|(i & c & Hi & ?)]%IH; [by left|right].
    exists i, c. split; [by apply list_elem_of_further|done]. }
  destruct to_id as [to_id|]; [|by left].
  destruct (truthy to_id); simpl; [|by left].
  destruct (for_id to_id) as [to_cls|] eqn:Hcls; [|by left].
  destruct (same_protocol from_cls to_cls
            && negb (String.eqb (LABEL from_cls) "fake")) eqn:Hsame.
  { apply IH'. }
  destruct (load to_cls to_id) as [to_obj|e]; [|by left].
  destruct (key_for to_cls to_id) as [to_key|] eqn:Hkey; [|apply IH'].
  assert (
    f ∈ Follower_get_or_create to_key from_key follow_key "active"
          (followers st) →
    f ∈ followers st
    ∨ ∃ to_id0 to_cls0,
        Some to_id0 ∈ Some to_id :: rest ∧ for_id to_id0 = Some to_cls0
        ∧ key_for to_cls0 to_id0 = Some (to f)
        ∧ from_ f = from_key ∧ follower_status f = "active"
        ∧ (LABEL to_cls0 = LABEL from_cls → LABEL from_cls = "fake")) as Hnew.
  { intros [?| ->]%Follower_get_or_create_elem; [by left|right].
    exists to_id, to_cls. split_and!; try done; [apply list_elem_of_here|].
    intros Heq. apply andb_false_iff in Hsame as [Hne|Hfake].
    - unfold same_protocol in Hne. apply String.eqb_neq in Hne. by rewrite Heq in Hne.
    - apply negb_false_iff, String.eqb_eq in Hfake. exact Hfake. }
  destruct (maybe_accept_follow from_key to_key).
  - intros [Hf|?]%IH'; [|by right]. exact (Hnew Hf).
  - exact Hnew.
Qed.

End handle_follow.

(** *** A run of the handler *)

(** A Follow from [https://inst/alice], on ActivityPub, of a Web user and of
    an ActivityPub user: only the edge to the Web user is stored.  The same
    Follow on the test protocol [fake] of a [fake] user is stored. *)
Definition alice : Key := {| kind := "activitypub"; name := "https://inst/alice" |}.

Definition store_followers_example :=
  store_followers resolve (λ p id, Some {| kind := LABEL p; name := id |})
    (λ _ id, Done (Some (actor_object id))) (λ _ _, true).

Lemma store_followers_example_run :
  store_followers_example (plugin "activitypub" "ap") alice (Some "f1")
    [Some "https://w-user.example/"; Some "https://inst/bob"]
    {| followers := []; notify := [] |}
  = (Returned,
     {| followers := [{| to := {| kind := "web";
                                  name := "https://w-user.example/" |};
                         from_ := alice; follow := Some "f1";
                         follower_status := "active" |}];
        notify := [{| kind := "web"; name := "https://w-user.example/" |}] |})
  ∧ (store_followers_example (plugin "fake" "fa")
       {| kind := "fake"; name := "fake:alice" |} (Some "f2")
       [Some "fake:bob"] {| followers := []; notify := [] |}).2
    = {| followers := [{| to := {| kind := "fake"; name := "fake:bob" |};
                          from_ := {| kind := "fake"; name := "fake:alice" |};
                          follow := Some "f2"; follower_status := "active" |}];
         notify := [{| kind := "fake"; name := "fake:bob" |}] |}.
Proof. by vm_compute. Qed.

Lemma handle_follow_stores_no_same_protocol_follower_witness :
  ∃ f, f ∈ followers
         (store_followers_example (plugin "activitypub" "ap") alice (Some "f1")
            [Some "https://w-user.example/"; Some "https://inst/bob"]
            {| followers := []; notify := [] |}).2
    ∧ (f ∈ []
       ∨ ∃ to_id to_cls,
           Some to_id ∈ [Some "https://w-user.example/"; Some "https://inst/bob"]
           ∧ resolve to_id = Some to_cls
           ∧ Some {| kind := LABEL to_cls; name := to_id |} = Some (to f)
           ∧ from_ f = alice ∧ follower_status f = "active"
           ∧ (LABEL to_cls = "activitypub" → "activitypub" = "fake")).
Proof.
  exists {| to := {| kind := "web"; name := "https://w-user.example/" |};
            from_ := alice; follow := Some "f1"; follower_status := "active" |}.
  assert ({| to := {| kind := "web"; name := "https://w-user.example/" |};
             from_ := alice; follow := Some "f1"; follower_status := "active" |}
          ∈ followers
              (store_followers_example (plugin "activitypub" "ap") alice
                 (Some "f1")
                 [Some "https://w-user.example/"; Some "https://inst/bob"]
                 {| followers := []; notify := [] |}).2) as Hin.
  { vm_compute. apply list_elem_of_here. }
  split; [exact Hin|].
  exact (handle_follow_stores_no_same_protocol_follower _ _ _ _ _ _ _ _ _ _ Hin).
Defined.

End Follow.

(** ** protocol.py: which protocol a domain, an id or a handle belongs to *)

Module Resolution.
Import Common Models Load.

(** [str.endswith] and [str.removesuffix]. *)
Fixpoint endswith (suffix s : string) : bool :=
  String.eqb s suffix
  || match s with
     | String _ s' => endswith suffix s'
     | EmptyString => false
     end.

Fixpoint drop_suffix (suffix s : string) : string :=
  if String.eqb s suffix then EmptyString
  else match s with
       | String c s' => String c (drop_suffix suffix s')
       | EmptyString => EmptyString
       end.

Definition removesuffix (suffix s : string) : string :=
  if endswith suffix s then drop_suffix suffix s else s.

(** The [fed] argument: left out, a label, or a class. *)
Inductive Fed : Type :=
| FedNone
| FedLabel (label : string)
| FedClass (cls : Protocol).

(** [cls.bot_user_id()]. *)
Definition bot_user_id (cls : Protocol) : string := ABBREV cls +:+ SUPERDOMAIN.

(** [sorted(set(p for p in PROTOCOLS.values() if p), key=lambda p: p.LABEL)]:
    the classes among the values, each once, in the order of their labels.
    A class is known by its label, so the order in which the set is iterated
    does not show. *)
Fixpoint dedupe_classes (l : list Protocol) : list Protocol :=
  match l with
  | [] => []
  | p :: rest =>
      if existsb (same_protocol p) rest then dedupe_classes rest
      else p :: dedupe_classes rest
  end.

Fixpoint insert_by_label (p : Protocol) (l : list Protocol) : list Protocol :=
  match l with
  | [] => [p]
  | q :: rest =>
      if String.leb (LABEL p) (LABEL q) then p :: l
      else q :: insert_by_label p rest
  end.

Definition sorted_by_label (l : list Protocol) : list Protocol :=
  foldr insert_by_label [] l.

(** The base class, on which [Protocol.load] is called: its [owns_id] and
    [owns_handle] return [False]. *)
Definition Protocol_base : Protocol :=
  {| LABEL := "protocol"; ABBREV := ""; HAS_COPIES := false;
     owns_id := λ _, Some false; owns_handle := λ _, Some false;
     get_by_id := λ _, None; get_for_copy := λ _, None;
     is_blocklisted := λ _ _, false; target_for := λ _ _, None |}.

(** *** Suffixes *)

Lemma length_append (a b : string) :
  String.length (a +:+ b) = String.length a + String.length b.
Proof. induction a as [|c a IH]; simpl; [done|]. by rewrite IH. Qed.

Lemma eqb_longer (c : ascii) (a b : string) : String.eqb (String c (a +:+ b)) b = false.
Proof.
  apply String.eqb_neq. intros Heq.
  apply (f_equal String.length) in Heq. simpl in Heq.
  rewrite length_append in Heq. lia.
Qed.

Lemma endswith_app (suffix p : string) : endswith suffix (p +:+ suffix) = true.
Proof.
  induction p as [|c p IH].
  - change (endswith suffix suffix = true).
    destruct suffix; simpl; [done|]. by rewrite Ascii.eqb_refl, String.eqb_refl.
  - change (String.eqb (String c (p +:+ suffix)) suffix
            || endswith suffix (p +:+ suffix) = true).
    by rewrite IH, orb_true_r.
Qed.

Lemma removesuffix_app (suffix p : string) : removesuffix suffix (p +:+ suffix) = p.
Proof.
  unfold removesuffix. rewrite endswith_app.
  induction p as [|c p IH].
  - change (drop_suffix suffix suffix = "").
    destruct suffix; simpl; [done|]. by rewrite Ascii.eqb_refl, String.eqb_refl.
  - change ((if String.eqb (String c (p +:+ suffix)) suffix then ""
             else String c (drop_suffix suffix (p +:+ suffix))) = String c p).
    by rewrite eqb_longer, IH.
Qed.

Lemma endswith_eq (suffix a b : string) :
  a = b → endswith suffix a = endswith suffix b.
Proof. by intros ->. Qed.

(** *** The order of the classes *)

Lemma elem_of_insert_by_label (p q : Protocol) (l : list Protocol) :
  q ∈ insert_by_label p l ↔ q = p ∨ q ∈ l.
Proof.
  induction l as [|x l IH]; simpl.
  - rewrite list_elem_of_singleton. split; [auto|]. intros [?|H]; [done|].
    by apply not_elem_of_nil in H.
  - destruct (String.leb (LABEL p) (LABEL x)).
    + by rewrite elem_of_cons.
    + rewrite !elem_of_cons, IH. tauto.
Qed.

Lemma elem_of_sorted_by_label (q : Protocol) (l : list Protocol) :
  q ∈ sorted_by_label l ↔ q ∈ l.
Proof.
  induction l as [|x l IH]; simpl; [done|].
  by rewrite elem_of_insert_by_label, IH, elem_of_cons.
Qed.

Lemma elem_of_dedupe_classes (q : Protocol) (l : list Protocol) :
  q ∈ dedupe_classes l → q ∈ l.
Proof.
  induction l as [|x l IH]; simpl; [done|].
  destruct (existsb (same_protocol x) l).
  - intros H. apply elem_of_cons. right. by apply IH.
  - rewrite !elem_of_cons. intros [?|?]; [by left|right; by apply IH].
Qed.

Section resolution.
(** webutil's [util.is_web] and [util.domain_from_link(_, minimize=False)];
    whether [urlparse(id).path.strip('/')] is empty; the registry
    [PROTOCOLS], a dict from labels to classes or [None]; [BOT_ACTOR_AP_IDS]. *)
Variable is_web : string → bool.
Variable domain_from_link : string → option string.
Variable is_homepage : string → bool.
Variable PROTOCOLS : list (string * option Protocol).
Variable BOT_ACTOR_AP_IDS : list string.
(** What [Protocol.load] needs. *)
Variable World : Type.
Variable Object_get_by_id : World → string → option Object.
Variable Object_put : Object → World → World.
Variable has_raw : Object → bool.
Variable is_stale : Object → bool.
Variable Object_clear : Object → Object.
Variable Object_new : string → Object.
Variable too_big : Object → bool.
Variable resolve_ids : Object → Object.
Variable normalize_ids : Object → Object.
Variable activity_changed : Object → option AS1 → bool.
Variable fetch : Protocol → Object → World → fetched * World.

Definition load := Load.load World Object_get_by_id Object_put has_raw is_stale
  Object_clear Object_new too_big resolve_ids normalize_ids activity_changed fetch.

Definition protocols : list Protocol :=
  sorted_by_label (dedupe_classes (omap snd PROTOCOLS)).

Definition for_bridgy_subdomain (domain_or_url : string) (fed : Fed)
  : loaded (option Protocol) :=
  let domain :=
    if is_web domain_or_url then domain_from_link domain_or_url
    else Some domain_or_url in
  if bool_decide (domain = Some PRIMARY_DOMAIN)
     || match domain with
        | Some d => bool_decide (d ∈ LOCAL_DOMAINS)
        | None => false
        end
  then
    match fed with
    | FedLabel label =>
        match Targets.dict_get label PROTOCOLS with
        | Some p => Done p
        | None => Failed MissingKey
        end
    | FedClass cls => Done (Some cls)
    | FedNone => Done None
    end
  else
    match domain with
    | Some d =>
        if truthy d && endswith SUPERDOMAIN d
        then Done (mjoin (Targets.dict_get (removesuffix SUPERDOMAIN d) PROTOCOLS))
        else Done None
    | None => Done None
    end.

(** Step 2 of [for_id]: the first class that says it owns the id, or else
    the classes that are not sure. *)
Fixpoint owners_loop (id : string) (protocols candidates : list Protocol)
  : Protocol + list Protocol :=
  match protocols with
  | [] => inr candidates
  | protocol :: rest =>
      match owns_id protocol id with
      | Some true => inl protocol
      | Some false => owners_loop id rest candidates
      | None => owners_loop id rest (candidates ++ [protocol])
      end
  end.

(** Step 4 of [for_id]: the candidates are tried over the network. *)
Fixpoint fetch_loop (id : string) (candidates : list Protocol) (w : World)
  : loaded (option Protocol) * World :=
  match candidates with
  | [] => (Done None, w)
  | protocol :: rest =>
      match load protocol id (Some true) false w with
      | (Done (Some _), w) => (Done (Some protocol), w)
      | (Done None, w) => fetch_loop id rest w
      | (Failed BadGateway, w) => (Done None, w)
      | (Failed HTTPException, w) => fetch_loop id rest w
      | (Failed HTTPCoded, w) => (Done None, w)
      | (Failed e, w) => (Failed e, w)
      end
  end.

(** Step 1 of [for_id]: the bridge's own subdomains. *)
Definition by_subdomain (id : string) : loaded (option Protocol) :=
  if is_web id then
    match for_bridgy_subdomain id FedNone with
    | Done (Some by_subdomain) =>
        if negb (is_homepage id) && negb (bool_decide (id ∈ BOT_ACTOR_AP_IDS))
        then Done (Some by_subdomain)
        else Done None
    | Done None => Done None
    | Failed e => Failed e
    end
  else Done None.

(** Steps 2 to 4 of [for_id]. *)
Definition by_owner (id : string) (remote : bool) (w : World)
  : loaded (option Protocol) * World :=
  match owners_loop id protocols [] with
  | inl protocol => (Done (Some protocol), w)
  | inr [only] => (Done (Some only), w)
  | inr candidates =>
      match load Protocol_base id (Some false) true w with
      | (Failed e, w) => (Failed e, w)
      | (Done obj, w) =>
          match (match obj with
                 | Some obj =>
                     match source_protocol obj with
                     | Some label => if truthy label then Some label else None
                     | None => None
                     end
                 | None => None
                 end) with
          | Some label =>
              match Targets.dict_get label PROTOCOLS with
              | Some p => (Done p, w)
              | None => (Failed MissingKey, w)
              end
          | None =>
              if negb remote then (Done None, w)
              else fetch_loop id candidates w
          end
      end
  end.

(** [Protocol.for_id], as it runs on a miss of the cache in front of it. *)
Definition for_id (id : string) (remote : bool) (w : World)
  : loaded (option Protocol) * World :=
  if negb (truthy id) then (Done None, w)
  else
    match by_subdomain id with
    | Failed e => (Failed e, w)
    | Done (Some by_subdomain) => (Done (Some by_subdomain), w)
    | Done None => by_owner id remote w
    end.

(** *** The bot users *)

(** The domain of a protocol's bot user names the protocol.  For a class
    whose [ABBREV] is not [fed], [for_bridgy_subdomain] of its
    [bot_user_id()], and of every web URL on that domain, looks the [ABBREV]
    up in the registry, whatever [fed] is: the class itself when it is
    registered under its [ABBREV]. *)
Theorem for_bridgy_subdomain_bot_user_id (cls : Protocol) (fed : Fed) :
  ABBREV cls ≠ "fed" →
  (is_web (bot_user_id cls) = false →
   for_bridgy_subdomain (bot_user_id cls) fed
   = Done (mjoin (Targets.dict_get (ABBREV cls) PROTOCOLS)))
  ∧ (∀ url, is_web url = true → domain_from_link url = Some (bot_user_id cls) →
       for_bridgy_subdomain url fed
       = Done (mjoin (Targets.dict_get (ABBREV cls) PROTOCOLS))).
Proof.
  intros Habbrev.
  assert (bool_decide (Some (bot_user_id cls) = Some PRIMARY_DOMAIN) = false)
    as Hprimary.
  { apply bool_decide_eq_false_2. intros [= Heq]. apply Habbrev.
    unfold bot_user_id in Heq.
    change PRIMARY_DOMAIN with ("fed" +:+ SUPERDOMAIN) in Heq.
    apply (f_equal (removesuffix SUPERDOMAIN)) in Heq.
    by rewrite !removesuffix_app in Heq. }
  assert (bool_decide (bot_user_id cls ∈ LOCAL_DOMAINS) = false) as Hlocal.
  { apply bool_decide_eq_false_2. intros Hin.
    pose proof (endswith_app SUPERDOMAIN (ABBREV cls)) as Hends.
    unfold LOCAL_DOMAINS in Hin. fold (bot_user_id cls) in Hends.
    repeat (apply elem_of_cons in Hin as [Heq|Hin];
            [rewrite Heq in Hends; by vm_compute in Hends|]).
    by apply not_elem_of_nil in Hin. }
  assert (truthy (bot_user_id cls) = true) as Htruthy.
  { apply truthy_true. intros Heq.
    apply (f_equal String.length) in Heq. unfold bot_user_id in Heq.
    rewrite length_append in Heq. simpl in Heq. lia. }
  split.
  - intros Hweb. unfold for_bridgy_subdomain.
    rewrite Hweb, Hprimary, Hlocal, Htruthy. simpl.
    unfold bot_user_id. by rewrite endswith_app, removesuffix_app.
  - intros url Hweb Hdomain. unfold for_bridgy_subdomain.
    rewrite Hweb, Hdomain, Hprimary, Hlocal, Htruthy. simpl.
    unfold bot_user_id. by rewrite endswith_app, removesuffix_app.
Qed.

(** *** The registered classes *)

Lemma protocols_registered (p : Protocol) :
  p ∈ protocols → Some p ∈ PROTOCOLS.*2.
Proof.
  unfold protocols. rewrite elem_of_sorted_by_label.
  intros H%elem_of_dedupe_classes.
  apply list_elem_of_omap in H as ([label v] & Hin & Hv). simpl in Hv. subst v.
  apply list_elem_of_fmap. by exists (label, Some p).
Qed.

(** *** Step 2 *)

Lemma owners_loop_inl (id : string) (ps candidates : list Protocol) (p : Protocol) :
  owners_loop id ps candidates = inl p → p ∈ ps ∧ owns_id p id = Some true.
Proof.
  revert candidates. induction ps as [|q ps IH]; intros candidates; simpl; [done|].
  destruct (owns_id q id) as [[]|] eqn:Howns.
  - intros [= <-]. split; [apply list_elem_of_here|done].
  - intros H. destruct (IH _ H). split; [by apply list_elem_of_further|done].
  - intros H. destruct (IH _ H). split; [by apply list_elem_of_further|done].
Qed.

Lemma owners_loop_inr (id : string) (ps candidates cs : list Protocol) :
  owners_loop id ps candidates = inr cs →
  cs = (candidates ++ filter (λ p, owns_id p id = None) ps)%list
  ∧ ∀ p, p ∈ ps → owns_id p id ≠ Some true.
Proof.
  revert candidates. induction ps as [|q ps IH]; intros candidates; simpl.
  - intros [= <-]. rewrite filter_nil, app_nil_r. split; [done|].
    intros p Hp. by apply not_elem_of_nil in Hp.
  - destruct (owns_id q id) as [[]|] eqn:Howns; [done| |].
    + intros H. destruct (IH _ H) as [-> Hno]. split.
      * by rewrite filter_cons_False by congruence.
      * intros p [->|Hp]%elem_of_cons; [congruence|by apply Hno].
    + intros H. destruct (IH _ H) as [-> Hno]. split.
      * rewrite filter_cons_True by done. by rewrite <- app_assoc.
      * intros p [->|Hp]%elem_of_cons; [congruence|by apply Hno].
Qed.

Lemma owners_loop_first (id : string) (before after candidates : list Protocol)
    (p : Protocol) :
  (∀ q, q ∈ before → owns_id q id ≠ Some true) →
  owns_id p id = Some true →
  owners_loop id (before ++ p :: after) candidates = inl p.
Proof.
  revert candidates. induction before as [|q before IH]; intros candidates Hno Hp; simpl.
  - by rewrite Hp.
  - assert (owns_id q id ≠ Some true) as Hq by (apply Hno; apply list_elem_of_here).
    destruct (owns_id q id) as [[]|]; [done| |];
      apply IH; [|done| |done]; intros x Hx; apply Hno; by apply list_elem_of_further.
Qed.

Lemma fetch_loop_candidate (id : string) (candidates : list Protocol)
    (w w' : World) (p : Protocol) :
  fetch_loop id candidates w = (Done (Some p), w') → p ∈ candidates.
Proof.
  revert w. induction candidates as [|c cs IH]; intros w; simpl; [done|].
  destruct (load c id (Some true) false w) as [[[obj|]|e] w1].
  - intros [= <- <-]. apply list_elem_of_here.
  - intros H. apply list_elem_of_further. by eapply IH.
  - destruct e; try done.
    intros H. apply list_elem_of_further. by eapply IH.
Qed.

Lemma load_local_only (id : string) (w : World) :
  truthy id = true →
  load Protocol_base id (Some false) true w
  = (Done (load_local World Object_get_by_id has_raw id w), w).
Proof. intros Hid. unfold load, Load.load. by rewrite Hid. Qed.

Lemma by_owner_sound (id : string) (remote : bool) (w w' : World) (p : Protocol) :
  truthy id = true →
  by_owner id remote w = (Done (Some p), w') →
  (Some p ∈ PROTOCOLS.*2 ∧ owns_id p id ≠ Some false)
  ∨ (∃ obj label, Object_get_by_id w id = Some obj
       ∧ source_protocol obj = Some label
       ∧ Targets.dict_get label PROTOCOLS = Some (Some p)).
Proof.
  intros Hid. unfold by_owner.
  destruct (owners_loop id protocols []) as [owner|candidates] eqn:Hloop.
  { intros [= <- <-]. apply owners_loop_inl in Hloop as [Hin Howns].
    left. split; [by apply protocols_registered|congruence]. }
  apply owners_loop_inr in Hloop as [Hcs _]. simpl in Hcs.
  assert (∀ c, c ∈ candidates → Some c ∈ PROTOCOLS.*2 ∧ owns_id c id ≠ Some false)
    as Hcand.
  { intros c Hc. rewrite Hcs in Hc. apply list_elem_of_filter in Hc as [Hnone Hin].
    split; [by apply protocols_registered|congruence]. }
  assert (match load Protocol_base id (Some false) true w with
          | (Failed e, w) => (Failed e, w)
          | (Done obj, w) =>
              match (match obj with
                     | Some obj =>
                         match source_protocol obj with
                         | Some label => if truthy label then Some label else None
                         | None => None
                         end
                     | None => None
                     end) with
              | Some label =>
                  match Targets.dict_get label PROTOCOLS with
                  | Some p => (Done p, w)
                  | None => (Failed MissingKey, w)
                  end
              | None =>
                  if negb remote then (Done None, w)
                  else fetch_loop id candidates w
              end
          end = (Done (Some p), w') →
          (Some p ∈ PROTOCOLS.*2 ∧ owns_id p id ≠ Some false)
          ∨ (∃ obj label, Object_get_by_id w id = Some obj
               ∧ source_protocol obj = Some label
               ∧ Targets.dict_get label PROTOCOLS = Some (Some p))) as Hrest.
  { rewrite (load_local_only id w Hid).
    destruct (load_local World Object_get_by_id has_raw id w) as [obj|] eqn:Hlocal.
    - apply load_local_from_datastore in Hlocal as (stored & Hget & Hobj).
      assert (source_protocol obj = source_protocol stored) as Hsp
        by (destruct Hobj as [->| ->]; done).
      destruct (source_protocol obj) as [label|] eqn:Hlabel.
      + destruct (truthy label).
        * destruct (Targets.dict_get label PROTOCOLS) as [v|] eqn:Hreg; [|done].
          intros [= -> <-]. right. by exists stored, label.
        * destruct remote; simpl; [|done].
          intros H%fetch_loop_candidate. left. by apply Hcand.
      + destruct remote; simpl; [|done].
        intros H%fetch_loop_candidate. left. by apply Hcand.
    - destruct remote; simpl; [|done].
      intros H%fetch_loop_candidate. left. by apply Hcand. }
  destruct candidates as [|only [|second rest]]; [exact Hrest| |exact Hrest].
  intros [= <- <-]. left. apply Hcand. apply list_elem_of_here.
Qed.

(** No id is given to a protocol that disowns it.  A class that [for_id]
    returns is the one of the bridge's subdomain the id is on; or a
    registered class whose [owns_id] did not say [False]; or the class
    registered under the [source_protocol] of the Object stored under the
    id. *)
Theorem for_id_sound (id : string) (remote : bool) (w w' : World) (p : Protocol) :
  for_id id remote w = (Done (Some p), w') →
  (is_web id = true ∧ for_bridgy_subdomain id FedNone = Done (Some p)
   ∧ is_homepage id = false ∧ id ∉ BOT_ACTOR_AP_IDS)
  ∨ (Some p ∈ PROTOCOLS.*2 ∧ owns_id p id ≠ Some false)
  ∨ (∃ obj label, Object_get_by_id w id = Some obj
       ∧ source_protocol obj = Some label
       ∧ Targets.dict_get label PROTOCOLS = Some (Some p)).
Proof.
  unfold for_id.
  destruct (truthy id) eqn:Hid; simpl; [|done].
  destruct (by_subdomain id) as [[q|]|e] eqn:Hsub; [| |done].
  - intros [= <- <-]. left. unfold by_subdomain in Hsub.
    destruct (is_web id); [|done].
    destruct (for_bridgy_subdomain id FedNone) as [[q'|]|e]; [|done..].
    destruct (is_homepage id); [done|]. simpl in Hsub.
    case_bool_decide as Hbot; [done|]. simpl in Hsub.
    by injection Hsub as ->.
  - intros H. right. by apply (by_owner_sound id remote w w').
Qed.

(** The first owner wins, without the datastore or the network.  When the id
    is not on one of the bridge's subdomains, the class returned is the
    first one, in the order of the labels, whose [owns_id] says [True]. *)
Theorem for_id_first_owner (id : string) (remote : bool) (w : World)
    (before after : list Protocol) (p : Protocol) :
  id ≠ "" →
  by_subdomain id = Done None →
  protocols = (before ++ p :: after)%list →
  (∀ q, q ∈ before → owns_id q id ≠ Some true) →
  owns_id p id = Some true →
  for_id id remote w = (Done (Some p), w).
Proof.
  intros Hid%truthy_true Hsub Hprotocols Hbefore Howns.
  unfold for_id, by_owner. rewrite Hid, Hsub, Hprotocols. simpl.
  by rewrite (owners_loop_first id before after [] p Hbefore Howns).
Qed.

(** *** When [for_id] goes over the network *)

(** Step 3 by itself: the class registered under the [source_protocol] of
    the stored Object. *)
Definition stored_owner (id : string) (w : World) : loaded (option Protocol) :=
  match load_local World Object_get_by_id has_raw id w with
  | Some obj =>
      match source_protocol obj with
      | Some label =>
          if truthy label then
            match Targets.dict_get label PROTOCOLS with
            | Some p => Done p
            | None => Failed MissingKey
            end
          else Done None
      | None => Done None
      end
  | None => Done None
  end.

Lemma by_owner_offline (id : string) (remote : bool) (w : World) :
  truthy id = true →
  remote = false ∨ (length (filter (λ p, owns_id p id = None) protocols) ≤ 1)%nat →
  by_owner id remote w
  = (match owners_loop id protocols [] with
     | inl protocol => Done (Some protocol)
     | inr [only] => Done (Some only)
     | inr _ => stored_owner id w
     end, w).
Proof.
  intros Hid Hcond. unfold by_owner.
  destruct (owners_loop id protocols []) as [owner|candidates] eqn:Hloop; [done|].
  apply owners_loop_inr in Hloop as [Hcs _]. simpl in Hcs.
  assert (match load Protocol_base id (Some false) true w with
          | (Failed e, w) => (Failed e, w)
          | (Done obj, w) =>
              match (match obj with
                     | Some obj =>
                         match source_protocol obj with
                         | Some label => if truthy label then Some label else None
                         | None => None
                         end
                     | None => None
                     end) with
              | Some label =>
                  match Targets.dict_get label PROTOCOLS with
                  | Some p => (Done p, w)
                  | None => (Failed MissingKey, w)
                  end
              | None =>
                  if negb remote then (Done None, w)
                  else fetch_loop id candidates w
              end
          end = (stored_owner id w, w)
          ∨ (remote = true ∧ candidates ≠ [])) as Hrest.
  { rewrite (load_local_only id w Hid). unfold stored_owner.
    destruct candidates as [|c cs].
    - left. destruct (load_local World Object_get_by_id has_raw id w) as [obj|].
      + destruct (source_protocol obj) as [label|]; [|by destruct remote].
        destruct (truthy label); [|by destruct remote].
        by destruct (Targets.dict_get label PROTOCOLS).
      + by destruct remote.
    - destruct remote; [by right|]. left.
      destruct (load_local World Object_get_by_id has_raw id w) as [obj|]; [|done].
      destruct (source_protocol obj) as [label|]; [|done].
      destruct (truthy label); [|done].
      by destruct (Targets.dict_get label PROTOCOLS). }
  destruct candidates as [|only [|second rest]]; [|done|].
  - destruct Hrest as [->|[_ ?]]; done.
  - destruct Hrest as [->|[-> _]]; [done|].
    destruct Hcond as [?|Hlen]; [done|].
    rewrite <- Hcs in Hlen. simpl in Hlen. lia.
Qed.

(** *** Handles *)

Section handles.
(** [proto.query(proto.handle == handle).get()], [user.status] and
    [proto.handle_to_id(handle)], which may go over the network. *)
Variable query_by_handle : Protocol → string → World → option User.
Variable User_status : User → option string.
Variable handle_to_id : Protocol → string → loaded (option string).

(** Step 1 of [for_handle]. *)
Fixpoint handle_owners_loop (handle : string) (protocols candidates : list Protocol)
  : Protocol + list Protocol :=
  match protocols with
  | [] => inr candidates
  | proto :: rest =>
      match owns_handle proto handle with
      | Some true => inl proto
      | Some false => handle_owners_loop handle rest candidates
      | None => handle_owners_loop handle rest (candidates ++ [proto])
      end
  end.

(** Step 2: a stored user with the handle; [Some] is a [return]. *)
Fixpoint stored_user_loop (handle : string) (candidates : list Protocol)
    (w : World) : option (option Protocol * option string) :=
  match candidates with
  | [] => None
  | proto :: rest =>
      match query_by_handle proto handle w with
      | Some user =>
          if match User_status user with
             | Some status => truthy status
             | None => false
             end
          then Some (None, None)
          else Some (Some proto, Some (key_id user))
      | None => stored_user_loop handle rest w
      end
  end.

(** Step 3: the handle is resolved, which may go over the network. *)
Fixpoint resolve_loop (handle : string) (candidates : list Protocol)
  : loaded (option Protocol * option string) :=
  match candidates with
  | [] => Done (None, None)
  | proto :: rest =>
      match handle_to_id proto handle with
      | Failed e => Failed e
      | Done (Some id) =>
          if truthy id then Done (Some proto, Some id)
          else resolve_loop handle rest
      | Done None => resolve_loop handle rest
      end
  end.

Definition for_handle (handle : string) (w : World)
  : loaded (option Protocol * option string) :=
  if negb (truthy handle) then Done (None, None)
  else
    match handle_owners_loop handle protocols [] with
    | inl proto => Done (Some proto, None)
    | inr [only] => Done (Some only, None)
    | inr candidates =>
        match stored_user_loop handle candidates w with
        | Some r => Done r
        | None => resolve_loop handle candidates
        end
    end.

Lemma handle_owners_loop_inl (handle : string) (ps candidates : list Protocol)
    (p : Protocol) :
  handle_owners_loop handle ps candidates = inl p →
  p ∈ ps ∧ owns_handle p handle = Some true.
Proof.
  revert candidates. induction ps as [|q ps IH]; intros candidates; simpl; [done|].
  destruct (owns_handle q handle) as [[]|] eqn:Howns.
  - intros [= <-]. split; [apply list_elem_of_here|done].
  - intros H. destruct (IH _ H). split; [by apply list_elem_of_further|done].
  - intros H. destruct (IH _ H). split; [by apply list_elem_of_further|done].
Qed.

Lemma handle_owners_loop_inr (handle : string) (ps candidates cs : list Protocol) :
  handle_owners_loop handle ps candidates = inr cs →
  cs = (candidates ++ filter (λ p, owns_handle p handle = None) ps)%list.
Proof.
  revert candidates. induction ps as [|q ps IH]; intros candidates; simpl.
  - intros [= <-]. by rewrite filter_nil, app_nil_r.
  - destruct (owns_handle q handle) as [[]|] eqn:Howns; [done| |].
    + intros H. rewrite (IH _ H). by rewrite filter_cons_False by congruence.
    + intros H. rewrite (IH _ H). rewrite filter_cons_True by done.
      by rewrite <- app_assoc.
Qed.

Lemma stored_user_loop_found (handle : string) (candidates : list Protocol)
    (w : World) (proto : Protocol) (r : option string) :
  stored_user_loop handle candidates w = Some (Some proto, r) →
  proto ∈ candidates
  ∧ ∃ user, query_by_handle proto handle w = Some user
      ∧ r = Some (key_id user)
      ∧ (User_status user = None ∨ User_status user = Some "").
Proof.
  induction candidates as [|c cs IH]; simpl; [done|].
  destruct (query_by_handle c handle w) as [user|] eqn:Hquery.
  - destruct (User_status user) as [status|] eqn:Hstatus.
    + destruct (truthy status) eqn:Htruthy; [done|].
      apply truthy_false in Htruthy. subst status.
      intros [= <- <-]. split; [apply list_elem_of_here|].
      exists user. auto.
    + intros [= <- <-]. split; [apply list_elem_of_here|].
      exists user. auto.
  - intros H. destruct (IH H) as [Hin Huser].
    split; [by apply list_elem_of_further|done].
Qed.

Lemma stored_user_loop_none (handle : string) (candidates : list Protocol)
    (w : World) :
  stored_user_loop handle candidates w = None →
  ∀ c, c ∈ candidates → query_by_handle c handle w = None.
Proof.
  induction candidates as [|c cs IH]; simpl.
  - intros _ c Hc. by apply not_elem_of_nil in Hc.
  - destruct (query_by_handle c handle w) as [user|] eqn:Hquery.
    + by destruct (match User_status user with Some _ => _ | None => _ end).
    + intros H x [->|Hx]%elem_of_cons; [done|by apply IH].
Qed.

Lemma resolve_loop_found (handle : string) (candidates : list Protocol)
    (proto : Protocol) (r : option string) :
  resolve_loop handle candidates = Done (Some proto, r) →
  proto ∈ candidates
  ∧ ∃ id, r = Some id ∧ id ≠ "" ∧ handle_to_id proto handle = Done (Some id).
Proof.
  induction candidates as [|c cs IH]; simpl; [done|].
  destruct (handle_to_id c handle) as [[id|]|e] eqn:Hresolve; [| |done].
  - destruct (truthy id) eqn:Htruthy.
    + intros [= <- <-]. split; [apply list_elem_of_here|].
      exists id. split_and!; [done| |done]. by apply truthy_true.
    + intros H. destruct (IH H). split; [by apply list_elem_of_further|done].
  - intros H. destruct (IH H). split; [by apply list_elem_of_further|done].
Qed.

(** No handle is given to a protocol that disowns it, and users with a
    status stay hidden.  A class that [for_handle] returns is registered and
    its [owns_handle] did not say [False].  An id returned with it is the key
    id of a stored user of that class with the handle and without a status;
    or what the class's [handle_to_id] resolved, and then no class that is
    unsure of the handle has a stored user with it. *)
Theorem for_handle_sound (handle : string) (w : World) (proto : Protocol)
    (r : option string) :
  for_handle handle w = Done (Some proto, r) →
  Some proto ∈ PROTOCOLS.*2
  ∧ owns_handle proto handle ≠ Some false
  ∧ ∀ id, r = Some id →
      (∃ user, query_by_handle proto handle w = Some user
         ∧ key_id user = id
         ∧ (User_status user = None ∨ User_status user = Some ""))
      ∨ (handle_to_id proto handle = Done (Some id) ∧ id ≠ ""
         ∧ ∀ c, c ∈ protocols → owns_handle c handle = None →
                query_by_handle c handle w = None).
Proof.
  unfold for_handle.
  destruct (truthy handle); simpl; [|done].
  destruct (handle_owners_loop handle protocols []) as [owner|candidates] eqn:Hloop.
  { intros [= <- <-]. apply handle_owners_loop_inl in Hloop as [Hin Howns].
    split_and!; [by apply protocols_registered|congruence|done]. }
  apply handle_owners_loop_inr in Hloop. simpl in Hloop.
  assert (∀ c, c ∈ candidates ↔ owns_handle c handle = None ∧ c ∈ protocols)
    as Hcand.
  { intros c. rewrite Hloop.
    apply (list_elem_of_filter (λ p, owns_handle p handle = None)). }
  assert (match stored_user_loop handle candidates w with
          | Some r => Done r
          | None => resolve_loop handle candidates
          end = Done (Some proto, r) →
          Some proto ∈ PROTOCOLS.*2
          ∧ owns_handle proto handle ≠ Some false
          ∧ ∀ id, r = Some id →
              (∃ user, query_by_handle proto handle w = Some user
                 ∧ key_id user = id
                 ∧ (User_status user = None ∨ User_status user = Some ""))
              ∨ (handle_to_id proto handle = Done (Some id) ∧ id ≠ ""
                 ∧ ∀ c, c ∈ protocols → owns_handle c handle = None →
                        query_by_handle c handle w = None)) as Hrest.
  { destruct (stored_user_loop handle candidates w) as [found|] eqn:Hstored.
    - intros [= ->].
      apply stored_user_loop_found in Hstored
        as (Hin & user & Hquery & -> & Hstatus).
      apply Hcand in Hin as [Hnone Hin].
      split_and!; [by apply protocols_registered|congruence|].
      intros id [= <-]. left. by exists user.
    - intros (Hin & id & -> & Hid & Hresolve)%resolve_loop_found.
      apply Hcand in Hin as [Hnone Hin].
      split_and!; [by apply protocols_registered|congruence|].
      intros ? [= <-]. right. split_and!; [done..|].
      intros c Hc Hunsure.
      apply (stored_user_loop_none handle candidates w Hstored).
      by apply Hcand. }
  destruct candidates as [|only [|second rest]]; [exact Hrest| |exact Hrest].
  intros [= <- <-].
  destruct (proj1 (Hcand only) (list_elem_of_here _ _)) as [Hnone Hin].
  split_and!; [by apply protocols_registered|congruence|done].
Qed.

End handles.

End resolution.


(** *** The network *)

Section fetches.
Variable is_web : string → bool.
Variable domain_from_link : string → option string.
Variable is_homepage : string → bool.
Variable PROTOCOLS : list (string * option Protocol).
Variable BOT_ACTOR_AP_IDS : list string.
Variable World : Type.
Variable Object_get_by_id : World → string → option Object.
Variable Object_put : Object → World → World.
Variable has_raw : Object → bool.
Variable is_stale : Object → bool.
Variable Object_clear : Object → Object.
Variable Object_new : string → Object.
Variable too_big : Object → bool.
Variable resolve_ids : Object → Object.
Variable normalize_ids : Object → Object.
Variable activity_changed : Object → option AS1 → bool.
(** Two networks. *)
Variable fetch1 : Protocol → Object → World → fetched * World.
Variable fetch2 : Protocol → Object → World → fetched * World.

(** [for_id] fetches only when it may and has to.  With [remote=False], or
    when at most one registered class is unsure of the id, the answer does
    not depend on what a fetch would give, and the datastore is left as it
    was. *)
Theorem for_id_fetches_only_when_unsure (id : string) (remote : bool) (w : World) :
  remote = false
  ∨ (length (filter (λ p, owns_id p id = None) (protocols PROTOCOLS)) ≤ 1)%nat →
  for_id is_web domain_from_link is_homepage PROTOCOLS BOT_ACTOR_AP_IDS World
    Object_get_by_id Object_put has_raw is_stale Object_clear Object_new too_big
    resolve_ids normalize_ids activity_changed fetch1 id remote w
  = for_id is_web domain_from_link is_homepage PROTOCOLS BOT_ACTOR_AP_IDS World
      Object_get_by_id Object_put has_raw is_stale Object_clear Object_new too_big
      resolve_ids normalize_ids activity_changed fetch2 id remote w
  ∧ (for_id is_web domain_from_link is_homepage PROTOCOLS BOT_ACTOR_AP_IDS World
       Object_get_by_id Object_put has_raw is_stale Object_clear Object_new
       too_big resolve_ids normalize_ids activity_changed fetch1 id remote w).2
    = w.
Proof.
  intros Hcond. unfold for_id.
  destruct (truthy id) eqn:Hid; simpl; [|done].
  destruct (by_subdomain _ _ _ _ _ id) as [[p|]|e]; [done| |done].
  by rewrite !by_owner_offline.
Qed.
End fetches.

(** *** Runs *)

(** A registry in the manner of the bridge's: ActivityPub and Web are unsure
    of web URLs and disown everything else, ATProto owns [at://] URIs and
    DIDs; ActivityPub owns handles that start with [@], the others are
    unsure of the rest. *)
Definition activitypub_cls : Protocol :=
  {| LABEL := "activitypub"; ABBREV := "ap"; HAS_COPIES := false;
     owns_id := λ id, if Webutil.is_web_prefix id then None else Some false;
     owns_handle := λ handle, if startswith "@" handle then Some true else Some false;
     get_by_id := λ _, None; get_for_copy := λ _, None;
     is_blocklisted := λ _ _, false; target_for := λ _ _, None |}.

Definition atproto_cls : Protocol :=
  {| LABEL := "atproto"; ABBREV := "bsky"; HAS_COPIES := true;
     owns_id := λ id, if startswith "at://" id || startswith "did:" id
                      then Some true else Some false;
     owns_handle := λ handle, if startswith "@" handle then Some false else None;
     get_by_id := λ _, None; get_for_copy := λ _, None;
     is_blocklisted := λ _ _, false; target_for := λ _ _, None |}.

Definition web_cls : Protocol :=
  {| LABEL := "web"; ABBREV := "web"; HAS_COPIES := false;
     owns_id := λ id, if Webutil.is_web_prefix id then None else Some false;
     owns_handle := λ handle, if startswith "@" handle then Some false else None;
     get_by_id := λ _, None; get_for_copy := λ _, None;
     is_blocklisted := λ _ _, false; target_for := λ _ _, None |}.

Definition registry : list (string * option Protocol) :=
  [("ostatus", None); ("web", Some web_cls); ("activitypub", Some activitypub_cls);
   ("ap", Some activitypub_cls); ("atproto", Some atproto_cls);
   ("bsky", Some atproto_cls)].

Definition fetch_fails (cls : Protocol) (obj : Object) (w : gmap string Object)
  : fetched * gmap string Object :=
  (FetchRaised BadGateway, w).

Definition for_id_example
    (fetch : Protocol → Object → gmap string Object → fetched * gmap string Object) :=
  for_id Webutil.is_web_prefix (λ u, Webutil.domain_of u false)
    (λ u, String.eqb (removesuffix "/" u)
            ("https://" +:+ Webutil.host_of u))
    registry [] (gmap string Object) (λ w id, w !! id) store_put (λ _, false)
    (λ _, false) (λ obj, empty_object (default "" (key obj))) empty_object
    (λ _, false) (λ obj, obj) (λ obj, obj) (λ _ _, true) fetch.

Lemma for_bridgy_subdomain_bot_user_id_witness :
  bot_user_id atproto_cls = "bsky.brid.gy"
  ∧ for_bridgy_subdomain Webutil.is_web_prefix (λ u, Webutil.domain_of u false)
      registry "bsky.brid.gy" FedNone
    = Done (Some atproto_cls)
  ∧ for_bridgy_subdomain Webutil.is_web_prefix (λ u, Webutil.domain_of u false)
      registry "https://bsky.brid.gy/ap/did:plc:abc" (FedClass web_cls)
    = Done (Some atproto_cls).
Proof.
  split; [reflexivity|].
  assert (ABBREV atproto_cls ≠ "fed") as Habbrev by discriminate.
  destruct (for_bridgy_subdomain_bot_user_id Webutil.is_web_prefix
              (λ u, Webutil.domain_of u false) registry atproto_cls FedNone
              Habbrev) as [Hdomain _].
  destruct (for_bridgy_subdomain_bot_user_id Webutil.is_web_prefix
              (λ u, Webutil.domain_of u false) registry atproto_cls
              (FedClass web_cls) Habbrev) as [_ Hurl].
  split.
  - by apply Hdomain.
  - by apply Hurl.
Defined.

Lemma for_id_first_owner_witness :
  protocols registry = [activitypub_cls; atproto_cls; web_cls]
  ∧ for_id_example fetch_fails "at://did:plc:abc/app.bsky.feed.post/1" true ∅
    = (Done (Some atproto_cls), ∅).
Proof.
  split; [reflexivity|].
  apply (for_id_first_owner Webutil.is_web_prefix (λ u, Webutil.domain_of u false)
           _ registry [] (gmap string Object) (λ w id, w !! id) store_put
           (λ _, false) (λ _, false) (λ obj, empty_object (default "" (key obj)))
           empty_object (λ _, false) (λ obj, obj) (λ obj, obj) (λ _ _, true)
           fetch_fails "at://did:plc:abc/app.bsky.feed.post/1" true ∅
           [activitypub_cls] [web_cls] atproto_cls); try reflexivity.
  - discriminate.
  - intros q Hq. apply list_elem_of_singleton in Hq as ->. discriminate.
Defined.

Lemma for_id_sound_witness :
  for_id_example fetch_fails "https://web.brid.gy/r/https://user.com/post" true ∅
  = (Done (Some web_cls), ∅)
  ∧ Webutil.is_web_prefix "https://web.brid.gy/r/https://user.com/post" = true
  ∧ for_bridgy_subdomain Webutil.is_web_prefix (λ u, Webutil.domain_of u false)
      registry "https://web.brid.gy/r/https://user.com/post" FedNone
    = Done (Some web_cls).
Proof.
  assert (for_id_example fetch_fails "https://web.brid.gy/r/https://user.com/post"
            true ∅ = (Done (Some web_cls), ∅)) as Hrun by reflexivity.
  split; [exact Hrun|].
  destruct (for_id_sound _ _ _ _ _ _ _ _ _ _ _ _ _ _ _ _ _ _ _ _ _ _ Hrun)
    as [(Hweb & Hsub & _)|[[_ Howns]|(obj & label & Hget & _)]].
  - done.
  - by vm_compute in Howns.
  - by rewrite lookup_empty in Hget.
Defined.

Lemma for_id_fetches_only_when_unsure_witness :
  for_id_example fetch_a_note "https://user.com/post" false ∅
  = for_id_example fetch_fails "https://user.com/post" false ∅
  ∧ (for_id_example fetch_a_note "https://user.com/post" false ∅).2 = ∅
  ∧ (for_id_example fetch_a_note "https://user.com/post" true ∅).2 ≠ ∅.
Proof.
  split_and!; [| |by vm_compute].
  - apply for_id_fetches_only_when_unsure. by left.
  - apply (for_id_fetches_only_when_unsure Webutil.is_web_prefix
             (λ u, Webutil.domain_of u false) _ registry [] (gmap string Object)
             (λ w id, w !! id) store_put (λ _, false) (λ _, false)
             (λ obj, empty_object (default "" (key obj))) empty_object
             (λ _, false) (λ obj, obj) (λ obj, obj) (λ _ _, true)
             fetch_a_note fetch_fails "https://user.com/post" false ∅).
    by left.
Defined.

(** Handles: nobody is stored; Web resolves a domain to itself. *)
Definition for_handle_example :=
  for_handle registry (gmap string Object) (λ _ _ _, None) (λ _, None)
    (λ proto handle,
       if String.eqb (LABEL proto) "web" then Done (Some handle) else Done None).

Lemma for_handle_sound_witness :
  for_handle_example "user.com" ∅ = Done (Some web_cls, Some "user.com")
  ∧ Some web_cls ∈ registry.*2
  ∧ owns_handle web_cls "user.com" ≠ Some false.
Proof.
  assert (for_handle_example "user.com" ∅ = Done (Some web_cls, Some "user.com"))
    as Hrun by reflexivity.
  split; [exact Hrun|].
  destruct (for_handle_sound _ _ _ _ _ _ _ _ _ Hrun) as (Hreg & Howns & _).
  done.
Defined.
End Resolution.

(** ** protocol.py: [Protocol.handle_bare_object] *)

Module BareObject.
Import Common Models Load.

#[local] Instance Status_eq_dec : EqDecision Status.
Proof. solve_decision. Defined.

(** The activity that wraps a bare object: [our_as1] of the new Object. *)
Record Wrapper : Type := {
  wrapper_verb : string;
  wrapper_id : string;
  wrapper_actor : option string;
  wrapper_object : option AS1;
  wrapper_updated : option string;
  wrapper_published : option string;
}.

(** What [handle_bare_object] does: it returns [obj]; or a new Object around
    an update, which it does not store; or what [Object.get_or_create] gives
    for a create; or it ends the request with 204; or [obj] has no key. *)
Inductive handled : Type :=
| Unwrapped (obj : Object)
| Update (id : string) (our_as1 : Wrapper) (source_protocol : option string)
| Create (created : Object)
| Unchanged
| NoKey.

Section handle_bare_object.
(** [obj.type], granary's [as1.ACTOR_TYPES] and [as1.get_owner(obj.as1)],
    [util.now().isoformat()], whether [force] is in the request's form. *)
Variable obj_type : Object → option string.
Variable ACTOR_TYPES : list string.
Variable get_owner : option AS1 → option string.
Variable now : string.
Variable force : bool.
(** The datastore: [Object.get_by_id], whether [raw] is set, and
    [Object.get_or_create(id, our_as1=..., source_protocol=...,
    authed_as=...)]. *)
Variable World : Type.
Variable Object_get_by_id : World → string → option Object.
Variable has_raw : Object → bool.
Variable Object_get_or_create :
  string → Wrapper → option string → option string → World → Object * World.

Definition type_in (obj : Object) (types : list string) : bool :=
  match obj_type obj with
  | Some t => bool_decide (t ∈ types)
  | None => false
  end.

Definition handle_bare_object (cls : Protocol) (obj : Object)
    (authed_as : option string) (w : World) : handled * World :=
  let is_actor := type_in obj ACTOR_TYPES in
  if negb is_actor && negb (type_in obj ["note"; "article"; "comment"])
  then (Unwrapped obj, w)
  else
    let obj_actor := get_owner (as1 obj) in
    match key obj with
    | None => (NoKey, w)
    | Some key_id =>
        if bool_decide (changed obj = Some true) || is_actor then
          let id := key_id +:+ "#bridgy-fed-update-" +:+ now in
          (Update id {| wrapper_verb := "update"; wrapper_id := id;
                        wrapper_actor := obj_actor; wrapper_object := as1 obj;
                        wrapper_updated := Some now;
                        wrapper_published := None |}
             (source_protocol obj), w)
        else
          let create_id := key_id +:+ "#bridgy-fed-create" in
          let create := load_local World Object_get_by_id has_raw create_id w in
          if bool_decide (new obj = Some true)
             || negb (is_Some_bool create)
             || match create with
                | Some create => negb (bool_decide (status create = Some StComplete))
                | None => false
                end
             || force
          then
            let '(created, w) :=
              Object_get_or_create create_id
                {| wrapper_verb := "post"; wrapper_id := create_id;
                   wrapper_actor := obj_actor; wrapper_object := as1 obj;
                   wrapper_updated := None; wrapper_published := Some now |}
                (source_protocol obj) authed_as w in
            (Create created, w)
          else (Unchanged, w)
    end.

(** A bare object is dropped only when nothing about it is new.  The request
    ends with the 204 of "unchanged, nothing to do" exactly when the Object
    is a note, an article or a comment and not an actor, is neither changed
    nor new, [force] is not set, and its create activity is stored with
    status complete.  The datastore is written only where
    [Object.get_or_create] is called for the create. *)
Theorem handle_bare_object_drops_only_unchanged (cls : Protocol) (obj : Object)
    (authed_as : option string) (w : World) :
  ((handle_bare_object cls obj authed_as w).1 = Unchanged ↔
   ∃ key_id create,
     key obj = Some key_id
     ∧ type_in obj ACTOR_TYPES = false
     ∧ type_in obj ["note"; "article"; "comment"] = true
     ∧ changed obj ≠ Some true ∧ new obj ≠ Some true ∧ force = false
     ∧ load_local World Object_get_by_id has_raw
         (key_id +:+ "#bridgy-fed-create") w = Some create
     ∧ status create = Some StComplete)
  ∧ ((∀ created, (handle_bare_object cls obj authed_as w).1 ≠ Create created) →
     (handle_bare_object cls obj authed_as w).2 = w).
Proof.
  unfold handle_bare_object.
  destruct (type_in obj ACTOR_TYPES) eqn:Hactor; simpl.
  { destruct (key obj) as [key_id|]; simpl.
    - rewrite orb_true_r. simpl. split; [|done].
      split; [done|]. by intros (? & ? & _ & ? & _).
    - split; [|done]. split; [done|]. by intros (? & ? & ? & _). }
  destruct (type_in obj ["note"; "article"; "comment"]) eqn:Hbare; simpl.
  2: { split; [|done]. split; [done|]. by intros (? & ? & _ & _ & ? & _). }
  destruct (key obj) as [key_id|]; simpl.
  2: { split; [|done]. split; [done|]. by intros (? & ? & ? & _). }
  rewrite orb_false_r.
  case_bool_decide as Hchanged; simpl.
  { split; [|done]. split; [done|]. by intros (? & ? & _ & _ & _ & ? & _). }
  case_bool_decide as Hnew; simpl.
  { destruct (Object_get_or_create _ _ _ _ w) as [created w1]. simpl.
    split.
    - split; [done|]. by intros (? & ? & _ & _ & _ & _ & ? & _).
    - intros Hno. by destruct (Hno created). }
  destruct (load_local World Object_get_by_id has_raw
              (key_id +:+ "#bridgy-fed-create") w) as [create|] eqn:Hcreate; simpl.
  2: { destruct (Object_get_or_create _ _ _ _ w) as [created w1]. simpl.
       split.
       - split; [done|].
         intros (? & ? & [= <-] & _ & _ & _ & _ & _ & Hc & _). congruence.
       - intros Hno. by destruct (Hno created). }
  case_bool_decide as Hstatus; simpl.
  2: { destruct (Object_get_or_create _ _ _ _ w) as [created w1]. simpl.
       split.
       - split; [done|].
         intros (? & ? & [= <-] & _ & _ & _ & _ & _ & Hc & ?).
         rewrite Hcreate in Hc. by injection Hc as <-.
       - intros Hno. by destruct (Hno created). }
  destruct force eqn:Hforce; simpl.
  { destruct (Object_get_or_create _ _ _ _ w) as [created w1]. simpl.
    split.
    - split; [done|]. by intros (? & ? & _ & _ & _ & _ & _ & ? & _).
    - intros Hno. by destruct (Hno created). }
  split; [|done]. split; [|done].
  intros _. exists key_id, create. done.
Qed.

End handle_bare_object.

End BareObject.
